(** * IliganMart backend: the purchase transaction and the payment relay

    A shallow embedding of [src/db.js] (the table definitions of
    [createUsersTable] and the Express handlers that follow them), the
    properties of the purchase subsystem stated in the specification, and
    further properties of the handlers.

    Definitions:
    - [JS]      : JavaScript numbers (binary64) as exact rationals with
                  round-to-nearest-even, and the string functions used by
                  the handlers;
    - [JSField] : the fields of a JSON body and their coercions;
    - [PG]      : the tables, the column types of the DDL and the
                  statements the handlers send to the store;
    - [Handler] : the handlers as programs over store statements and their
                  sequential execution;
    - [Conc]    : interleaved execution of several purchase requests under
                  the row lock taken by [SELECT ... FOR UPDATE];
    - [PayPal]  : the payment relay handlers and the router re-dispatch;
    - [Spec]    : the vocabulary of the specification (outcomes, traces,
                  the stock invariant);
    - [Sample], [SampleMore], [AccountSample] : the data of the examples;
    - [Race]    : the phases of a purchase and the invariant of a race
                  for one product;
    - [Ledger]  : the constraints of the tables and sequences of
                  requests;
    - [Listing] : the three listings ([GET] handlers over products and
                  orders);
    - [Accounts]: registration, login and the lookups of users, over the
                  full rows of [users] and [sellers].

    Results:
    - [JSFacts], [PGFacts] : the error of binary64 rounding, and the
                  exactness of the total stored in [NUMERIC(12,2)];
    - [PurchaseFacts]      : every way a purchase served alone can end;
    - [PurchaseClaims], [StockClaims], [PayPalClaims] : the properties of
                  the purchase, of the stock and of the payment relay;
    - [RaceFacts], [RaceClaims] : concurrent purchases of one product;
    - [PurchaseMore], [NumericMore], [ProductMore], [LedgerFacts],
      [PayPalMore], [ListingFacts], [AccountsFacts], [RaceMore] :
                  further properties of the handlers, their error cases,
                  their invariants and how they compose. *)

From Stdlib Require Import ZArith QArith Qround Qabs Qpower Lia Lqa.
From Stdlib Require Import String Ascii List Bool.
From stdpp Require Import gmap strings list fin_maps.

Open Scope Z_scope.

(* ===================================================================== *)
(** * JavaScript values                                                   *)
(* ===================================================================== *)

Module JS.

(** A JavaScript Number: NaN, an infinity, or a finite binary64 value
    carried as the rational it denotes. A result of arithmetic is always
    rounded by [rnd]; a number read from a JSON body is taken as given.
    The two zeros are not told apart: the handlers only test them with
    [!x], [x <= 0] and [x || d], which agree on both. *)
Inductive num : Type :=
| NaN
| Inf (neg : bool)
| Fin (x : Q).

Definition pow2 (e : Z) : Q := Qpower 2 e.

(** [floor (log2 x)] for a positive rational. *)
Definition Qlog2 (x : Q) : Z :=
  let l := Z.log2 (Qnum x) - Z.log2 (Zpos (Qden x)) in
  if Qle_bool (pow2 l) x then l else l - 1.

(** Nearest integer, ties to even. *)
Definition round_half_even (s : Q) : Z :=
  let f := Qfloor s in
  match Qcompare (s - inject_Z f) (1 # 2) with
  | Lt => f
  | Gt => f + 1
  | Eq => if Z.even f then f else f + 1
  end.

(** Binary64 rounding of a positive rational: 53 significant bits, the
    unit in the last place never below [2^-1074] (subnormals). *)
Definition ulp_exp (x : Q) : Z := Z.max (Qlog2 x - 52) (-1074).

Definition round_pos (x : Q) : Q :=
  let e := ulp_exp x in
  Qred (inject_Z (round_half_even (x / pow2 e)) * pow2 e).

(** Round to nearest, ties to even, overflowing to an infinity. *)
Definition rnd (x : Q) : num :=
  match Qnum x with
  | Z0 => Fin 0
  | Zpos _ =>
      let y := round_pos (Qred x) in
      if Qle_bool (pow2 1024) y then Inf false else Fin y
  | Zneg _ =>
      let y := round_pos (Qred (- x)) in
      if Qle_bool (pow2 1024) y then Inf true else Fin (Qred (- y))
  end.

(** The unit roundoff of [rnd] and the half of the least subnormal: the
    rounding of [x] is within [|x| * u53 + eta] of [x]. *)
Definition u53 : Q := pow2 (-53).
Definition eta : Q := pow2 (-1075).

Definition of_Z (z : Z) : num := Fin (inject_Z z).

(** [!x] on a number: true for NaN and zero. *)
Definition falsy (x : num) : bool :=
  match x with
  | NaN => true
  | Inf _ => false
  | Fin q => Qeq_bool q 0
  end.

(** [a < b] and [a <= b]; any comparison with NaN is false. *)
Definition lt (a b : num) : bool :=
  match a, b with
  | NaN, _ | _, NaN => false
  | Inf true, Inf true => false
  | Inf true, _ => true
  | _, Inf true => false
  | Inf false, _ => false
  | _, Inf false => true
  | Fin x, Fin y => negb (Qle_bool y x)
  end.

Definition le (a b : num) : bool :=
  match a, b with
  | NaN, _ | _, NaN => false
  | Inf true, _ => true
  | _, Inf true => false
  | _, Inf false => true
  | Inf false, _ => false
  | Fin x, Fin y => Qle_bool x y
  end.

Definition Qneg (q : Q) : bool := negb (Qle_bool 0 q).

(** [a - b] *)
Definition sub (a b : num) : num :=
  match a, b with
  | NaN, _ | _, NaN => NaN
  | Inf s, Inf t => if Bool.eqb s t then NaN else Inf s
  | Inf s, Fin _ => Inf s
  | Fin _, Inf t => Inf (negb t)
  | Fin x, Fin y => rnd (x - y)
  end.

(** [a * b] *)
Definition mul (a b : num) : num :=
  match a, b with
  | NaN, _ | _, NaN => NaN
  | Inf s, Inf t => Inf (xorb s t)
  | Inf s, Fin y => if Qeq_bool y 0 then NaN else Inf (xorb s (Qneg y))
  | Fin x, Inf t => if Qeq_bool x 0 then NaN else Inf (xorb (Qneg x) t)
  | Fin x, Fin y => rnd (x * y)
  end.

(** ** Decimal rendering

    [Number.prototype.toString] gives the shortest decimal that reads back
    as the same binary64 value, and among those of that length the one
    nearest to it. Only the value of the rendered decimal matters here. *)

Definition pow10 (e : Z) : Q := Qpower 10 e.

(** The least [n], searched upwards from [n0], with [x < 10^n]. *)
Fixpoint dec_exp_from (fuel : nat) (n0 : Z) (x : Q) : Z :=
  match fuel with
  | O => n0
  | S fuel' =>
      if Qle_bool (pow10 n0) x then dec_exp_from fuel' (n0 + 1) x else n0
  end.

(** The decimal exponent of a positive [x]: [10^(n-1) <= x < 10^n]. The
    search starts below it, at an estimate taken from the binary
    exponent. *)
Definition dec_exp (x : Q) : Z := dec_exp_from 8 (Qlog2 x * 3 / 10 - 2) x.

Definition reads_back (x c : Q) : bool :=
  match rnd c with
  | Fin y => Qeq_bool y x
  | _ => false
  end.

(** The candidates with [k] digits for [x] of decimal exponent [n]: the
    decimals just below and just above [x]. *)
Definition candidate (n : Z) (x : Q) (k : Z) : option Q :=
  let scale := pow10 (k - n) in
  let lo := Qfloor (x * scale) in
  let clo := Qred (inject_Z lo / scale) in
  let chi := Qred (inject_Z (lo + 1) / scale) in
  match reads_back x clo, reads_back x chi with
  | false, false => None
  | true, false => Some clo
  | false, true => Some chi
  | true, true =>
      match Qcompare (x - clo) (chi - x) with
      | Lt => Some clo
      | Gt => Some chi
      | Eq => if Z.even lo then Some clo else Some chi
      end
  end.

Fixpoint shortest_from (fuel : nat) (n : Z) (k : Z) (x : Q) : Q :=
  match fuel with
  | O => x
  | S fuel' =>
      match candidate n x k with
      | Some c => c
      | None => shortest_from fuel' n (k + 1) x
      end
  end.

Definition shortest (x : Q) : Q := shortest_from 17 (dec_exp x) 1 x.

(** The value of [String(x)] for a finite [x]. Seventeen digits always
    identify a binary64 value; past them the exact value is returned. *)
Definition to_decimal (x : Q) : Q :=
  match Qnum x with
  | Z0 => 0
  | Zpos _ => shortest (Qred x)
  | Zneg _ => Qred (- shortest (Qred (- x)))
  end.

(** Rounding to an integer, ties away from zero. *)
Definition round_half_away (x : Q) : Z :=
  if Qle_bool 0 x then Qfloor (x + (1 # 2)) else - Qfloor (- x + (1 # 2)).

(** [x.toFixed(2)]: the amount in hundredths, or [String(x)] for a value
    that is not finite or not below [10^21]. *)
Inductive fixed2 : Type :=
| Hundredths (n : Z)
| Plain (x : num).

Definition toFixed2 (x : num) : fixed2 :=
  match x with
  | Fin q =>
      if Qle_bool (pow10 21) (Qabs q) then Plain x
      else Hundredths (round_half_away (q * 100))
  | _ => Plain x
  end.

(** ** Strings

    Strings are sequences of code units below U+0100. *)

Definition is_space (c : ascii) : bool :=
  let n := nat_of_ascii c in
  ((9 <=? n) && (n <=? 13) || (n =? 32) || (n =? 160))%nat.

Fixpoint trim_start (s : string) : string :=
  match s with
  | EmptyString => EmptyString
  | String c s' => if is_space c then trim_start s' else s
  end.

Fixpoint trim_end (s : string) : string :=
  match s with
  | EmptyString => EmptyString
  | String c s' =>
      match trim_end s' with
      | EmptyString => if is_space c then EmptyString else String c EmptyString
      | t => String c t
      end
  end.

(** [s.trim()] *)
Definition trim (s : string) : string := trim_end (trim_start s).

Definition lower_char (c : ascii) : ascii :=
  let n := nat_of_ascii c in
  if ((65 <=? n) && (n <=? 90)
      || (192 <=? n) && (n <=? 222) && negb (n =? 215))%nat
  then ascii_of_nat (n + 32) else c.

(** [s.toLowerCase()] *)
Fixpoint toLowerCase (s : string) : string :=
  match s with
  | EmptyString => EmptyString
  | String c s' => String (lower_char c) (toLowerCase s')
  end.

(** [!s] on a string. *)
Definition empty (s : string) : bool :=
  match s with EmptyString => true | _ => false end.

End JS.

(** A field of a JSON request body: absent, [null], or a value. *)
Inductive field (A : Type) : Type :=
| Absent
| Null
| Val (a : A).
Arguments Absent {A}.
Arguments Null {A}.
Arguments Val {A} a.

Module JSField.
Import JS.

(** [x || d] on a number field. *)
Definition num_or (x : field num) (d : num) : num :=
  match x with
  | Val v => if falsy v then d else v
  | _ => d
  end.

(** [x || ''] on a string field. *)
Definition str_or_empty (x : field string) : string :=
  match x with
  | Val s => s
  | _ => EmptyString
  end.

(** [!x] *)
Definition no_num (x : field num) : bool :=
  match x with
  | Val v => falsy v
  | _ => true
  end.

Definition no_str (x : field string) : bool :=
  match x with
  | Val s => empty s
  | _ => true
  end.

(** [x == null] *)
Definition nullish {A} (x : field A) : bool :=
  match x with
  | Val _ => false
  | _ => true
  end.

(** [Number(x)]: [undefined] gives NaN and [null] gives 0. *)
Definition Number (x : field num) : num :=
  match x with
  | Absent => NaN
  | Null => of_Z 0
  | Val v => v
  end.

(** [(x || '').trim().toLowerCase()] *)
Definition norm_email (x : field string) : string :=
  toLowerCase (trim (str_or_empty x)).

End JSField.

(* ===================================================================== *)
(** * The store                                                           *)
(* ===================================================================== *)

Module PG.
Import JS.

(** ** Rows of the tables created by [createUsersTable]

    Timestamps are integers; [NUMERIC(12,2)] values are counted in
    hundredths. *)

Record user : Type := mkUser {
  u_id : Z;
  u_name : string;
  u_email : string;
  u_role : string
}.

Record product : Type := mkProduct {
  p_user_id : Z;
  p_name : string;
  p_description : string;
  p_price : Z;
  p_category : string;
  p_stock : Z;
  p_image_url : option string;
  p_created_at : Z;
  p_updated_at : Z
}.

Record order : Type := mkOrder {
  o_id : Z;
  o_product_id : Z;
  o_buyer_email : string;
  o_quantity : Z;
  o_total_price : Z;
  o_created_at : Z
}.

(** The committed tables. [products] is keyed by the [id] column; the two
    counters are the sequences behind the [SERIAL] columns. *)
Record db : Type := mkDb {
  users : list user;
  products : gmap Z product;
  orders : list order;
  products_seq : Z;
  orders_seq : Z
}.

(** An open transaction of a session: its start time ([NOW()] and
    [CURRENT_TIMESTAMP]), the product rows it has rewritten and the order
    rows it has inserted, none of them visible to other sessions before
    [COMMIT]. *)
Record tx : Type := mkTx {
  tx_start : Z;
  tx_products : gmap Z product;
  tx_orders : list order
}.

(** The store: the committed tables, the product rows locked by
    [FOR UPDATE] or [UPDATE] with the session that holds each lock, and
    the open transactions by session. *)
Record store : Type := mkStore {
  committed : db;
  locks : gmap Z nat;
  txs : gmap nat tx
}.

Definition quiescent (d : db) : store :=
  {| committed := d; locks := ∅; txs := ∅ |}.

Inductive pgerror : Type :=
| invalid_text_representation
| numeric_value_out_of_range
| string_data_right_truncation
| character_not_in_repertoire
| check_violation
| foreign_key_violation.

(** ** Column types

    A JavaScript number is sent as the text [String(x)] and read by the
    input function of the column type. *)

Definition int4_ok (z : Z) : bool := (- 2 ^ 31 <=? z) && (z <? 2 ^ 31).

(** [INTEGER]: the text must be an integer literal in range. A binary64
    integer in that range is rendered with all its digits. *)
Definition to_int4 (x : num) : pgerror + Z :=
  match x with
  | Fin q =>
      let r := Qred q in
      if negb (Pos.eqb (Qden r) 1) then inl invalid_text_representation
      else if int4_ok (Qnum r) then inr (Qnum r)
      else inl numeric_value_out_of_range
  | _ => inl invalid_text_representation
  end.

(** [NUMERIC(12,2)]: the decimal text is rounded to two places and must
    stay below [10^10]. The result is in hundredths. NaN is not a JSON
    number and no handler computes one for such a column. *)
Definition to_numeric_12_2 (x : num) : pgerror + Z :=
  match x with
  | Fin q =>
      let c := round_half_away (to_decimal q * 100) in
      if Z.abs c <? 10 ^ 12 then inr c else inl numeric_value_out_of_range
  | _ => inl numeric_value_out_of_range
  end.

Fixpoint has_nul (s : string) : bool :=
  match s with
  | EmptyString => false
  | String c s' => (nat_of_ascii c =? 0)%nat || has_nul s'
  end.

Fixpoint all_blank (s : string) : bool :=
  match s with
  | EmptyString => true
  | String c s' => (nat_of_ascii c =? 32)%nat && all_blank s'
  end.

(** [TEXT]: any string without the code zero. *)
Definition to_text (s : string) : pgerror + string :=
  if has_nul s then inl character_not_in_repertoire else inr s.

(** [VARCHAR(n)]: at most [n] characters; an excess made of spaces only
    is cut off, any other excess is an error. *)
Definition to_varchar (n : nat) (s : string) : pgerror + string :=
  if has_nul s then inl character_not_in_repertoire
  else if (String.length s <=? n)%nat then inr s
  else if all_blank (substring n (String.length s - n) s)
       then inr (substring 0 n s)
       else inl string_data_right_truncation.

(** The text of a [NUMERIC(12,2)] column read back by [Number(...)]. *)
Definition Number_of_numeric (c : Z) : num := rnd (c # 100).

(** ** Client operations

    [Connect] and [Release] are [pool.connect()] and [client.release()];
    the others are the SQL statements of the handlers, indexed by the type
    of their result. *)
Inductive op : Type -> Type :=
| Connect : op unit
| Release : op unit
| Begin : op unit
| Commit : op unit
| Rollback : op unit
| SelectProductForUpdate (id : num) : op (list (Z * Z * Z))
| UpdateStock (stock : num) (id : num) : op unit
| InsertOrder (product_id : num) (buyer_email : string)
              (quantity : num) (total_price : num) : op order
| SelectUserId (email : string) : op (list Z)
| InsertProduct (user_id : Z) (name description : string) (price : num)
                (category : string) (stock : num)
                (image_url : option string) : op (Z * product).

(** ** Execution of one operation by session [sid] at time [now] *)

Definition set_committed (st : store) (d : db) : store :=
  {| committed := d; locks := locks st; txs := txs st |}.

Definition set_locks (st : store) (l : gmap Z nat) : store :=
  {| committed := committed st; locks := l; txs := txs st |}.

Definition set_txs (st : store) (t : gmap nat tx) : store :=
  {| committed := committed st; locks := locks st; txs := t |}.

Definition set_products (d : db) (m : gmap Z product) : db :=
  {| users := users d; products := m; orders := orders d;
     products_seq := products_seq d; orders_seq := orders_seq d |}.

Definition set_orders (d : db) (l : list order) : db :=
  {| users := users d; products := products d; orders := l;
     products_seq := products_seq d; orders_seq := orders_seq d |}.

Definition set_orders_seq (d : db) (n : Z) : db :=
  {| users := users d; products := products d; orders := orders d;
     products_seq := products_seq d; orders_seq := n |}.

Definition set_products_seq (d : db) (n : Z) : db :=
  {| users := users d; products := products d; orders := orders d;
     products_seq := n; orders_seq := orders_seq d |}.

Definition set_stock (p : product) (stock updated_at : Z) : product :=
  {| p_user_id := p_user_id p; p_name := p_name p;
     p_description := p_description p; p_price := p_price p;
     p_category := p_category p; p_stock := stock;
     p_image_url := p_image_url p; p_created_at := p_created_at p;
     p_updated_at := updated_at |}.

(** The product row a session sees: its own uncommitted version, if any,
    else the committed one. *)
Definition visible_product (st : store) (sid : nat) (id : Z) : option product :=
  match txs st !! sid with
  | Some t =>
      match tx_products t !! id with
      | Some p => Some p
      | None => products (committed st) !! id
      end
  | None => products (committed st) !! id
  end.

(** The row lock of a product is held by another session. *)
Definition locked_by_other (st : store) (sid : nat) (id : Z) : bool :=
  match locks st !! id with
  | Some holder => negb (Nat.eqb holder sid)
  | None => false
  end.

(** A session takes a row lock; outside a transaction the lock ends with
    the statement. *)
Definition take_lock (st : store) (sid : nat) (id : Z) : store :=
  match txs st !! sid with
  | Some _ => set_locks st (<[id := sid]> (locks st))
  | None => st
  end.

Definition release_locks (st : store) (sid : nat) : store :=
  set_locks st (filter (fun kv => snd kv ≠ sid) (locks st)).

(** Writing a product row: into the open transaction, or straight into
    the table. *)
Definition write_product (st : store) (sid : nat) (id : Z) (p : product) : store :=
  match txs st !! sid with
  | Some t =>
      set_txs st (<[sid := {| tx_start := tx_start t;
                             tx_products := <[id := p]> (tx_products t);
                             tx_orders := tx_orders t |}]> (txs st))
  | None =>
      set_committed st (set_products (committed st)
                          (<[id := p]> (products (committed st))))
  end.

Definition write_order (st : store) (sid : nat) (o : order) : store :=
  match txs st !! sid with
  | Some t =>
      set_txs st (<[sid := {| tx_start := tx_start t;
                             tx_products := tx_products t;
                             tx_orders := tx_orders t ++ [o] |}]> (txs st))
  | None =>
      set_committed st (set_orders (committed st) (orders (committed st) ++ [o]))
  end.

(** [NOW()] and [CURRENT_TIMESTAMP]: the start of the transaction. *)
Definition current_timestamp (st : store) (sid : nat) (now : Z) : Z :=
  match txs st !! sid with
  | Some t => tx_start t
  | None => now
  end.

Definition user_matches (email : string) (u : user) : bool :=
  String.eqb (u_email u) email
  && (String.eqb (u_role u) "seller" || String.eqb (u_role u) "customer").

(** [exec] returns [None] when the session has to wait for a row lock,
    else the result of the statement, an error or a value, and the new
    store. A value that does not fit its column is refused when the
    parameters are bound, before any default is computed; a sequence
    that has run out of [INTEGER] values gives no identifier; a violated
    constraint is found after the sequence has advanced, and sequences
    are not rolled back. *)
Definition exec {R : Type} (o : op R) (sid : nat) (now : Z) (st : store)
  : option ((pgerror + R) * store) :=
  match o in op R return option ((pgerror + R) * store) with
  | Connect => Some (inr tt, st)
  | Release => Some (inr tt, st)
  | Begin =>
      match txs st !! sid with
      | Some _ => Some (inr tt, st)
      | None =>
          Some (inr tt,
                set_txs st (<[sid := {| tx_start := now; tx_products := ∅;
                                        tx_orders := [] |}]> (txs st)))
      end
  | Commit =>
      match txs st !! sid with
      | None => Some (inr tt, st)
      | Some t =>
          let d := committed st in
          let d' := set_orders (set_products d (tx_products t ∪ products d))
                               (orders d ++ tx_orders t) in
          Some (inr tt,
                release_locks (set_txs (set_committed st d') (delete sid (txs st))) sid)
      end
  | Rollback =>
      Some (inr tt, release_locks (set_txs st (delete sid (txs st))) sid)
  | SelectProductForUpdate idp =>
      match to_int4 idp with
      | inl e => Some (inl e, st)
      | inr id =>
          match visible_product st sid id with
          | None => Some (inr [], st)
          | Some p =>
              if locked_by_other st sid id then None
              else Some (inr [(id, p_price p, p_stock p)], take_lock st sid id)
          end
      end
  | UpdateStock stockp idp =>
      match to_int4 stockp, to_int4 idp with
      | inl e, _ => Some (inl e, st)
      | _, inl e => Some (inl e, st)
      | inr stock, inr id =>
          match visible_product st sid id with
          | None => Some (inr tt, st)
          | Some p =>
              if locked_by_other st sid id then None
              else
                let p' := set_stock p stock (current_timestamp st sid now) in
                Some (inr tt, write_product (take_lock st sid id) sid id p')
          end
      end
  | InsertOrder pidp email qtyp totalp =>
      match to_int4 pidp, to_varchar 255 email, to_int4 qtyp,
            to_numeric_12_2 totalp with
      | inl e, _, _, _ => Some (inl e, st)
      | _, inl e, _, _ => Some (inl e, st)
      | _, _, inl e, _ => Some (inl e, st)
      | _, _, _, inl e => Some (inl e, st)
      | inr pid, inr em, inr qty, inr total =>
          if locked_by_other st sid pid then None
          else
            let id := orders_seq (committed st) + 1 in
            if negb (int4_ok id) then Some (inl numeric_value_out_of_range, st)
            else
            let st1 := set_committed st (set_orders_seq (committed st) id) in
            if negb (0 <? qty) then Some (inl check_violation, st1)
            else
              match visible_product st sid pid with
              | None => Some (inl foreign_key_violation, st1)
              | Some _ =>
                  let row := {| o_id := id; o_product_id := pid;
                                o_buyer_email := em; o_quantity := qty;
                                o_total_price := total;
                                o_created_at := current_timestamp st sid now |} in
                  Some (inr row, write_order st1 sid row)
              end
      end
  | SelectUserId email =>
      Some (inr (map u_id (filter (fun u => user_matches email u = true)
                                  (users (committed st)))), st)
  | InsertProduct uid name description pricep category stockp image_url =>
      match to_varchar 255 name, to_text description, to_numeric_12_2 pricep,
            to_varchar 100 category, to_int4 stockp with
      | inl e, _, _, _, _ => Some (inl e, st)
      | _, inl e, _, _, _ => Some (inl e, st)
      | _, _, inl e, _, _ => Some (inl e, st)
      | _, _, _, inl e, _ => Some (inl e, st)
      | _, _, _, _, inl e => Some (inl e, st)
      | inr nm, inr de, inr price, inr cat, inr stock =>
          match
            match image_url with
            | None => inr None
            | Some s => match to_text s with
                        | inl e => inl e
                        | inr s' => inr (Some s')
                        end
            end
          with
          | inl e => Some (inl e, st)
          | inr img =>
              let id := products_seq (committed st) + 1 in
              if negb (int4_ok id) then Some (inl numeric_value_out_of_range, st)
              else
              let st1 := set_committed st (set_products_seq (committed st) id) in
              if negb (existsb (fun u => Z.eqb (u_id u) uid) (users (committed st)))
              then Some (inl foreign_key_violation, st1)
              else
                let ts := current_timestamp st sid now in
                let p := {| p_user_id := uid; p_name := nm; p_description := de;
                            p_price := price; p_category := cat; p_stock := stock;
                            p_image_url := img; p_created_at := ts;
                            p_updated_at := ts |} in
                Some (inr (id, p), write_product st1 sid id p)
          end
      end
  end.

End PG.

(* ===================================================================== *)
(** * The handlers of the purchase subsystem                              *)
(* ===================================================================== *)

Module Handler.
Import JS JSField PG.

(** A handler is a tree of client operations: each [await] is a node and
    the code up to the next [await] is its continuation. *)
Inductive prog (A : Type) : Type :=
| Ret (a : A)
| Do {R : Type} (o : op R) (k : pgerror + R -> prog A).
Arguments Ret {A} a.
Arguments Do {A R} o k.

(** The JSON bodies sent by [res.status(...).json(...)]. [details] is the
    message of the store error. *)
Inductive payload : Type :=
| ErrorBody (error : string) (details : option pgerror)
| PurchaseBody (order : order) (remainingStock : num)
| ProductBody (id : Z) (p : product).

Record response : Type := mkResponse {
  status : Z;
  body : payload
}.

(** ** [POST /api/purchase] *)

Record purchase_req : Type := mkPurchaseReq {
  productId : field num;
  buyerEmail : field string;
  quantity : field num
}.

(** [finally { client.release(); }] *)
Definition finish (r : response) : prog response :=
  Do Release (fun _ => Ret r).

(** [catch (error) { await client.query('ROLLBACK'); res.status(500)... }] *)
Definition purchase_catch (e : pgerror) : prog response :=
  Do Rollback (fun _ =>
    finish (mkResponse 500 (ErrorBody "Purchase failed" (Some e)))).

(** An awaited query inside the [try] block. *)
Definition try {R : Type} (r : pgerror + R) (k : R -> prog response)
  : prog response :=
  match r with
  | inl e => purchase_catch e
  | inr v => k v
  end.

(** [await client.query('COMMIT'); res.status(201).json(...)] *)
Definition purchase_commit (o : order) (newStock : num) : prog response :=
  Do Commit (fun r => try r (fun _ =>
    finish (mkResponse 201 (PurchaseBody o newStock)))).

(** [const total = Number(prod.price) * qty;] and the [INSERT] *)
Definition purchase_insert (pid : num) (email : string) (qty : num)
    (price : Z) (newStock : num) : prog response :=
  let total := mul (Number_of_numeric price) qty in
  Do (InsertOrder pid email qty total) (fun r => try r (fun o =>
    purchase_commit o newStock)).

(** [const newStock = prod.stock - qty;] and the [UPDATE] *)
Definition purchase_update (pid : num) (email : string) (qty : num)
    (price stock : Z) : prog response :=
  let newStock := sub (of_Z stock) qty in
  Do (UpdateStock newStock pid) (fun r => try r (fun _ =>
    purchase_insert pid email qty price newStock)).

Definition not_found : prog response :=
  Do Rollback (fun _ =>
    finish (mkResponse 404 (ErrorBody "Product not found" None))).

Definition insufficient : prog response :=
  Do Rollback (fun _ =>
    finish (mkResponse 400 (ErrorBody "Insufficient stock" None))).

(** The two tests on [prodRes.rows]. *)
Definition purchase_check (pid : num) (email : string) (qty : num)
    (rows : list (Z * Z * Z)) : prog response :=
  match rows with
  | [] => not_found
  | (_, price, stock) :: _ =>
      if lt (of_Z stock) qty then insufficient
      else purchase_update pid email qty price stock
  end.

Definition purchase_select (pid : num) (email : string) (qty : num)
  : prog response :=
  Do (SelectProductForUpdate pid) (fun r => try r (purchase_check pid email qty)).

Definition purchase_begin (pid : num) (email : string) (qty : num)
  : prog response :=
  Do Begin (fun r => try r (fun _ => purchase_select pid email qty)).

Definition missing_fields : prog response :=
  finish (mkResponse 400 (ErrorBody "Missing required fields" None)).

Definition purchase (req : purchase_req) : prog response :=
  Do Connect (fun _ =>
    let qty := num_or (quantity req) (of_Z 1) in
    let email := norm_email (buyerEmail req) in
    match productId req with
    | Val pid =>
        if falsy pid || empty email || falsy qty || le qty (of_Z 0)
        then missing_fields
        else purchase_begin pid email qty
    | _ => missing_fields
    end).

(** ** [POST /api/seller/products] *)

Record product_req : Type := mkProductReq {
  r_email : field string;
  r_name : field string;
  r_description : field string;
  r_price : field num;
  r_category : field string;
  r_stock : field num;
  r_imageUrl : field string
}.

(** An awaited [pool.query] inside the [try] block of the handler. *)
Definition try_product {R : Type} (r : pgerror + R) (k : R -> prog response)
  : prog response :=
  match r with
  | inl e => Ret (mkResponse 500 (ErrorBody "Create product failed" (Some e)))
  | inr v => k v
  end.

(** [imageUrl || null] *)
Definition image_or_null (x : field string) : option string :=
  match x with
  | Val s => if empty s then None else Some s
  | _ => None
  end.

Definition create_product (req : product_req) : prog response :=
  let normEmail := norm_email (r_email req) in
  if empty normEmail || no_str (r_name req) || no_str (r_description req)
     || nullish (r_price req) || no_str (r_category req)
  then Ret (mkResponse 400 (ErrorBody "Missing required fields" None))
  else
    Do (SelectUserId normEmail) (fun r => try_product r (fun ids =>
      match ids with
      | [] => Ret (mkResponse 404 (ErrorBody "User not found" None))
      | userId :: _ =>
          Do (InsertProduct userId (str_or_empty (r_name req))
                (str_or_empty (r_description req)) (Number (r_price req))
                (str_or_empty (r_category req))
                (Number (Val (num_or (r_stock req) (of_Z 0))))
                (image_or_null (r_imageUrl req)))
             (fun r => try_product r (fun row =>
                Ret (mkResponse 201 (ProductBody (fst row) (snd row)))))
      end)).

(** ** Sequential execution

    One request served alone by session [sid] at time [now]: the
    response, the store afterwards and the operations performed, in
    order. [None] when the session would wait for a lock for ever. *)

Definition event : Type := { R : Type & op R }.
Definition ev {R : Type} (o : op R) : event := existT R o.

Fixpoint run {A : Type} (p : prog A) (sid : nat) (now : Z) (st : store)
  : option (A * store * list event) :=
  match p with
  | Ret a => Some (a, st, [])
  | Do o k =>
      match exec o sid now st with
      | None => None
      | Some (r, st') =>
          match run (k r) sid now st' with
          | None => None
          | Some (a, st'', t) => Some (a, st'', ev o :: t)
          end
      end
  end.

End Handler.

(* ===================================================================== *)
(** * Concurrent requests                                                 *)
(* ===================================================================== *)

Module Conc.
Import JS JSField PG Handler.

(** Each request in flight is a thread with its own pooled client (the
    session of thread [i] is [i]) and the time at which it runs. A thread
    runs from one [await] to the next without interruption; between two
    of them any other thread may run. *)
Record thread : Type := mkThread {
  th_now : Z;
  th_prog : prog response
}.

Record config : Type := mkConfig {
  cstore : store;
  threads : list thread
}.

(** Thread [i] is given the processor: it performs its next operation,
    unless it has responded already or waits for a lock. *)
Definition step (i : nat) (c : config) : config :=
  match threads c !! i with
  | None => c
  | Some th =>
      match th_prog th with
      | Ret _ => c
      | Do o k =>
          match exec o i (th_now th) (cstore c) with
          | None => c
          | Some (r, st') =>
              {| cstore := st';
                 threads := <[i := {| th_now := th_now th; th_prog := k r |}]>
                              (threads c) |}
          end
      end
  end.

Definition run_schedule (sched : list nat) (c : config) : config :=
  fold_left (fun c i => step i c) sched c.

Definition responded (th : thread) : option response :=
  match th_prog th with
  | Ret r => Some r
  | Do _ _ => None
  end.

Definition all_responded (c : config) : bool :=
  forallb (fun th => match responded th with Some _ => true | None => false end)
          (threads c).

Definition has_status (s : Z) (th : thread) : bool :=
  match responded th with
  | Some r => Z.eqb (status r) s
  | None => false
  end.

Definition is_insufficient (th : thread) : bool :=
  match responded th with
  | Some (mkResponse 400 (ErrorBody "Insufficient stock" None)) => true
  | _ => false
  end.

Definition count (f : thread -> bool) (c : config) : Z :=
  Z.of_nat (length (filter (fun th => f th = true) (threads c))).

(** The requests start together on a store at rest. *)
Definition launch (d : db) (reqs : list (Z * purchase_req)) : config :=
  {| cstore := quiescent d;
     threads := map (fun r => {| th_now := fst r; th_prog := purchase (snd r) |})
                    reqs |}.

(** Every thread in turn, [rounds] times over. *)
Fixpoint round_robin (n : nat) (rounds : nat) : list nat :=
  match rounds with
  | O => []
  | S r => seq 0 n ++ round_robin n r
  end.

End Conc.

(* ===================================================================== *)
(** * The payment relay                                                   *)
(* ===================================================================== *)

Module PayPal.
Import JS JSField.

(** [PAYPAL_CLIENT_ID] and [PAYPAL_CLIENT_SECRET], empty when the
    environment does not set them. *)
Record credentials : Type := mkCredentials {
  client_id : string;
  client_secret : string
}.

(** The requests sent to the provider with [fetch]: the token exchange,
    the creation of an order for an amount in PHP, and the capture of an
    order. *)
Inductive call : Type :=
| TokenCall (id secret : string)
| CreateCall (token : string) (value : fixed2)
| CaptureCall (token : string) (orderID : string).

(** Why a handler ended in its [catch] block. *)
Inductive failure : Type :=
| FetchFailed (error : string)
| TokenFailed (status : Z) (text : string)
| BadJson (error : string).

(** [resp.ok] *)
Definition ok (status : Z) : bool := (200 <=? status) && (status <=? 299).

Record body : Type := mkBody {
  amount : field num;
  orderID : field string
}.

Inductive meth : Type := GET | POST.

Record request : Type := mkRequest {
  r_method : meth;
  r_url : string;
  r_body : body
}.

(** The routes of the application, in the order of their registration. *)
Inductive endpoint : Type :=
| health
| admin_users
| seller_orders
| api_paypal_create_order
| api_paypal_capture_order
| root_create_order
| root_capture_order
| products_public
| api_purchase
| seller_products_list
| seller_products_create
| register_seller
| register
| login
| user_by_email.

Definition routes : list (meth * string * endpoint) :=
  [ (GET, "/api/health", health);
    (GET, "/api/admin/users", admin_users);
    (GET, "/api/seller/orders", seller_orders);
    (POST, "/api/paypal/create-order", api_paypal_create_order);
    (POST, "/api/paypal/capture-order", api_paypal_capture_order);
    (POST, "/create-order", root_create_order);
    (POST, "/capture-order", root_capture_order);
    (GET, "/api/products/public", products_public);
    (POST, "/api/purchase", api_purchase);
    (GET, "/api/seller/products", seller_products_list);
    (POST, "/api/seller/products", seller_products_create);
    (POST, "/api/register-seller", register_seller);
    (POST, "/api/register", register);
    (POST, "/api/login", login);
    (GET, "/api/user/:email", user_by_email) ]%string.

Definition meth_eqb (a b : meth) : bool :=
  match a, b with
  | GET, GET | POST, POST => true
  | _, _ => false
  end.

(** The segments of a path between its slashes. *)
Fixpoint segments_from (cur : string) (s : string) : list string :=
  match s with
  | EmptyString => [cur]
  | String c s' =>
      if Ascii.eqb c "/" then cur :: segments_from EmptyString s'
      else segments_from (cur ++ String c EmptyString) s'
  end.

Definition segments (s : string) : list string := segments_from EmptyString s.

Definition segment_matches (pat seg : string) : bool :=
  match pat with
  | String ":" _ => negb (empty seg)
  | _ => String.eqb pat seg
  end.

Fixpoint segments_match (pats segs : list string) : bool :=
  match pats, segs with
  | [], [] => true
  | p :: pats', s :: segs' => segment_matches p s && segments_match pats' segs'
  | _, _ => false
  end.

(** A path is matched as written, segment by segment; a segment of the
    pattern that starts with a colon stands for any non-empty segment. *)
Definition path_matches (pattern url : string) : bool :=
  segments_match (segments pattern) (segments url).

Definition route_of (req : request) : option endpoint :=
  match
    filter (fun r => meth_eqb (fst (fst r)) (r_method req)
                     && path_matches (snd (fst r)) (r_url req) = true) routes
  with
  | r :: _ => Some (snd r)
  | [] => None
  end.

Definition set_url (req : request) (url : string) : request :=
  {| r_method := r_method req; r_url := url; r_body := r_body req |}.

Section Provider.

(** The provider is outside the program: [world] is its state, [fetch]
    one round trip, and [payload] a parsed JSON document, of which the
    handlers read nothing but the text of [access_token]. *)
Variable payload : Type.
Variable access_token : payload -> string.
Variable world : Type.

(** What a [fetch] comes to: it throws, or it gives a response with a
    status, a text ([resp.text()]) and the outcome of [resp.json()], a
    thrown error or a document. *)
Inductive outcome : Type :=
| Throws (error : string)
| Responds (status : Z) (text : string) (json : string + payload).

Variable fetch : call -> world -> outcome * world.
Variable cred : credentials.

Inductive paypal_body : Type :=
| ErrorBody (error : string) (details : option failure)
| Relay (data : payload).

Record response : Type := mkResponse {
  status : Z;
  rbody : paypal_body
}.

(** The result of a handler: the response, the provider afterwards, and
    the calls made to it, in order. *)
Definition result : Type := response * world * list call.

(** [getPayPalAccessToken()] *)
Definition getPayPalAccessToken (w : world)
  : (failure + string) * world * list call :=
  let c := TokenCall (client_id cred) (client_secret cred) in
  match fetch c w with
  | (Throws e, w') => (inl (FetchFailed e), w', [c])
  | (Responds st text json, w') =>
      if negb (ok st) then (inl (TokenFailed st text), w', [c])
      else
        match json with
        | inl e => (inl (BadJson e), w', [c])
        | inr data => (inr (access_token data), w', [c])
        end
  end.

Definition not_configured : response :=
  mkResponse 500 (ErrorBody "PayPal credentials not configured" None).

(** The response relayed from the provider. *)
Definition relay (error : string) (o : outcome) : response :=
  match o with
  | Throws e => mkResponse 500 (ErrorBody error (Some (FetchFailed e)))
  | Responds st _ (inl e) => mkResponse 500 (ErrorBody error (Some (BadJson e)))
  | Responds st _ (inr data) =>
      if negb (ok st) then mkResponse st (Relay data)
      else mkResponse 200 (Relay data)
  end.

(** [app.post('/create-order', ...)] *)
Definition create_order (b : body) (w : world) : result :=
  let amt := Number (amount b) in
  if falsy amt || le amt (of_Z 0)
  then (mkResponse 400 (ErrorBody "Invalid amount" None), w, [])
  else if empty (client_id cred) || empty (client_secret cred)
  then (not_configured, w, [])
  else
    match getPayPalAccessToken w with
    | (inl f, w1, t1) =>
        (mkResponse 500 (ErrorBody "Create order failed" (Some f)), w1, t1)
    | (inr token, w1, t1) =>
        let c := CreateCall token (toFixed2 amt) in
        let (o, w2) := fetch c w1 in
        (relay "Create order failed" o, w2, t1 ++ [c])
    end.

(** [app.post('/capture-order', ...)] *)
Definition capture_order (b : body) (w : world) : result :=
  if no_str (orderID b)
  then (mkResponse 400 (ErrorBody "orderID is required" None), w, [])
  else if empty (client_id cred) || empty (client_secret cred)
  then (not_configured, w, [])
  else
    match getPayPalAccessToken w with
    | (inl f, w1, t1) =>
        (mkResponse 500 (ErrorBody "Capture order failed" (Some f)), w1, t1)
    | (inr token, w1, t1) =>
        let c := CaptureCall token (str_or_empty (orderID b)) in
        let (o, w2) := fetch c w1 in
        (relay "Capture order failed" o, w2, t1 ++ [c])
    end.

(** What the router does with a request: a payment handler responds, or
    the request belongs to a handler outside this module, or no route
    matches and nothing is sent by the callback given to the router. *)
Inductive served : Type :=
| Responded (r : result)
| Elsewhere (e : endpoint)
| Unrouted.

(** [app._router.handle(req, res, ...)]. The two aliases under
    [/api/paypal] rewrite [req.url] and enter the router again; [fuel]
    bounds the number of such entries. *)
Fixpoint handle (fuel : nat) (req : request) (w : world) : option served :=
  match fuel with
  | O => None
  | S fuel' =>
      match route_of req with
      | None => Some Unrouted
      | Some api_paypal_create_order =>
          handle fuel' (set_url req "/create-order") w
      | Some api_paypal_capture_order =>
          handle fuel' (set_url req "/capture-order") w
      | Some root_create_order => Some (Responded (create_order (r_body req) w))
      | Some root_capture_order => Some (Responded (capture_order (r_body req) w))
      | Some e => Some (Elsewhere e)
      end
  end.

End Provider.

End PayPal.

(* ===================================================================== *)
(** * Vocabulary of the specification                                     *)
(* ===================================================================== *)

Module Spec.
Import JS JSField PG Handler.

(** The rows of [products] conform to the column types of the table:
    identifiers come from the [SERIAL] sequence, [stock] is an [INTEGER]
    and [price] a [NUMERIC(12,2)]. *)
Definition product_conforms (id : Z) (p : product) : Prop :=
  1 <= id < 2 ^ 31 /\ int4_ok (p_stock p) = true /\ Z.abs (p_price p) < 10 ^ 12.

Definition conforms (d : db) : Prop :=
  map_Forall product_conforms (products d).

(** The row of a new order fits the columns of [orders]: the e-mail its
    [VARCHAR(255)], the total its [NUMERIC(12,2)], and the sequence of
    identifiers has not run out. *)
Definition order_fits (d : db) (email : string) (price q : Z) : Prop :=
  to_varchar 255 email = inr email /\
  Z.abs (price * q) < 10 ^ 12 /\
  int4_ok (orders_seq d + 1) = true.

(** The order recorded for [q] units of product [pid] at time [now]. *)
Definition new_order (d : db) (pid : Z) (p : product) (email : string)
    (q now : Z) : order :=
  {| o_id := orders_seq d + 1; o_product_id := pid; o_buyer_email := email;
     o_quantity := q; o_total_price := p_price p * q; o_created_at := now |}.

(** The tables after that order has been committed. *)
Definition after_purchase (d : db) (pid : Z) (p : product) (email : string)
    (q now : Z) : db :=
  {| users := users d;
     products := <[pid := set_stock p (p_stock p - q) now]> (products d);
     orders := orders d ++ [new_order d pid p email q now];
     products_seq := products_seq d;
     orders_seq := orders_seq d + 1 |}.

(** The operations of a purchase that runs to its end. *)
Definition purchase_trace (pidv : num) (email : string) (qty : num)
    (p : product) : list event :=
  [ ev Connect; ev Begin; ev (SelectProductForUpdate pidv);
    ev (UpdateStock (sub (of_Z (p_stock p)) qty) pidv);
    ev (InsertOrder pidv email qty (mul (Number_of_numeric (p_price p)) qty));
    ev Commit; ev Release ].

Definition rejected_trace (pidv : num) : list event :=
  [ ev Connect; ev Begin; ev (SelectProductForUpdate pidv);
    ev Rollback; ev Release ].

Definition invalid_input : response :=
  mkResponse 400 (ErrorBody "Missing required fields" None).

Definition product_not_found : response :=
  mkResponse 404 (ErrorBody "Product not found" None).

Definition insufficient_stock : response :=
  mkResponse 400 (ErrorBody "Insufficient stock" None).

(** The effective quantity and e-mail of a request. *)
Definition qty_of (req : purchase_req) : num := num_or (quantity req) (of_Z 1).
Definition email_of (req : purchase_req) : string := norm_email (buyerEmail req).

(** The last character of a string satisfies [f]. *)
Fixpoint ends_with (f : ascii -> bool) (s : string) : bool :=
  match s with
  | EmptyString => false
  | String c EmptyString => f c
  | String _ s' => ends_with f s'
  end.

Definition is_blank (c : ascii) : bool := (nat_of_ascii c =? 32)%nat.

(** The store along the transaction of a session served alone. *)

Definition tx0 (now : Z) : tx :=
  {| tx_start := now; tx_products := ∅; tx_orders := [] |}.

(** After [BEGIN]; after the locking read of product [id]; after the
    [UPDATE]; after the [INSERT]. *)
Definition begun (d : db) (sid : nat) (now : Z) : store :=
  {| committed := d; locks := ∅; txs := {[sid := tx0 now]} |}.

Definition locked (d : db) (sid : nat) (now : Z) (id : Z) : store :=
  {| committed := d; locks := {[id := sid]}; txs := {[sid := tx0 now]} |}.

Definition updated (d : db) (sid : nat) (now : Z) (id : Z) (p' : product)
  : store :=
  {| committed := d; locks := {[id := sid]};
     txs := {[sid := {| tx_start := now; tx_products := {[id := p']};
                        tx_orders := [] |}]} |}.

Definition inserted (d : db) (sid : nat) (now : Z) (id : Z) (p' : product)
    (o : order) : store :=
  {| committed := set_orders_seq d (orders_seq d + 1); locks := {[id := sid]};
     txs := {[sid := {| tx_start := now; tx_products := {[id := p']};
                        tx_orders := [o] |}]} |}.

(** Every way a purchase served alone can end: the request is invalid; a
    value is refused by the store (the identifier is no [INTEGER], or the
    order does not fit its columns); the product is unknown; the stock is
    short; the order is recorded. *)
Inductive purchase_outcome (d : db) (req : purchase_req) (now : Z)
  : response -> store -> list event -> Prop :=
| ends_invalid :
    no_num (productId req) || empty (email_of req) || falsy (qty_of req)
      || le (qty_of req) (of_Z 0) = true ->
    purchase_outcome d req now invalid_input (quiescent d) [ev Connect; ev Release]
| ends_error e t pidv :
    productId req = Val pidv ->
    to_int4 pidv = inl e \/
    (exists pid p,
       to_int4 pidv = inr pid /\ products d !! pid = Some p /\
       lt (of_Z (p_stock p)) (qty_of req) = false /\
       forall q, to_int4 (qty_of req) = inr q ->
                 ~ order_fits d (email_of req) (p_price p) q) ->
    purchase_outcome d req now
      (mkResponse 500 (ErrorBody "Purchase failed" (Some e))) (quiescent d) t
| ends_not_found pidv pid :
    productId req = Val pidv -> to_int4 pidv = inr pid ->
    products d !! pid = None ->
    purchase_outcome d req now product_not_found (quiescent d) (rejected_trace pidv)
| ends_insufficient pidv pid p :
    productId req = Val pidv -> to_int4 pidv = inr pid ->
    products d !! pid = Some p ->
    lt (of_Z (p_stock p)) (qty_of req) = true ->
    purchase_outcome d req now insufficient_stock (quiescent d) (rejected_trace pidv)
| ends_success pidv pid p q :
    productId req = Val pidv -> to_int4 pidv = inr pid ->
    products d !! pid = Some p ->
    to_int4 (qty_of req) = inr q ->
    0 < q <= p_stock p ->
    order_fits d (email_of req) (p_price p) q ->
    purchase_outcome d req now
      (mkResponse 201
         (PurchaseBody (new_order d pid p (email_of req) q now)
                       (of_Z (p_stock p - q))))
      (quiescent (after_purchase d pid p (email_of req) q now))
      (purchase_trace pidv (email_of req) (qty_of req) p).

(** The stock of every product is non-negative. *)
Definition stock_nonneg (d : db) : Prop :=
  map_Forall (fun _ p => 0 <= p_stock p) (products d).

(** A request that would be served if stock allowed: product [pid],
    [q] units, an e-mail that is not blank. *)
Definition orders_units (req : purchase_req) (pid q : Z) : Prop :=
  productId req = Val (of_Z pid) /\ quantity req = Val (of_Z q) /\
  empty (email_of req) = false.

End Spec.

(* ===================================================================== *)
(** * Sample data                                                         *)
(* ===================================================================== *)

Module Sample.
Import JS JSField PG Handler.

Definition ana : user :=
  {| u_id := 7; u_name := "Ana"; u_email := "ana@shop.ph"; u_role := "seller" |}.

(** A product at 100.00 with five units in stock. *)
Definition mango : product :=
  {| p_user_id := 7; p_name := "Mango"; p_description := "Sweet";
     p_price := 10000; p_category := "fruit"; p_stock := 5;
     p_image_url := None; p_created_at := 0; p_updated_at := 0 |}.

Definition shop : db :=
  {| users := [ana]; products := {[1 := mango]}; orders := [];
     products_seq := 1; orders_seq := 0 |}.

(** The request of the example in the specification. *)
Definition two_mangos : purchase_req :=
  {| productId := Val (of_Z 1); buyerEmail := Val " A@B.com ";
     quantity := Val (of_Z 2) |}.

Definition two_mangos_order : order :=
  {| o_id := 1; o_product_id := 1; o_buyer_email := "a@b.com";
     o_quantity := 2; o_total_price := 20000; o_created_at := 1000 |}.

(** A product at the highest price its column can hold. *)
Definition jewel : product :=
  {| p_user_id := 7; p_name := "Jewel"; p_description := "Rare";
     p_price := 999999999999; p_category := "gems"; p_stock := 5;
     p_image_url := None; p_created_at := 0; p_updated_at := 0 |}.

Definition jeweller : db :=
  {| users := [ana]; products := {[1 := jewel]}; orders := [];
     products_seq := 1; orders_seq := 0 |}.


(** A request for seven units, more than the five in stock. *)
Definition seven_mangos : purchase_req :=
  {| productId := Val (of_Z 1); buyerEmail := Val "a@b.com";
     quantity := Val (of_Z 7) |}.



(** A new product with a negative stock. *)
Definition owing : product_req :=
  {| r_email := Val "ana@shop.ph"; r_name := Val "Lanzones";
     r_description := Val "Fresh"; r_price := Val (of_Z 50);
     r_category := Val "fruit"; r_stock := Val (of_Z (-5));
     r_imageUrl := Absent |}.

(** Three requests for two units each, served at times 10, 11 and 12. *)
Definition three_buyers : list (Z * purchase_req) :=
  [(10, two_mangos); (11, two_mangos); (12, two_mangos)].

(** A provider that is never reached, configured credentials, and a
    request to create a payment of zero. *)
Definition offline (c : PayPal.call) (w : unit) : PayPal.outcome unit * unit :=
  (PayPal.Throws unit "fetch failed", w).

Definition merchant : PayPal.credentials :=
  {| PayPal.client_id := "id"; PayPal.client_secret := "secret" |}.

Definition pay_nothing : PayPal.body :=
  {| PayPal.amount := Val (of_Z 0); PayPal.orderID := Absent |}.

End Sample.

(* ===================================================================== *)
(** * Requests racing for one product                                     *)
(* ===================================================================== *)

Module Race.
Import JS JSField PG Handler Conc Spec.

Section Race.

(** The tables at the start, the contended product [pid], the quantity
    [q] each request asks for, and the requests with the time at which
    each is served. *)
Variable d : db.
Variable pid : Z.
Variable q : Z.
Variable reqs : list (Z * purchase_req).

(** Every request asks for [q] units of [pid]. *)
Definition same_units : Prop :=
  Forall (fun rq => orders_units (snd rq) pid q) reqs.

(** The order rows of the race fit the columns of [orders]: each e-mail,
    the total, and the identifiers of as many orders as the stock allows. *)
Definition rows_fit (p : product) : Prop :=
  Forall (fun rq => to_varchar 255 (email_of (snd rq)) = inr (email_of (snd rq)))
         reqs /\
  Z.abs (p_price p * q) < 10 ^ 12 /\
  - 2 ^ 31 <= orders_seq d + 1 /\
  orders_seq d + p_stock p / q < 2 ^ 31.

(** Where a request stands: at one of the operations of the handler, the
    locking read having returned the row [pr] and the [INSERT] the
    identifier [oid]. *)
Inductive phase : Type :=
| AtConnect
| AtBegin
| AtSelect
| AtUpdate (pr : product)
| AtInsert (pr : product)
| AtCommit (pr : product) (oid : Z)
| AtRollback
| AtRelease201 (pr : product) (oid : Z)
| AtRelease400
| Done201 (pr : product) (oid : Z)
| Done400.

Definition order_of (rq : Z * purchase_req) (pr : product) (oid : Z) : order :=
  {| o_id := oid; o_product_id := pid; o_buyer_email := email_of (snd rq);
     o_quantity := q; o_total_price := p_price pr * q;
     o_created_at := fst rq |}.

Definition remaining (pr : product) : num := sub (of_Z (p_stock pr)) (of_Z q).

Definition answer201 (rq : Z * purchase_req) (pr : product) (oid : Z) : response :=
  mkResponse 201 (PurchaseBody (order_of rq pr oid) (remaining pr)).

(** The rest of the handler at each phase. *)
Definition prog_of (rq : Z * purchase_req) (ph : phase) : prog response :=
  let email := email_of (snd rq) in
  match ph with
  | AtConnect => purchase (snd rq)
  | AtBegin => purchase_begin (of_Z pid) email (of_Z q)
  | AtSelect => purchase_select (of_Z pid) email (of_Z q)
  | AtUpdate pr =>
      purchase_update (of_Z pid) email (of_Z q) (p_price pr) (p_stock pr)
  | AtInsert pr =>
      purchase_insert (of_Z pid) email (of_Z q) (p_price pr) (remaining pr)
  | AtCommit pr oid => purchase_commit (order_of rq pr oid) (remaining pr)
  | AtRollback => insufficient
  | AtRelease201 pr oid => finish (answer201 rq pr oid)
  | AtRelease400 => finish insufficient_stock
  | Done201 pr oid => Ret (answer201 rq pr oid)
  | Done400 => Ret insufficient_stock
  end.

Definition thread_of (rq : Z * purchase_req) (ph : phase) : thread :=
  {| th_now := fst rq; th_prog := prog_of rq ph |}.

(** The open transaction of a request at each phase. *)
Definition tx_of (rq : Z * purchase_req) (ph : phase) : option tx :=
  match ph with
  | AtSelect | AtUpdate _ | AtRollback => Some (tx0 (fst rq))
  | AtInsert pr =>
      Some {| tx_start := fst rq;
              tx_products := {[pid := set_stock pr (p_stock pr - q) (fst rq)]};
              tx_orders := [] |}
  | AtCommit pr oid =>
      Some {| tx_start := fst rq;
              tx_products := {[pid := set_stock pr (p_stock pr - q) (fst rq)]};
              tx_orders := [order_of rq pr oid] |}
  | _ => None
  end.

(** The phases in which the request holds the lock of the row. *)
Definition holds (ph : phase) : bool :=
  match ph with
  | AtUpdate _ | AtInsert _ | AtCommit _ _ | AtRollback => true
  | _ => false
  end.

(** The row read under the lock. *)
Definition row_read (ph : phase) : option product :=
  match ph with
  | AtUpdate pr | AtInsert pr | AtCommit pr _ => Some pr
  | _ => None
  end.

Definition committed201 (ph : phase) : bool :=
  match ph with
  | AtRelease201 _ _ | Done201 _ _ => true
  | _ => false
  end.

Definition inserted (ph : phase) : bool :=
  match ph with
  | AtCommit _ _ | AtRelease201 _ _ | Done201 _ _ => true
  | _ => false
  end.

Definition short (ph : phase) : bool :=
  match ph with
  | AtRollback | AtRelease400 | Done400 => true
  | _ => false
  end.

Definition done (ph : phase) : bool :=
  match ph with
  | Done201 _ _ | Done400 => true
  | _ => false
  end.

(** The operations a request has still to perform, at most. *)
Definition steps_left (ph : phase) : nat :=
  match ph with
  | AtConnect => 7
  | AtBegin => 6
  | AtSelect => 5
  | AtUpdate _ => 4
  | AtInsert _ => 3
  | AtCommit _ _ => 2
  | AtRollback => 2
  | AtRelease201 _ _ => 1
  | AtRelease400 => 1
  | Done201 _ _ => 0
  | Done400 => 0
  end.

Definition b2z (b : bool) : Z := if b then 1 else 0.

Fixpoint cnt (f : phase -> bool) (l : list phase) : Z :=
  match l with
  | [] => 0
  | ph :: l' => (if f ph then 1 else 0) + cnt f l'
  end.

Fixpoint work (l : list phase) : nat :=
  match l with
  | [] => O
  | ph :: l' => (steps_left ph + work l')%nat
  end.

(** The invariant of the race: the threads and their transactions are
    those of the phases [phs]; the lock is held by the one request past
    its locking read, which has read the committed row [cur]; the stock
    of [cur] is the initial stock [S] less [q] for each committed order,
    and is below [q] once a request has found it short. *)
Definition invariant (p : product) (c : config) (phs : list phase)
    (cur : product) : Prop :=
  length phs = length reqs /\
  threads c = zip_with thread_of reqs phs /\
  (forall i rq ph, reqs !! i = Some rq -> phs !! i = Some ph ->
                   txs (cstore c) !! i = tx_of rq ph) /\
  (cnt holds phs = 0 /\ locks (cstore c) = ∅ \/
   exists h ph, phs !! h = Some ph /\ holds ph = true /\ cnt holds phs = 1 /\
                locks (cstore c) = {[pid := h]}) /\
  products (committed (cstore c)) !! pid = Some cur /\
  p_price cur = p_price p /\
  p_stock cur = p_stock p - q * cnt committed201 phs /\
  0 <= p_stock cur /\
  orders_seq (committed (cstore c)) = orders_seq d + cnt inserted phs /\
  Z.of_nat (length (orders (committed (cstore c)))) =
    Z.of_nat (length (orders d)) + cnt committed201 phs /\
  (forall i ph pr, phs !! i = Some ph -> row_read ph = Some pr ->
                   pr = cur /\ q <= p_stock pr) /\
  (0 < cnt short phs -> p_stock cur < q).

(** Thread [i] can perform its next operation: it has not responded,
    and it holds the lock or nobody does. *)
Definition enabled (i : nat) (phs : list phase) : Prop :=
  exists ph, phs !! i = Some ph /\ done ph = false /\
             (holds ph = true \/ cnt holds phs = 0).

Definition answered201 (ph : phase) : bool :=
  match ph with
  | Done201 _ _ => true
  | _ => false
  end.

Definition answered400 (ph : phase) : bool :=
  match ph with
  | Done400 => true
  | _ => false
  end.

Definition at_commit (ph : phase) : bool :=
  match ph with
  | AtCommit _ _ => true
  | _ => false
  end.

End Race.

End Race.

(* ===================================================================== *)
(** * The tables over a sequence of requests                              *)
(* ===================================================================== *)

Module Ledger.
Import JS JSField PG Handler Spec.




(** ** The constraints declared by [createUsersTable]

    [PRIMARY KEY] and [UNIQUE] on [users]; for a row of [products] its
    [SERIAL] identifier, [REFERENCES users(id)] and the lengths of its
    [VARCHAR] columns; for a row of [orders] its [SERIAL] identifier,
    [REFERENCES products(id)], [CHECK (quantity > 0)] and the types of
    its columns. *)

Definition product_row_ok (d : db) (id : Z) (p : product) : Prop :=
  id <= products_seq d /\
  (exists u, In u (users d) /\ u_id u = p_user_id p) /\
  (String.length (p_name p) <= 255)%nat /\
  (String.length (p_category p) <= 100)%nat.

Definition order_row_ok (d : db) (o : order) : Prop :=
  1 <= o_id o <= orders_seq d /\
  (exists p, products d !! o_product_id o = Some p) /\
  0 < o_quantity o /\ int4_ok (o_quantity o) = true /\
  Z.abs (o_total_price o) < 10 ^ 12 /\
  (String.length (o_buyer_email o) <= 255)%nat.

Record constraints (d : db) : Prop := mkConstraints {
  users_pk : NoDup (map u_id (users d));
  users_email_unique : NoDup (map u_email (users d));
  products_typed : conforms d;
  products_rows : map_Forall (product_row_ok d) (products d);
  products_seq_ok : 0 <= products_seq d;
  orders_pk : NoDup (map o_id (orders d));
  orders_rows : Forall (order_row_ok d) (orders d);
  orders_seq_ok : 0 <= orders_seq d
}.

(** [!normEmail || !name || !description || price == null || !category] *)
Definition required_missing (req : product_req) : bool :=
  empty (norm_email (r_email req)) || no_str (r_name req)
  || no_str (r_description req) || nullish (r_price req)
  || no_str (r_category req).

(** The [image_url] of a new product as its column takes it. *)
Definition image_text (img : option string) : pgerror + option string :=
  match img with
  | None => inr None
  | Some s => match to_text s with
              | inl e => inl e
              | inr s' => inr (Some s')
              end
  end.

(** The tables after product [p] has been created. *)
Definition after_creation (d : db) (p : product) : db :=
  {| users := users d;
     products := <[products_seq d + 1 := p]> (products d);
     orders := orders d;
     products_seq := products_seq d + 1;
     orders_seq := orders_seq d |}.

(** What a request served to its end can do to the tables: nothing; the
    sale of [q] units of a product that has them, recorded by an order
    row that fits its columns; the creation of a product row that fits
    its columns, for an existing user. *)
Inductive change (d : db) : db -> Prop :=
| unchanged : change d d
| bought pid p email q now :
    products d !! pid = Some p ->
    0 < q <= p_stock p ->
    order_fits d email (p_price p) q ->
    change d (after_purchase d pid p email q now)
| created p u :
    int4_ok (products_seq d + 1) = true ->
    In u (users d) -> p_user_id p = u_id u ->
    int4_ok (p_stock p) = true -> Z.abs (p_price p) < 10 ^ 12 ->
    (String.length (p_name p) <= 255)%nat ->
    (String.length (p_category p) <= 100)%nat ->
    change d (after_creation d p).

(** ** Requests served one after the other *)

Inductive request : Type :=
| Purchase (r : purchase_req)
| CreateProduct (r : product_req).





End Ledger.

(* ===================================================================== *)
(** * More sample data                                                    *)
(* ===================================================================== *)

Module SampleMore.
Import JS JSField PG Handler.

(** A provider that counts the calls made to it: it grants a token,
    creates an order with status 201 and declines a capture with status
    422. Its documents are plain texts, a token document being the
    token. *)
Definition approving (c : PayPal.call) (w : nat) : PayPal.outcome string * nat :=
  match c with
  | PayPal.TokenCall _ _ => (PayPal.Responds string 200 "" (inr "token-1"), S w)
  | PayPal.CreateCall _ _ => (PayPal.Responds string 201 "" (inr "order-1"), S w)
  | PayPal.CaptureCall _ _ => (PayPal.Responds string 422 "" (inr "declined"), S w)
  end.

(** A request of Ana to create a product at 19.99 with four units, and
    the row it creates at time 1000. *)
Definition lanzones_req : product_req :=
  {| r_email := Val " Ana@Shop.ph"; r_name := Val "Lanzones";
     r_description := Val "Fresh"; r_price := Val (Number_of_numeric 1999);
     r_category := Val "fruit"; r_stock := Val (of_Z 4);
     r_imageUrl := Absent |}.

Definition lanzones : product :=
  {| p_user_id := 7; p_name := "Lanzones"; p_description := "Fresh";
     p_price := 1999; p_category := "fruit"; p_stock := 4;
     p_image_url := None; p_created_at := 1000; p_updated_at := 1000 |}.

(** A request to pay 19.99. *)
Definition pay_1999 : PayPal.body :=
  {| PayPal.amount := Val (Number_of_numeric 1999); PayPal.orderID := Absent |}.

End SampleMore.

(* ===================================================================== *)
(** * The listings                                                        *)
(* ===================================================================== *)

Module Listing.
Import JS JSField PG.

(** ** The e-mail of the query string

    A value of [req.query] as the parser of query strings builds it: a
    string, an array of values, or an object. *)
#[warnings="-register-all"]
Inductive qvalue : Type :=
| QStr (s : string)
| QArr (l : list qvalue)
| QObj.

(** [l.join(',')] *)
Fixpoint join_comma (l : list string) : string :=
  match l with
  | [] => EmptyString
  | [s] => s
  | s :: l' => s ++ "," ++ join_comma l'
  end.

(** [v.toString()] *)
Fixpoint qstring (v : qvalue) : string :=
  match v with
  | QStr s => s
  | QArr l => join_comma (map qstring l)
  | QObj => "[object Object]"
  end.

(** [(req.query.email || '').toString().trim().toLowerCase()] *)
Definition query_email (v : option qvalue) : string :=
  toLowerCase (trim (match v with
                     | None => EmptyString
                     | Some x => qstring x
                     end)).

(** ** The rows selected *)

(** [GET /api/products/public] *)
Record public_row : Type := mkPublicRow {
  l_id : Z;
  l_name : string;
  l_description : string;
  l_price : Z;
  l_category : string;
  l_stock : Z;
  l_image_url : option string;
  l_created_at : Z;
  l_seller_name : string
}.

(** [GET /api/seller/products] *)
Record product_row : Type := mkProductRow {
  s_id : Z;
  s_user_id : Z;
  s_name : string;
  s_description : string;
  s_price : Z;
  s_category : string;
  s_stock : Z;
  s_image_url : option string;
  s_created_at : Z
}.

(** [GET /api/seller/orders] *)
Record order_row : Type := mkOrderRow {
  or_id : Z;
  or_product_id : Z;
  or_product_name : string;
  or_buyer_email : string;
  or_quantity : Z;
  or_total_price : Z;
  or_created_at : Z
}.

Definition public_row_of (id : Z) (p : product) (u : user) : public_row :=
  {| l_id := id; l_name := p_name p; l_description := p_description p;
     l_price := p_price p; l_category := p_category p; l_stock := p_stock p;
     l_image_url := p_image_url p; l_created_at := p_created_at p;
     l_seller_name := u_name u |}.

Definition product_row_of (id : Z) (p : product) : product_row :=
  {| s_id := id; s_user_id := p_user_id p; s_name := p_name p;
     s_description := p_description p; s_price := p_price p;
     s_category := p_category p; s_stock := p_stock p;
     s_image_url := p_image_url p; s_created_at := p_created_at p |}.

Definition order_row_of (o : order) (p : product) : order_row :=
  {| or_id := o_id o; or_product_id := o_product_id o;
     or_product_name := p_name p; or_buyer_email := o_buyer_email o;
     or_quantity := o_quantity o; or_total_price := o_total_price o;
     or_created_at := o_created_at o |}.

(** [ORDER BY key DESC]. The store is free in the order of rows of equal
    keys; here a row comes before the rows of the same key met before
    it. *)
Fixpoint insert_desc {A : Type} (key : A -> Z) (x : A) (l : list A) : list A :=
  match l with
  | [] => [x]
  | y :: l' => if key x <? key y then y :: insert_desc key x l' else x :: l
  end.

Definition order_desc {A : Type} (key : A -> Z) (l : list A) : list A :=
  fold_right (insert_desc key) [] l.

(** No row comes before a row of a greater key. *)
Fixpoint sorted_desc {A : Type} (key : A -> Z) (l : list A) : Prop :=
  match l with
  | [] => True
  | x :: l' => Forall (fun y => key y <= key x) l' /\ sorted_desc key l'
  end.

(** [FROM products p JOIN users u ON u.id = p.user_id WHERE p.stock > 0
     ORDER BY p.created_at DESC] *)
Definition public_rows (d : db) : list public_row :=
  order_desc l_created_at
    (flat_map
       (fun ip : Z * product =>
          if 0 <? p_stock (snd ip) then
            map (public_row_of (fst ip) (snd ip))
                (filter (fun u => Z.eqb (u_id u) (p_user_id (snd ip)) = true)
                        (users d))
          else [])
       (map_to_list (products d))).

(** [FROM products WHERE user_id = $1 ORDER BY created_at DESC] *)
Definition product_rows (d : db) (uid : Z) : list product_row :=
  order_desc s_created_at
    (map (fun ip : Z * product => product_row_of (fst ip) (snd ip))
         (filter (fun ip : Z * product => Z.eqb (p_user_id (snd ip)) uid = true)
                 (map_to_list (products d)))).

(** [FROM orders o JOIN products p ON p.id = o.product_id
     WHERE p.user_id = $1 ORDER BY o.created_at DESC] *)
Definition order_rows (d : db) (uid : Z) : list order_row :=
  order_desc or_created_at
    (flat_map
       (fun o =>
          match products d !! o_product_id o with
          | Some p => if Z.eqb (p_user_id p) uid then [order_row_of o p] else []
          | None => []
          end)
       (orders d)).

(** ** The statements of the listings, sent with [pool.query]: each reads
    the committed tables and changes nothing. *)
Inductive query : Type -> Type :=
| SelectUserByEmail (email : string) : query (list Z)
| SelectPublicProducts : query (list public_row)
| SelectProductsOfUser (user_id : Z) : query (list product_row)
| SelectOrdersOfSeller (user_id : Z) : query (list order_row).

Definition answer {R : Type} (q : query R) (d : db) : pgerror + R :=
  match q in query R return pgerror + R with
  | SelectUserByEmail email =>
      if has_nul email then inl character_not_in_repertoire
      else inr (map u_id
                  (filter (fun u => String.eqb (u_email u) email = true)
                          (users d)))
  | SelectPublicProducts => inr (public_rows d)
  | SelectProductsOfUser uid => inr (product_rows d uid)
  | SelectOrdersOfSeller uid => inr (order_rows d uid)
  end.

(** ** The handlers *)

Inductive prog (A : Type) : Type :=
| Ret (a : A)
| Ask {R : Type} (q : query R) (k : pgerror + R -> prog A).
Arguments Ret {A} a.
Arguments Ask {A R} q k.

Inductive payload : Type :=
| ErrorBody (error : string) (details : option pgerror)
| PublicProducts (products : list public_row)
| SellerProducts (products : list product_row)
| SellerOrders (orders : list order_row).

Record response : Type := mkResponse {
  status : Z;
  body : payload
}.

(** An awaited query inside a [try] block whose [catch] answers 500. *)
Definition try {R : Type} (error : string) (r : pgerror + R)
    (k : R -> prog response) : prog response :=
  match r with
  | inl e => Ret (mkResponse 500 (ErrorBody error (Some e)))
  | inr v => k v
  end.

(** [app.get('/api/products/public', ...)] *)
Definition public_products : prog response :=
  Ask SelectPublicProducts (fun r => try "Public products failed" r (fun rows =>
    Ret (mkResponse 200 (PublicProducts rows)))).

(** [app.get('/api/seller/products', ...)] *)
Definition seller_products (email : option qvalue) : prog response :=
  let email := query_email email in
  if empty email then Ret (mkResponse 400 (ErrorBody "Email is required" None))
  else
    Ask (SelectUserByEmail email) (fun r => try "Get products failed" r (fun ids =>
      match ids with
      | [] => Ret (mkResponse 404 (ErrorBody "User not found" None))
      | userId :: _ =>
          Ask (SelectProductsOfUser userId) (fun r =>
            try "Get products failed" r (fun rows =>
              Ret (mkResponse 200 (SellerProducts rows))))
      end)).

(** [app.get('/api/seller/orders', ...)] *)
Definition seller_orders (email : option qvalue) : prog response :=
  let email := query_email email in
  if empty email then Ret (mkResponse 400 (ErrorBody "Email is required" None))
  else
    Ask (SelectUserByEmail email) (fun r =>
      try "Get seller orders failed" r (fun ids =>
        match ids with
        | [] => Ret (mkResponse 404 (ErrorBody "User not found" None))
        | userId :: _ =>
            Ask (SelectOrdersOfSeller userId) (fun r =>
              try "Get seller orders failed" r (fun rows =>
                Ret (mkResponse 200 (SellerOrders rows))))
        end)).

(** A listing served on tables [d]: the response and the statements
    sent, in order. *)
Definition event : Type := { R : Type & query R }.
Definition ev {R : Type} (q : query R) : event := existT R q.

Fixpoint run {A : Type} (p : prog A) (d : db) : A * list event :=
  match p with
  | Ret a => (a, [])
  | Ask q k => let (a, t) := run (k (answer q d)) d in (a, ev q :: t)
  end.

End Listing.

(* ===================================================================== *)
(** * Registration and login                                              *)
(* ===================================================================== *)

Module Accounts.
Import JS JSField PG.

(** ** The tables [users] and [sellers] with all their columns *)

Record account : Type := mkAccount {
  a_id : Z;
  a_full_name : string;
  a_email : string;
  a_password : string;
  a_gender : option string;
  a_role : string;
  a_created_at : Z;
  a_name : string;
  a_updated_at : Z
}.

Record seller : Type := mkSeller {
  sh_id : Z;
  sh_user_id : Z;
  sh_shop_name : string;
  sh_shop_description : string;
  sh_shop_address : string;
  sh_shop_phone : string;
  sh_shop_email : string;
  sh_business_type : string;
  sh_business_permit : option string;
  sh_created_at : Z;
  sh_updated_at : Z
}.

Record tables : Type := mkTables {
  accounts : list account;
  sellers : list seller;
  users_seq : Z;
  sellers_seq : Z
}.

(** The tables as a session sees them, and the rows as they were at
    [BEGIN] while a transaction of the session is open. *)
Record store : Type := mkStore {
  current : tables;
  opened : option (Z * list account * list seller)
}.

Definition at_rest (d : tables) : store := {| current := d; opened := None |}.

Inductive refusal : Type :=
| Refused (e : pgerror)
| unique_violation.

(** The columns that the handlers return of a user and of a shop. *)
Record user_view : Type := mkUserView {
  v_id : Z;
  v_name : string;
  v_email : string;
  v_gender : option string;
  v_role : string;
  v_created_at : Z
}.

Record shop_view : Type := mkShopView {
  w_id : Z;
  w_shop_name : string;
  w_shop_email : string;
  w_business_type : string;
  w_created_at : Z
}.

Definition view (a : account) : user_view :=
  {| v_id := a_id a; v_name := a_name a; v_email := a_email a;
     v_gender := a_gender a; v_role := a_role a;
     v_created_at := a_created_at a |}.

Definition shop_view_of (s : seller) : shop_view :=
  {| w_id := sh_id s; w_shop_name := sh_shop_name s;
     w_shop_email := sh_shop_email s; w_business_type := sh_business_type s;
     w_created_at := sh_created_at s |}.

(** ** Operations

    The statements sent with [pool.query] or [client.query], the calls
    of [bcrypt], and the pooled client. *)
Inductive op : Type -> Type :=
| Connect : op unit
| Release : op unit
| Begin : op unit
| Commit : op unit
| Rollback : op unit
| SelectIdByEmail (email : string) : op (list Z)
| SelectAllByEmail (email : string) : op (list account)
| SelectViewByEmail (email : string) : op (list user_view)
| SelectViews : op (list user_view)
| InsertUser (name email password : string) (gender : option string)
             (role : string) : op user_view
| InsertSeller (user_id : Z) (shop_name shop_description shop_address
                shop_phone shop_email business_type : string)
               (business_permit : option string) : op shop_view
| Hash (password : string) : op string
| Compare (password hashed : string) : op bool.

Definition to_varchar_opt (n : nat) (s : option string)
  : pgerror + option string :=
  match s with
  | None => inr None
  | Some x => match to_varchar n x with
              | inl e => inl e
              | inr x' => inr (Some x')
              end
  end.

Definition set_current (st : store) (d : tables) : store :=
  {| current := d; opened := opened st |}.

(** [NOW()] and [CURRENT_TIMESTAMP]: the start of the transaction. *)
Definition timestamp (st : store) (now : Z) : Z :=
  match opened st with
  | Some (start, _, _) => start
  | None => now
  end.

Definition with_email (email : string) (d : tables) : list account :=
  filter (fun a => String.eqb (a_email a) email = true) (accounts d).

(** No row comes before a row of a greater key (see [ORDER BY ... DESC]
    in the listings). *)
Fixpoint insert_desc (x : account) (l : list account) : list account :=
  match l with
  | [] => [x]
  | y :: l' =>
      if a_created_at x <? a_created_at y then y :: insert_desc x l'
      else x :: l
  end.

Section Bcrypt.

(** [bcrypt.hash(s, 10)] with the salt it draws, and
    [bcrypt.compare(s, h)]. *)
Variable hash : nat -> string -> string.
Variable compare : string -> string -> bool.

(** One operation at time [now], with [salt] the next salt: the result,
    an error or a value, and the store afterwards. A value that does not
    fit its column is refused before an identifier is drawn; a
    duplicate e-mail is found after, and sequences are not rolled
    back. *)
Definition exec {R : Type} (o : op R) (now : Z) (salt : nat) (st : store)
  : (refusal + R) * store * nat :=
  match o in op R return (refusal + R) * store * nat with
  | Connect => (inr tt, st, salt)
  | Release => (inr tt, st, salt)
  | Begin =>
      match opened st with
      | Some _ => (inr tt, st, salt)
      | None =>
          (inr tt,
           {| current := current st;
              opened := Some (now, accounts (current st), sellers (current st)) |},
           salt)
      end
  | Commit => (inr tt, {| current := current st; opened := None |}, salt)
  | Rollback =>
      match opened st with
      | None => (inr tt, st, salt)
      | Some (_, acs, shs) =>
          (inr tt,
           {| current := {| accounts := acs; sellers := shs;
                            users_seq := users_seq (current st);
                            sellers_seq := sellers_seq (current st) |};
              opened := None |},
           salt)
      end
  | SelectIdByEmail email =>
      if has_nul email then (inl (Refused character_not_in_repertoire), st, salt)
      else (inr (map a_id (with_email email (current st))), st, salt)
  | SelectAllByEmail email =>
      if has_nul email then (inl (Refused character_not_in_repertoire), st, salt)
      else (inr (with_email email (current st)), st, salt)
  | SelectViewByEmail email =>
      if has_nul email then (inl (Refused character_not_in_repertoire), st, salt)
      else (inr (map view (with_email email (current st))), st, salt)
  | SelectViews =>
      (inr (map view (fold_right insert_desc [] (accounts (current st)))),
       st, salt)
  | InsertUser name email password gender role =>
      match to_varchar 255 name, to_varchar 255 email,
            to_varchar 255 password, to_varchar_opt 50 gender,
            to_varchar 20 role with
      | inl e, _, _, _, _ => (inl (Refused e), st, salt)
      | _, inl e, _, _, _ => (inl (Refused e), st, salt)
      | _, _, inl e, _, _ => (inl (Refused e), st, salt)
      | _, _, _, inl e, _ => (inl (Refused e), st, salt)
      | _, _, _, _, inl e => (inl (Refused e), st, salt)
      | inr nm, inr em, inr pw, inr ge, inr ro =>
          let d := current st in
          let id := users_seq d + 1 in
          if negb (int4_ok id)
          then (inl (Refused numeric_value_out_of_range), st, salt)
          else
            let d1 := {| accounts := accounts d; sellers := sellers d;
                         users_seq := id; sellers_seq := sellers_seq d |} in
            match with_email em d with
            | _ :: _ => (inl unique_violation, set_current st d1, salt)
            | [] =>
                let ts := timestamp st now in
                let a := {| a_id := id; a_full_name := nm; a_email := em;
                            a_password := pw; a_gender := ge; a_role := ro;
                            a_created_at := ts; a_name := nm;
                            a_updated_at := ts |} in
                (inr (view a),
                 set_current st
                   {| accounts := accounts d ++ [a]; sellers := sellers d;
                      users_seq := id; sellers_seq := sellers_seq d |},
                 salt)
            end
      end
  | InsertSeller uid shop_name shop_description shop_address shop_phone
                 shop_email business_type business_permit =>
      match to_varchar 255 shop_name, to_text shop_description,
            to_text shop_address, to_varchar 50 shop_phone,
            to_varchar 255 shop_email, to_varchar 50 business_type,
            to_varchar_opt 255 business_permit with
      | inl e, _, _, _, _, _, _ => (inl (Refused e), st, salt)
      | _, inl e, _, _, _, _, _ => (inl (Refused e), st, salt)
      | _, _, inl e, _, _, _, _ => (inl (Refused e), st, salt)
      | _, _, _, inl e, _, _, _ => (inl (Refused e), st, salt)
      | _, _, _, _, inl e, _, _ => (inl (Refused e), st, salt)
      | _, _, _, _, _, inl e, _ => (inl (Refused e), st, salt)
      | _, _, _, _, _, _, inl e => (inl (Refused e), st, salt)
      | inr sn, inr sd, inr sa, inr sp, inr se, inr bt, inr bp =>
          let d := current st in
          let id := sellers_seq d + 1 in
          if negb (int4_ok id)
          then (inl (Refused numeric_value_out_of_range), st, salt)
          else
            let d1 := {| accounts := accounts d; sellers := sellers d;
                         users_seq := users_seq d; sellers_seq := id |} in
            if negb (existsb (fun a => Z.eqb (a_id a) uid) (accounts d))
            then (inl (Refused foreign_key_violation), set_current st d1, salt)
            else
              let ts := timestamp st now in
              let s := {| sh_id := id; sh_user_id := uid; sh_shop_name := sn;
                          sh_shop_description := sd; sh_shop_address := sa;
                          sh_shop_phone := sp; sh_shop_email := se;
                          sh_business_type := bt; sh_business_permit := bp;
                          sh_created_at := ts; sh_updated_at := ts |} in
              (inr (shop_view_of s),
               set_current st
                 {| accounts := accounts d; sellers := sellers d ++ [s];
                    users_seq := users_seq d; sellers_seq := id |},
               salt)
      end
  | Hash password => (inr (hash salt password), st, S salt)
  | Compare password hashed => (inr (compare password hashed), st, salt)
  end.

End Bcrypt.

(** The keys of [users]: e-mails and identifiers are unique, and the
    identifiers have been drawn from the sequence. *)
Definition well_keyed (d : tables) : Prop :=
  NoDup (map a_email (accounts d)) /\
  NoDup (map a_id (accounts d)) /\
  Forall (fun a => a_id a <= users_seq d) (accounts d).

(** ** The handlers *)

Inductive prog (A : Type) : Type :=
| Ret (a : A)
| Do {R : Type} (o : op R) (k : refusal + R -> prog A).
Arguments Ret {A} a.
Arguments Do {A R} o k.

(** The JSON bodies of the responses; a user is sent without its
    password. *)
Inductive payload : Type :=
| ErrorBody (error : string) (details : option refusal)
| Registered (user : user_view)
| SellerRegistered (user : user_view) (shop : shop_view)
| LoggedIn (user : user_view)
| Found (user : user_view)
| UserList (users : list user_view).

Record response : Type := mkResponse {
  status : Z;
  body : payload
}.

(** [x || null] and [x || d] on a string field. *)
Definition str_or_null (x : field string) : option string :=
  match x with
  | Val s => if empty s then None else Some s
  | _ => None
  end.

Definition str_or (x : field string) (d : string) : string :=
  match x with
  | Val s => if empty s then d else s
  | _ => d
  end.

(** An awaited call inside a [try] block whose [catch] answers 500. *)
Definition try {R : Type} (failed : string) (r : refusal + R)
    (k : R -> prog response) : prog response :=
  match r with
  | inl e => Ret (mkResponse 500 (ErrorBody failed (Some e)))
  | inr v => k v
  end.

(** [app.post('/api/register', ...)] *)
Record register_req : Type := mkRegisterReq {
  g_name : field string;
  g_email : field string;
  g_password : field string;
  g_gender : field string;
  g_role : field string
}.

Definition register (req : register_req) : prog response :=
  let normEmail := norm_email (g_email req) in
  if no_str (g_name req) || empty normEmail || no_str (g_password req)
  then Ret (mkResponse 400
              (ErrorBody "Name, email, and password are required" None))
  else
    Do (SelectIdByEmail normEmail) (fun r => try "Registration failed" r (fun ids =>
      match ids with
      | _ :: _ => Ret (mkResponse 400 (ErrorBody "Email already registered" None))
      | [] =>
          Do (Hash (str_or_empty (g_password req))) (fun r =>
            try "Registration failed" r (fun hashedPassword =>
              Do (InsertUser (str_or_empty (g_name req)) normEmail
                    hashedPassword (str_or_null (g_gender req))
                    (str_or (g_role req) "customer"))
                 (fun r => try "Registration failed" r (fun user =>
                    Ret (mkResponse 201 (Registered user))))))
      end)).

(** [app.post('/api/login', ...)] *)
Record login_req : Type := mkLoginReq {
  n_email : field string;
  n_password : field string
}.

Definition login (req : login_req) : prog response :=
  let normEmail := norm_email (n_email req) in
  if empty normEmail || no_str (n_password req)
  then Ret (mkResponse 400 (ErrorBody "Email and password are required" None))
  else
    Do (SelectAllByEmail normEmail) (fun r => try "Login failed" r (fun rows =>
      match rows with
      | [] => Ret (mkResponse 401 (ErrorBody "Invalid email or password" None))
      | user :: _ =>
          Do (Compare (str_or_empty (n_password req)) (a_password user)) (fun r =>
            try "Login failed" r (fun isValidPassword =>
              if isValidPassword
              then Ret (mkResponse 200 (LoggedIn (view user)))
              else Ret (mkResponse 401
                          (ErrorBody "Invalid email or password" None))))
      end)).

(** [app.get('/api/user/:email', ...)]: the e-mail is the segment of the
    path, taken as it is. *)
Definition get_user (email : string) : prog response :=
  Do (SelectViewByEmail email) (fun r => try "Failed to get user" r (fun rows =>
    match rows with
    | [] => Ret (mkResponse 404 (ErrorBody "User not found" None))
    | user :: _ => Ret (mkResponse 200 (Found user))
    end)).

(** [app.get('/api/admin/users', ...)] *)
Definition admin_users : prog response :=
  Do SelectViews (fun r => try "Failed to list users" r (fun rows =>
    Ret (mkResponse 200 (UserList rows)))).

(** [app.post('/api/register-seller', ...)] *)
Record seller_req : Type := mkSellerReq {
  e_name : field string;
  e_email : field string;
  e_password : field string;
  e_gender : field string;
  e_shopName : field string;
  e_shopDescription : field string;
  e_shopAddress : field string;
  e_shopPhone : field string;
  e_shopEmail : field string;
  e_businessType : field string;
  e_businessPermit : field string
}.

(** [finally { client.release(); }] *)
Definition finish (r : response) : prog response :=
  Do Release (fun _ => Ret r).

(** [catch (error) { await client.query('ROLLBACK'); ... }] *)
Definition seller_catch (e : refusal) : prog response :=
  Do Rollback (fun _ =>
    finish (mkResponse 500 (ErrorBody "Register seller failed" (Some e)))).

Definition try_seller {R : Type} (r : refusal + R) (k : R -> prog response)
  : prog response :=
  match r with
  | inl e => seller_catch e
  | inr v => k v
  end.

Definition register_seller (req : seller_req) : prog response :=
  Do Connect (fun _ =>
    let normUserEmail := norm_email (e_email req) in
    let normShopEmail := norm_email (e_shopEmail req) in
    if no_str (e_name req) || empty normUserEmail || no_str (e_password req)
       || no_str (e_shopName req) || no_str (e_shopAddress req)
       || no_str (e_shopPhone req) || empty normShopEmail
       || no_str (e_businessType req)
    then finish (mkResponse 400 (ErrorBody "Missing required fields" None))
    else
      Do Begin (fun r => try_seller r (fun _ =>
      Do (SelectIdByEmail normUserEmail) (fun r => try_seller r (fun ids =>
        match ids with
        | _ :: _ =>
            Do Rollback (fun r => try_seller r (fun _ =>
              finish (mkResponse 400 (ErrorBody "Email already registered" None))))
        | [] =>
            Do (Hash (str_or_empty (e_password req))) (fun r =>
            try_seller r (fun hashedPassword =>
            Do (InsertUser (str_or_empty (e_name req)) normUserEmail
                  hashedPassword (str_or_null (e_gender req)) "seller")
               (fun r => try_seller r (fun user =>
            Do (InsertSeller (v_id user) (str_or_empty (e_shopName req))
                  (str_or_empty (e_shopDescription req))
                  (str_or_empty (e_shopAddress req))
                  (str_or_empty (e_shopPhone req)) normShopEmail
                  (str_or_empty (e_businessType req))
                  (str_or_null (e_businessPermit req)))
               (fun r => try_seller r (fun shop =>
            Do Commit (fun r => try_seller r (fun _ =>
              finish (mkResponse 201 (SellerRegistered user shop))))))))))
        end))))).

(** ** Execution

    One request served alone at time [now]: the response, the store
    afterwards, the next salt, and the operations performed. *)

Definition event : Type := { R : Type & op R }.
Definition ev {R : Type} (o : op R) : event := existT R o.

Section Run.

Variable hash : nat -> string -> string.
Variable compare : string -> string -> bool.

Fixpoint run {A : Type} (p : prog A) (now : Z) (salt : nat) (st : store)
  : A * store * nat * list event :=
  match p with
  | Ret a => (a, st, salt, [])
  | Do o k =>
      let '(r, st', salt') := exec hash compare o now salt st in
      let '(a, st'', salt'', t) := run (k r) now salt' st' in
      (a, st'', salt'', ev o :: t)
  end.

End Run.

End Accounts.

Module AccountSample.
Import JS JSField PG Accounts.

(** A stand-in for [bcrypt]: one hash for every password, accepted for
    every password. *)
Definition one_hash (salt : nat) (password : string) : string := "$2a$10$hash".
Definition accept (password hashed : string) : bool := true.

Definition nobody : tables :=
  {| accounts := []; sellers := []; users_seq := 0; sellers_seq := 0 |}.

Definition bea_req : register_req :=
  {| g_name := Val "Bea"; g_email := Val " Bea@Mail.ph "; g_password := Val "pw";
     g_gender := Absent; g_role := Absent |}.

Definition bea : account :=
  {| a_id := 1; a_full_name := "Bea"; a_email := "bea@mail.ph";
     a_password := "$2a$10$hash"; a_gender := None; a_role := "customer";
     a_created_at := 1000; a_name := "Bea"; a_updated_at := 1000 |}.

Definition bea_only : tables :=
  {| accounts := [bea]; sellers := []; users_seq := 1; sellers_seq := 0 |}.

Definition bea_login : login_req :=
  {| n_email := Val "BEA@mail.ph"; n_password := Val "pw" |}.

Definition cora_req : seller_req :=
  {| e_name := Val "Cora"; e_email := Val "cora@mail.ph";
     e_password := Val "pw"; e_gender := Absent; e_shopName := Val "Cora's";
     e_shopDescription := Absent; e_shopAddress := Val "Iligan";
     e_shopPhone := Val "0917"; e_shopEmail := Val "Shop@Mail.ph";
     e_businessType := Val "retail"; e_businessPermit := Absent |}.

End AccountSample.
(* ===================================================================== *)
(** * Facts about binary64 rounding                                       *)
(* ===================================================================== *)

Module JSFacts.
Import JS.

Local Open Scope Q_scope.

Lemma pow2_pos e : 0 < pow2 e.
Proof. apply Qpower_0_lt. reflexivity. Qed.

Lemma pow2_add a b : pow2 (a + b) == pow2 a * pow2 b.
Proof. apply Qpower_plus. discriminate. Qed.

Lemma pow2_inject e : (0 <= e)%Z -> pow2 e == inject_Z (2 ^ e).
Proof. intros He. unfold pow2. symmetry. apply (Zpower_Qpower 2 e He). Qed.

Lemma inject_Z_succ z : inject_Z (z + 1) == inject_Z z + 1.
Proof. rewrite inject_Z_plus. reflexivity. Qed.

(** Rounding to the nearest integer moves a rational by at most a half. *)
Lemma round_half_even_near s :
  - (1 # 2) <= inject_Z (round_half_even s) - s <= 1 # 2.
Proof.
  unfold round_half_even.
  pose proof (Qfloor_le s) as Hlo.
  pose proof (Qlt_floor s) as Hhi.
  rewrite inject_Z_succ in Hhi.
  destruct (Qcompare_spec (s - inject_Z (Qfloor s)) (1 # 2)) as [He|Hl|Hg].
  - destruct (Z.even (Qfloor s)); [|rewrite inject_Z_succ]; lra.
  - lra.
  - rewrite inject_Z_succ. lra.
Qed.

Lemma round_half_even_Z s z : s == inject_Z z -> round_half_even s = z.
Proof.
  intros Hs. unfold round_half_even.
  rewrite (Qfloor_comp _ _ Hs), Qfloor_Z.
  destruct (Qcompare_spec (s - inject_Z z) (1 # 2)) as [He|Hl|Hg];
    try reflexivity; exfalso; lra.
Qed.

Lemma round_half_even_nonneg s : 0 <= s -> (0 <= round_half_even s)%Z.
Proof.
  intros Hs. unfold round_half_even.
  assert (0 <= Qfloor s)%Z as Hf.
  { rewrite <- (Qfloor_Z 0). apply Qfloor_resp_le. exact Hs. }
  destruct (Qcompare _ _); [destruct (Z.even _)| |]; lia.
Qed.

(** [Qlog2] is a lower bound of the binary logarithm. *)
Lemma Qlog2_le x : 0 < x -> pow2 (Qlog2 x) <= x.
Proof.
  intros Hx. unfold Qlog2.
  set (a := Qnum x). set (b := Zpos (Qden x)).
  set (l := (Z.log2 a - Z.log2 b)%Z).
  destruct (Qle_bool (pow2 l) x) eqn:Hb.
  - apply Qle_bool_iff. exact Hb.
  - assert (0 < a)%Z as Ha.
    { destruct x as [n d]. unfold Qlt in Hx. simpl in *. subst a. simpl. lia. }
    assert (0 < b)%Z as Hb0 by (subst b; lia).
    pose proof (Z.log2_spec a Ha) as [Hal _].
    pose proof (Z.log2_spec b Hb0) as [_ Hbu].
    pose proof (Z.log2_nonneg a) as Hla.
    pose proof (Z.log2_nonneg b) as Hlb.
    assert (x * inject_Z b == inject_Z a) as Hxab.
    { subst a b. destruct x as [n d]. unfold Qeq, Qmult, inject_Z. simpl. lia. }
    assert (pow2 (l - 1) * pow2 (Z.succ (Z.log2 b)) == pow2 (Z.log2 a)) as Hp.
    { rewrite <- pow2_add. subst l.
      replace (Z.log2 a - Z.log2 b - 1 + Z.succ (Z.log2 b))%Z with (Z.log2 a) by lia.
      reflexivity. }
    rewrite (pow2_inject (Z.log2 a)) in Hp by lia.
    rewrite (pow2_inject (Z.succ (Z.log2 b))) in Hp by lia.
    assert (inject_Z (2 ^ Z.log2 a) <= inject_Z a) as H1
      by (rewrite <- Zle_Qle; exact Hal).
    assert (inject_Z b < inject_Z (2 ^ Z.succ (Z.log2 b))) as H2
      by (rewrite <- Zlt_Qlt; exact Hbu).
    assert (0 < inject_Z b) as H3 by (rewrite <- (Zlt_Qlt 0); exact Hb0).
    pose proof (pow2_pos (l - 1)) as H4.
    apply (Qmult_le_r _ _ (inject_Z b) H3).
    rewrite Hxab.
    apply Qle_trans with (2 := H1). rewrite <- Hp.
    apply Qmult_le_l; [exact H4|]. apply Qlt_le_weak. exact H2.
Qed.

Lemma half_ulp_le x :
  0 < x -> pow2 (ulp_exp x) * (1 # 2) <= x * u53 + eta.
Proof.
  intros Hx. unfold ulp_exp.
  pose proof (Qlog2_le x Hx) as Hl.
  pose proof (pow2_pos (Qlog2 x)) as Hp.
  assert (0 < eta) as He by apply pow2_pos.
  assert (0 < u53) as Hu by apply pow2_pos.
  destruct (Z.max_spec (Qlog2 x - 52) (-1074)) as [[_ ->]|[_ ->]].
  - assert (pow2 (-1074) * (1 # 2) == eta) as -> by reflexivity.
    assert (0 <= x * u53) by (apply Qmult_le_0_compat; lra). lra.
  - replace (Qlog2 x - 52)%Z with (Qlog2 x + (-52))%Z by lia.
    rewrite pow2_add.
    assert (pow2 (Qlog2 x) * pow2 (-52) * (1 # 2) == pow2 (Qlog2 x) * u53) as ->.
    { unfold u53. assert (pow2 (-53) == pow2 (-52) * (1 # 2)) as -> by reflexivity.
      ring. }
    assert (pow2 (Qlog2 x) * u53 <= x * u53)
      by (apply Qmult_le_compat_r; lra).
    lra.
Qed.

Lemma round_pos_near x :
  0 < x ->
  - (x * u53 + eta) <= round_pos x - x <= x * u53 + eta.
Proof.
  intros Hx. unfold round_pos.
  pose proof (half_ulp_le x Hx) as Hh.
  set (e := ulp_exp x) in *.
  pose proof (pow2_pos e) as Hp.
  pose proof (round_half_even_near (x / pow2 e)) as Hm.
  set (m := inject_Z (round_half_even (x / pow2 e))) in *.
  rewrite Qred_correct.
  assert (x == (x / pow2 e) * pow2 e) as Hxe by (field; lra).
  set (s := x / pow2 e) in *.
  assert (m * pow2 e - x == (m - s) * pow2 e) as -> by (rewrite Hxe at 1; ring).
  destruct Hm as [Hm1 Hm2].
  assert ((m - s) * pow2 e <= (1 # 2) * pow2 e)
    by (apply Qmult_le_compat_r; lra).
  assert (- (1 # 2) * pow2 e <= (m - s) * pow2 e)
    by (apply Qmult_le_compat_r; lra).
  lra.
Qed.

Lemma round_pos_nonneg x : 0 < x -> 0 <= round_pos x.
Proof.
  intros Hx. unfold round_pos. rewrite Qred_correct.
  pose proof (pow2_pos (ulp_exp x)) as Hp.
  apply Qmult_le_0_compat; [|lra].
  rewrite <- (Zle_Qle 0). apply round_half_even_nonneg.
  apply Qle_shift_div_l; lra.
Qed.

(** An integer of at most 53 bits is a binary64 value. *)
Lemma round_pos_Z z :
  (0 < z < 2 ^ 53)%Z -> round_pos (inject_Z z) = inject_Z z.
Proof.
  intros Hz. unfold round_pos, ulp_exp.
  assert (Qlog2 (inject_Z z) = Z.log2 z) as ->.
  { unfold Qlog2. simpl. rewrite Z.sub_0_r.
    assert (Qle_bool (pow2 (Z.log2 z)) (inject_Z z) = true) as ->; [|reflexivity].
    apply Qle_bool_iff. rewrite pow2_inject by apply Z.log2_nonneg.
    rewrite <- Zle_Qle. apply Z.log2_spec. lia. }
  assert (Z.log2 z < 53)%Z as Hl by (apply Z.log2_lt_pow2; lia).
  pose proof (Z.log2_nonneg z) as Hl0.
  set (e := Z.max (Z.log2 z - 52) (-1074)).
  assert (e <= 0)%Z as He by lia.
  pose proof (pow2_pos e) as Hp.
  assert (inject_Z z / pow2 e == inject_Z (z * 2 ^ (- e))) as Hs.
  { rewrite inject_Z_mult, <- pow2_inject by lia.
    unfold pow2. rewrite Qpower_opp. field. fold (pow2 e). lra. }
  rewrite (round_half_even_Z _ _ Hs).
  transitivity (Qred (inject_Z z)); [|apply inject_Z_Qred].
  apply Qred_complete.
  rewrite inject_Z_mult, <- pow2_inject by lia.
  rewrite <- Qmult_assoc, <- pow2_add.
  replace (- e + e)%Z with 0%Z by lia.
  assert (pow2 0 == 1) as -> by reflexivity. ring.
Qed.

Lemma rnd_Z x z :
  x == inject_Z z -> (Z.abs z < 2 ^ 53)%Z -> rnd x = Fin (inject_Z z).
Proof.
  intros Hx Hz. unfold rnd.
  assert (Qred x = inject_Z z) as Hr.
  { transitivity (Qred (inject_Z z)); [|apply inject_Z_Qred].
    apply Qred_complete. exact Hx. }
  assert (pow2 1024 == inject_Z (2 ^ 1024)) as H1024 by (apply pow2_inject; lia).
  destruct (Qnum x) as [|p|p] eqn:Hn.
  - assert (x == 0) as H0 by (destruct x; unfold Qeq; simpl in *; lia).
    assert (z = 0%Z) as ->; [|reflexivity].
    apply inject_Z_injective. rewrite <- Hx, H0. reflexivity.
  - assert (0 < x) as Hpos by (destruct x; unfold Qlt; simpl in *; lia).
    rewrite Hx in Hpos. rewrite <- (Zlt_Qlt 0) in Hpos.
    rewrite Hr, round_pos_Z by lia.
    assert (Qle_bool (pow2 1024) (inject_Z z) = false) as ->; [|reflexivity].
    apply not_true_iff_false. rewrite Qle_bool_iff, H1024, <- Zle_Qle.
    assert (2 ^ 53 < 2 ^ 1024)%Z by (apply Z.pow_lt_mono_r; lia). lia.
  - assert (x < 0) as Hneg by (destruct x; unfold Qlt; simpl in *; lia).
    rewrite Hx in Hneg. rewrite <- (Zlt_Qlt _ 0) in Hneg.
    assert (Qred (- x) = inject_Z (- z)) as Hr'.
    { rewrite Qred_opp, Hr. reflexivity. }
    rewrite Hr', round_pos_Z by lia.
    assert (Qle_bool (pow2 1024) (inject_Z (- z)) = false) as ->.
    { apply not_true_iff_false. rewrite Qle_bool_iff, H1024, <- Zle_Qle.
      assert (2 ^ 53 < 2 ^ 1024)%Z by (apply Z.pow_lt_mono_r; lia). lia. }
    f_equal. rewrite Qred_opp, inject_Z_Qred.
    unfold Qopp, inject_Z. simpl. f_equal. lia.
Qed.

(** The standard model of rounding, for a non-negative rational below
    the overflow threshold. *)
Lemma rnd_near x :
  0 <= x -> x < pow2 1023 ->
  exists y, rnd x = Fin y /\ 0 <= y /\
            - (x * u53 + eta) <= y - x <= x * u53 + eta.
Proof.
  intros Hx Hlt. unfold rnd.
  assert (0 < eta) as He by apply pow2_pos.
  assert (0 < u53) as Hu by apply pow2_pos.
  destruct (Qnum x) as [|p|p] eqn:Hn.
  - assert (x == 0) as H0 by (destruct x; unfold Qeq; simpl in *; lia).
    exists 0. split; [reflexivity|]. rewrite H0. split; lra.
  - assert (0 < x) as Hpos by (destruct x; unfold Qlt; simpl in *; lia).
    assert (0 < Qred x) as Hpos' by (rewrite Qred_correct; exact Hpos).
    pose proof (round_pos_near _ Hpos') as Hy.
    pose proof (round_pos_nonneg _ Hpos') as Hy0.
    pose proof (Qred_correct x) as Hrx.
    set (y := round_pos (Qred x)) in *.
    set (rx := Qred x) in *.
    assert (rx * u53 == x * u53) as Hru by (rewrite Hrx; reflexivity).
    assert (Qle_bool (pow2 1024) y = false) as ->.
    { apply not_true_iff_false. rewrite Qle_bool_iff.
      assert (pow2 1024 == 2 * pow2 1023) as -> by reflexivity.
      assert (u53 <= 1 # 2) by (apply Qle_bool_iff; reflexivity).
      assert (eta <= pow2 1023 * (1 # 2)) by (apply Qle_bool_iff; reflexivity).
      assert (x * u53 <= x * (1 # 2)) by (apply Qmult_le_l; lra).
      lra. }
    exists y. split; [reflexivity|]. split; [exact Hy0|lra].
  - exfalso. destruct x; unfold Qle in Hx; simpl in *; lia.
Qed.

End JSFacts.

(* ===================================================================== *)
(** * Facts about the column conversions                                  *)
(* ===================================================================== *)

Module PGFacts.
Import JS JSFacts PG.

Local Open Scope Q_scope.

Lemma Qnum_pos x : (0 < Qnum x)%Z -> 0 < x.
Proof. destruct x. unfold Qlt. simpl. lia. Qed.

Lemma Qnum_neg x : (Qnum x < 0)%Z -> x < 0.
Proof. destruct x. unfold Qlt. simpl. lia. Qed.

Lemma Qnum_zero x : Qnum x = 0%Z -> x == 0.
Proof. destruct x. unfold Qeq. simpl. lia. Qed.

(** A finite result of rounding is within half a unit in the last place
    of its argument. *)
Lemma rnd_Fin_near c y :
  rnd c = Fin y ->
  - (Qabs c * u53 + eta) <= y - c <= Qabs c * u53 + eta.
Proof.
  unfold rnd. intros H.
  assert (0 < eta) as He by apply pow2_pos.
  assert (0 < u53) as Hu by apply pow2_pos.
  destruct (Qnum c) as [|p|p] eqn:Hn.
  - apply Qnum_zero in Hn. injection H as <-.
    assert (Qabs c == 0) as -> by (rewrite Hn; reflexivity). lra.
  - assert (0 < c) as Hc by (apply Qnum_pos; lia).
    destruct (Qle_bool _ _); [discriminate|]. injection H as <-.
    assert (0 < Qred c) as Hc' by (rewrite Qred_correct; exact Hc).
    pose proof (round_pos_near _ Hc') as Hy.
    pose proof (Qred_correct c) as Hr.
    rewrite (Qabs_pos c) by lra.
    set (rc := Qred c) in *.
    assert (rc * u53 == c * u53) by (rewrite Hr; reflexivity).
    lra.
  - assert (c < 0) as Hc by (apply Qnum_neg; lia).
    destruct (Qle_bool _ _); [discriminate|]. injection H as <-.
    assert (0 < Qred (- c)) as Hc' by (rewrite Qred_correct; lra).
    pose proof (round_pos_near _ Hc') as Hy.
    pose proof (Qred_correct (- c)) as Hr.
    rewrite (Qabs_neg c) by lra.
    rewrite Qred_correct.
    set (rc := Qred (- c)) in *.
    assert (rc * u53 == - c * u53) by (rewrite Hr; reflexivity).
    lra.
Qed.

(** Below the overflow threshold the result of rounding is finite. *)
Lemma rnd_finite x : Qabs x < pow2 1023 -> exists y, rnd x = Fin y.
Proof.
  intros Hx. unfold rnd.
  assert (0 < eta) as He by apply pow2_pos.
  assert (0 < u53) as Hu by apply pow2_pos.
  assert (pow2 1024 == 2 * pow2 1023) as H1024 by reflexivity.
  assert (u53 <= 1 # 2) as Hu2 by (apply Qle_bool_iff; reflexivity).
  assert (eta <= pow2 1023 * (1 # 2)) as He2 by (apply Qle_bool_iff; reflexivity).
  assert (forall z, 0 < z -> z < pow2 1023 ->
                    Qle_bool (pow2 1024) (round_pos (Qred z)) = false) as Hno.
  { intros z Hz Hlt.
    assert (0 < Qred z) as Hz' by (rewrite Qred_correct; exact Hz).
    pose proof (round_pos_near _ Hz') as Hy.
    pose proof (Qred_correct z) as Hr.
    apply not_true_iff_false. rewrite Qle_bool_iff, H1024.
    set (rz := Qred z) in *.
    assert (rz * u53 <= rz * (1 # 2)) by (apply Qmult_le_l; lra).
    lra. }
  destruct (Qnum x) as [|p|p] eqn:Hn.
  - eexists. reflexivity.
  - assert (0 < x) as Hc by (apply Qnum_pos; lia).
    rewrite Qabs_pos in Hx by lra.
    rewrite (Hno x Hc Hx). eexists. reflexivity.
  - assert (x < 0) as Hc by (apply Qnum_neg; lia).
    rewrite Qabs_neg in Hx by lra.
    rewrite (Hno (- x)) by lra. eexists. reflexivity.
Qed.

Lemma reads_back_near x c :
  reads_back x c = true ->
  - (Qabs c * u53 + eta) <= x - c <= Qabs c * u53 + eta.
Proof.
  unfold reads_back. destruct (rnd c) as [| |y] eqn:Hr; try discriminate.
  intros Hq. apply Qeq_bool_eq in Hq.
  pose proof (rnd_Fin_near _ _ Hr). lra.
Qed.

Lemma candidate_near n x k c :
  candidate n x k = Some c ->
  - (Qabs c * u53 + eta) <= x - c <= Qabs c * u53 + eta.
Proof.
  unfold candidate.
  set (clo := Qred _). set (chi := Qred _).
  destruct (reads_back x clo) eqn:Hlo, (reads_back x chi) eqn:Hhi;
    try discriminate.
  - destruct (Qcompare _ _); [destruct (Z.even _)| |];
      intros [= <-]; apply reads_back_near; assumption.
  - intros [= <-]. apply reads_back_near; assumption.
  - intros [= <-]. apply reads_back_near; assumption.
Qed.

Lemma shortest_from_near fuel n k x :
  let d := shortest_from fuel n k x in
  - (Qabs d * u53 + eta) <= x - d <= Qabs d * u53 + eta.
Proof.
  revert k. induction fuel as [|fuel IH]; intros k; simpl.
  - assert (0 < eta) by apply pow2_pos.
    assert (0 < u53) by apply pow2_pos.
    pose proof (Qabs_nonneg x).
    assert (0 <= Qabs x * u53) by (apply Qmult_le_0_compat; lra). lra.
  - destruct (candidate n x k) as [c|] eqn:Hc.
    + apply (candidate_near _ _ _ _ Hc).
    + apply IH.
Qed.

(** The decimal rendering of a number reads back as that number, so it
    lies within half a unit in the last place of it. *)
Lemma to_decimal_near t :
  let d := to_decimal t in
  - (Qabs d * u53 + eta) <= t - d <= Qabs d * u53 + eta.
Proof.
  unfold to_decimal, shortest.
  assert (0 < eta) by apply pow2_pos.
  assert (0 < u53) by apply pow2_pos.
  destruct (Qnum t) as [|p|p] eqn:Hn; cbv zeta.
  - apply Qnum_zero in Hn.
    assert (Qabs 0 == 0) as -> by reflexivity. lra.
  - pose proof (shortest_from_near 17 (dec_exp (Qred t)) 1 (Qred t)) as Hs.
    cbv zeta in Hs. pose proof (Qred_correct t). lra.
  - pose proof (shortest_from_near 17 (dec_exp (Qred (- t))) 1 (Qred (- t))) as Hs.
    cbv zeta in Hs. pose proof (Qred_correct (- t)) as Hr.
    set (s := shortest_from _ _ _ _) in *.
    rewrite Qred_correct, Qabs_opp. lra.
Qed.

Lemma round_half_away_near x z :
  - (1 # 2) < x - inject_Z z < 1 # 2 -> round_half_away x = z.
Proof.
  intros [Hlo Hhi]. unfold round_half_away.
  destruct (Qle_bool 0 x).
  - pose proof (Qfloor_le (x + (1 # 2))) as H1.
    pose proof (Qlt_floor (x + (1 # 2))) as H2.
    rewrite inject_Z_succ in H2.
    set (f := Qfloor _) in *.
    assert (inject_Z f < inject_Z (z + 1)) as H3 by (rewrite inject_Z_succ; lra).
    assert (inject_Z z < inject_Z (f + 1)) as H4 by (rewrite inject_Z_succ; lra).
    rewrite <- Zlt_Qlt in H3, H4. lia.
  - pose proof (Qfloor_le (- x + (1 # 2))) as H1.
    pose proof (Qlt_floor (- x + (1 # 2))) as H2.
    rewrite inject_Z_succ in H2.
    set (f := Qfloor _) in *.
    assert (inject_Z f < inject_Z (- z + 1)) as H3
      by (rewrite inject_Z_succ, inject_Z_opp; lra).
    assert (inject_Z (- z) < inject_Z (f + 1)) as H4
      by (rewrite inject_Z_succ, inject_Z_opp; lra).
    rewrite <- Zlt_Qlt in H3, H4. lia.
Qed.

Lemma u53_value : u53 == 1 # 9007199254740992.
Proof. reflexivity. Qed.

Lemma eta_small : eta <= 1 # 10000000000000000000000000000000000000000.
Proof. apply Qle_bool_iff. vm_compute. reflexivity. Qed.

Lemma round_half_away_large x n :
  (inject_Z n - (1 # 2) <= x \/ x <= - inject_Z n + (1 # 2)) -> (0 < n)%Z ->
  (n <= Z.abs (round_half_away x))%Z.
Proof.
  intros Hx Hn. unfold round_half_away.
  assert (1 <= inject_Z n) as Hn'
    by (change 1 with (inject_Z 1); rewrite <- Zle_Qle; lia).
  destruct (Qle_bool 0 x) eqn:Hs.
  - apply Qle_bool_iff in Hs. destruct Hx as [Hx|Hx]; [|lra].
    assert (n <= Qfloor (x + (1 # 2)))%Z.
    { rewrite <- (Qfloor_Z n). apply Qfloor_resp_le. lra. }
    lia.
  - apply not_true_iff_false in Hs. rewrite Qle_bool_iff in Hs.
    destruct Hx as [Hx|Hx]; [lra|].
    assert (n <= Qfloor (- x + (1 # 2)))%Z.
    { rewrite <- (Qfloor_Z n). apply Qfloor_resp_le. lra. }
    lia.
Qed.

Lemma product_below_overflow : 10 ^ 10 * 2 ^ 31 * 2 < pow2 1023.
Proof. apply Qlt_alt. vm_compute. reflexivity. Qed.

(** The total of an order, computed in binary64 from the text of the
    price and sent to a [NUMERIC(12,2)] column: the exact product is
    stored when it is below [10^10], and the value is refused
    otherwise. *)
Lemma total_stored (price q : Z) :
  (0 < q < 2 ^ 31)%Z -> (Z.abs price < 10 ^ 12)%Z ->
  to_numeric_12_2 (mul (Number_of_numeric price) (of_Z q)) =
  if (Z.abs (price * q) <? 10 ^ 12)%Z then inr (price * q)%Z
  else inl numeric_value_out_of_range.
Proof.
  intros Hq Hprice.
  pose proof u53_value as Hu. pose proof eta_small as He.
  assert (0 < eta) as He0 by apply pow2_pos.
  pose proof product_below_overflow as Hbig.
  set (P := price # 100).
  set (Qq := inject_Z q).
  set (A := P * Qq).
  assert (A * 100 == inject_Z (price * q)) as HA.
  { subst A P Qq. unfold Qeq, Qmult, inject_Z. simpl. lia. }
  assert (P * 100 == inject_Z price) as HP.
  { subst P. unfold Qeq, Qmult, inject_Z. simpl. lia. }
  assert (- (10 ^ 12) < P * 100 < 10 ^ 12) as HPb.
  { rewrite HP. change (10 ^ 12) with (inject_Z (10 ^ 12)).
    rewrite <- inject_Z_opp, <- !Zlt_Qlt. lia. }
  assert (1 <= Qq <= 2 ^ 31) as HQq.
  { subst Qq. change 1 with (inject_Z 1). change (2 ^ 31) with (inject_Z (2 ^ 31)).
    rewrite <- !Zle_Qle. lia. }
  assert (exists sP, (sP == P \/ sP == - P) /\ 0 <= sP /\ Qabs P == sP)
    as (sP & HsP & HsP0 & HaP).
  { destruct (Qlt_le_dec P 0).
    - exists (- P). split; [right; reflexivity|]. split; [lra|]. apply Qabs_neg. lra.
    - exists P. split; [left; reflexivity|]. split; [lra|]. apply Qabs_pos. lra. }
  assert (sP < 10 ^ 10) as HsPb by (destruct HsP as [-> | ->]; lra).
  assert (sP * Qq <= 10 ^ 10 * 2 ^ 31) as HsA.
  { apply Qmult_le_compat_nonneg; split; lra. }
  assert (sP * Qq == A \/ sP * Qq == - A) as HsAA.
  { destruct HsP as [-> | ->]; [left; reflexivity|right; subst A; ring]. }
  destruct (rnd_finite P) as [p Hp].
  { rewrite HaP. lra. }
  pose proof (rnd_Fin_near _ _ Hp) as Hpn. rewrite HaP, Hu in Hpn.
  unfold Number_of_numeric. fold P. rewrite Hp.
  unfold of_Z, mul. fold Qq.
  set (U := 1 # 9007199254740992) in *.
  set (X := p * Qq).
  assert (X - A == (p - P) * Qq) as HXA by (subst X A; ring).
  assert ((p - P) * Qq <= (sP * U + eta) * Qq) as H1
    by (apply Qmult_le_compat_r; lra).
  assert (- (sP * U + eta) * Qq <= (p - P) * Qq) as H2
    by (apply Qmult_le_compat_r; lra).
  assert ((sP * U + eta) * Qq == sP * Qq * U + eta * Qq) as Hexp by ring.
  assert (- (sP * U + eta) * Qq == - (sP * Qq * U + eta * Qq)) as Hexp' by ring.
  assert (eta * Qq <= eta * 2 ^ 31) as HeK by (apply Qmult_le_l; lra).
  rewrite Hexp in H1. rewrite Hexp' in H2. rewrite <- HXA in H1, H2.
  clear Hexp Hexp' HXA Hpn Hp.
  assert (0 <= sP * Qq) as HsA0 by (apply Qmult_le_0_compat; lra).
  set (sA := sP * Qq) in *. clearbody sA.
  set (v := eta * Qq) in *. clearbody v.
  clearbody X A.
  subst U.
  assert (- (10 ^ 10 * 2 ^ 31 * 2) < X < 10 ^ 10 * 2 ^ 31 * 2) as HXb
    by (destruct HsAA; lra).
  destruct (rnd_finite X) as [t Ht].
  { apply Qabs_Qlt_condition. lra. }
  pose proof (rnd_Fin_near _ _ Ht) as Htn. rewrite Hu in Htn.
  assert (Qabs X <= sA + sA * (1 # 9007199254740992) + v) as HaX
    by (apply Qabs_Qle_condition; destruct HsAA; lra).
  pose proof (Qabs_nonneg X) as HaX0.
  rewrite Ht. unfold to_numeric_12_2.
  pose proof (to_decimal_near t) as Hdn. cbv zeta in Hdn. rewrite Hu in Hdn.
  set (d := to_decimal t) in *.
  set (aX := Qabs X) in *. clearbody aX d. clear Ht.
  destruct (Z.abs (price * q) <? 10 ^ 12)%Z eqn:Hfit.
  - apply Z.ltb_lt in Hfit.
    assert (- (10 ^ 12) < A * 100 < 10 ^ 12) as HAb.
    { rewrite HA. change (10 ^ 12) with (inject_Z (10 ^ 12)).
      rewrite <- inject_Z_opp, <- !Zlt_Qlt. lia. }
    assert (round_half_away (d * 100) = (price * q)%Z) as ->.
    { apply round_half_away_near. rewrite <- HA.
      destruct (Qlt_le_dec d 0).
      - rewrite Qabs_neg in Hdn by lra. destruct HsAA; lra.
      - rewrite Qabs_pos in Hdn by lra. destruct HsAA; lra. }
    assert ((Z.abs (price * q) <? 10 ^ 12)%Z = true) as ->
      by (apply Z.ltb_lt; exact Hfit).
    reflexivity.
  - apply Z.ltb_ge in Hfit.
    assert (10 ^ 12 <= A * 100 \/ A * 100 <= - (10 ^ 12)) as HAb.
    { rewrite HA. change (10 ^ 12) with (inject_Z (10 ^ 12)).
      rewrite <- inject_Z_opp, <- !Zle_Qle. lia. }
    assert (10 ^ 12 <= Z.abs (round_half_away (d * 100)))%Z as Hc.
    { apply round_half_away_large; [|lia].
      change (inject_Z (10 ^ 12)) with (10 ^ 12).
      destruct HAb as [HAb|HAb]; [left|right];
        (destruct (Qlt_le_dec d 0);
         [rewrite Qabs_neg in Hdn by lra|rewrite Qabs_pos in Hdn by lra]);
        destruct HsAA; lra. }
    assert ((Z.abs (round_half_away (d * 100)) <? 10 ^ 12)%Z = false) as ->
      by (apply Z.ltb_ge; exact Hc).
    reflexivity.
Qed.

Lemma total_exact (price q : Z) :
  (0 < q < 2 ^ 31)%Z -> (Z.abs (price * q) < 10 ^ 12)%Z ->
  to_numeric_12_2 (mul (Number_of_numeric price) (of_Z q)) = inr (price * q)%Z.
Proof.
  intros Hq Hfit. rewrite total_stored; [|exact Hq|nia].
  assert ((Z.abs (price * q) <? 10 ^ 12)%Z = true) as ->
    by (apply Z.ltb_lt; exact Hfit).
  reflexivity.
Qed.

End PGFacts.

(* ===================================================================== *)
(** * One purchase served alone                                           *)
(* ===================================================================== *)

Module PurchaseFacts.
Import JS JSField PG Handler Spec JSFacts PGFacts.

(** ** Conversions of integers *)

Lemma rnd_comp x y : (x == y)%Q -> rnd x = rnd y.
Proof.
  intros H. unfold rnd.
  assert (Qred x = Qred y) as Hr by (apply Qred_complete; exact H).
  assert (Qred (- x) = Qred (- y)) as Hr'
    by (apply Qred_complete; rewrite H; reflexivity).
  rewrite Hr, Hr'.
  destruct x as [a b], y as [c e]. unfold Qeq in H. simpl in *.
  destruct a, c; try reflexivity; exfalso; lia.
Qed.

Lemma int4_ok_bounds z : int4_ok z = true <-> - 2 ^ 31 <= z < 2 ^ 31.
Proof. unfold int4_ok. rewrite andb_true_iff, Z.leb_le, Z.ltb_lt. reflexivity. Qed.

Lemma to_int4_of_Z z : int4_ok z = true -> to_int4 (of_Z z) = inr z.
Proof.
  intros H. unfold to_int4, of_Z. rewrite inject_Z_Qred. simpl. rewrite H.
  reflexivity.
Qed.

(** A number accepted by an [INTEGER] column is that integer. *)
Lemma to_int4_inr x z :
  to_int4 x = inr z ->
  exists q, x = Fin q /\ (q == inject_Z z)%Q /\ int4_ok z = true.
Proof.
  unfold to_int4. destruct x as [| |q]; try discriminate.
  destruct (Pos.eqb (Qden (Qred q)) 1) eqn:Hd; simpl; [|discriminate].
  destruct (int4_ok (Qnum (Qred q))) eqn:Hok; [|discriminate].
  intros [= <-]. exists q. split; [reflexivity|]. split; [|exact Hok].
  apply Pos.eqb_eq in Hd. rewrite <- (Qred_correct q) at 1.
  destruct (Qred q) as [n m]. simpl in *. subst m. reflexivity.
Qed.

Lemma sub_int (a : Z) (q : Q) (b : Z) :
  (q == inject_Z b)%Q -> Z.abs (a - b) < 2 ^ 53 ->
  sub (of_Z a) (Fin q) = of_Z (a - b).
Proof.
  intros Hq Hb. unfold sub, of_Z. apply rnd_Z; [|exact Hb].
  rewrite Hq. unfold Z.sub. rewrite inject_Z_plus, inject_Z_opp. reflexivity.
Qed.

Lemma lt_int (a : Z) (q : Q) (b : Z) :
  (q == inject_Z b)%Q -> lt (of_Z a) (Fin q) = (a <? b).
Proof.
  intros Hq. unfold lt, of_Z.
  destruct (Qle_bool q (inject_Z a)) eqn:H; simpl; symmetry.
  - apply Qle_bool_iff in H. rewrite Hq, <- Zle_Qle in H. apply Z.ltb_ge. exact H.
  - apply Z.ltb_lt. apply not_true_iff_false in H.
    rewrite Qle_bool_iff, Hq, <- Zle_Qle in H. lia.
Qed.

Lemma le_zero_int (q : Q) (b : Z) :
  (q == inject_Z b)%Q -> le (Fin q) (of_Z 0) = (b <=? 0).
Proof.
  intros Hq. unfold le, of_Z.
  destruct (Qle_bool q (inject_Z 0)) eqn:H; symmetry.
  - apply Qle_bool_iff in H. rewrite Hq, <- Zle_Qle in H. apply Z.leb_le. exact H.
  - apply Z.leb_gt. apply not_true_iff_false in H.
    rewrite Qle_bool_iff, Hq, <- Zle_Qle in H. lia.
Qed.

Lemma mul_comp_r (p : num) (q : Q) (b : Z) :
  (q == inject_Z b)%Q -> b <> 0 -> mul p (Fin q) = mul p (of_Z b).
Proof.
  intros Hq Hb. unfold mul, of_Z. destruct p as [| |x]; try reflexivity.
  - assert (Qeq_bool q 0 = false) as ->.
    { apply not_true_iff_false. intros H. apply Qeq_bool_eq in H.
      rewrite Hq in H. apply (inject_Z_injective b 0) in H. lia. }
    assert (Qeq_bool (inject_Z b) 0 = false) as ->.
    { apply not_true_iff_false. intros H. apply Qeq_bool_eq in H.
      apply (inject_Z_injective b 0) in H. lia. }
    f_equal. f_equal. unfold Qneg. f_equal.
    apply eq_true_iff_eq. rewrite !Qle_bool_iff, Hq. reflexivity.
  - apply rnd_comp. rewrite Hq. reflexivity.
Qed.

(** ** The normalised e-mail in its column *)

Lemma all_blank_ends s : s <> EmptyString -> all_blank s = true ->
  ends_with is_blank s = true.
Proof.
  induction s as [|c s IH]; [congruence|]. intros _ H. simpl in H.
  apply andb_true_iff in H as [Hc Hs].
  destruct s as [|c' s']; [exact Hc|].
  change (ends_with is_blank (String c' s') = true). apply IH; [discriminate|exact Hs].
Qed.

Lemma substring_all s : substring 0 (String.length s) s = s.
Proof. induction s as [|c s IH]; simpl; [reflexivity|]. rewrite IH. reflexivity. Qed.

Lemma excess_blank_ends s n :
  (n < String.length s)%nat ->
  all_blank (substring n (String.length s - n) s) = true ->
  ends_with is_blank s = true.
Proof.
  revert n. induction s as [|c s IH]; intros n Hn H; simpl in Hn; [lia|].
  destruct n as [|n].
  - rewrite Nat.sub_0_r, substring_all in H.
    apply all_blank_ends; [discriminate|exact H].
  - simpl in H. destruct s as [|c' s']; [simpl in Hn; lia|].
    change (ends_with is_blank (String c' s') = true).
    apply (IH n); [simpl in *; lia|exact H].
Qed.

Lemma lower_char_blank c : is_blank (lower_char c) = true -> is_space c = true.
Proof.
  destruct c as [[] [] [] [] [] [] [] []]; vm_compute; congruence.
Qed.

Lemma toLowerCase_ends s :
  ends_with is_blank (toLowerCase s) = true -> ends_with is_space s = true.
Proof.
  induction s as [|c s IH]; simpl; [congruence|].
  destruct s as [|c' s']; simpl in *.
  - apply lower_char_blank.
  - exact IH.
Qed.

Lemma trim_end_ends s : ends_with is_space (trim_end s) = false.
Proof.
  induction s as [|c s IH]; simpl; [reflexivity|].
  destruct (trim_end s) as [|c' t] eqn:Ht.
  - destruct (is_space c) eqn:Hc; simpl; [reflexivity|exact Hc].
  - exact IH.
Qed.

(** A normalised e-mail accepted by [VARCHAR(n)] is stored as it is: it
    has no trailing space that the column could cut off. *)
Lemma to_varchar_norm_email n x em :
  to_varchar n (norm_email x) = inr em -> em = norm_email x.
Proof.
  unfold to_varchar. set (s := norm_email x).
  destruct (has_nul s); [discriminate|].
  destruct (String.length s <=? n)%nat eqn:Hl; [congruence|].
  destruct (all_blank _) eqn:Hb; [|discriminate].
  exfalso. apply Nat.leb_gt in Hl.
  apply excess_blank_ends in Hb; [|exact Hl].
  subst s. unfold norm_email in Hb. apply toLowerCase_ends in Hb.
  unfold trim in Hb. rewrite trim_end_ends in Hb. discriminate.
Qed.

(** ** The store along a transaction of a session served alone *)

Lemma release_own (id : Z) (sid : nat) :
  filter (fun kv : Z * nat => snd kv ≠ sid) ({[id := sid]} : gmap Z nat) = ∅.
Proof. apply map_filter_singleton_False. simpl. intros H. apply H. reflexivity. Qed.

Lemma release_none (sid : nat) :
  filter (fun kv : Z * nat => snd kv ≠ sid) (∅ : gmap Z nat) = ∅.
Proof. apply map_filter_empty. Qed.

Lemma exec_begin d sid now :
  exec Begin sid now (quiescent d) = Some (inr tt, begun d sid now).
Proof.
  unfold exec, quiescent, begun, set_txs. simpl.
  rewrite lookup_empty, insert_empty. reflexivity.
Qed.

Lemma exec_rollback_begun d sid now :
  exec Rollback sid now (begun d sid now) = Some (inr tt, quiescent d).
Proof.
  unfold exec, quiescent, begun, release_locks, set_txs, set_locks. simpl.
  rewrite delete_singleton_eq, release_none. reflexivity.
Qed.

Lemma exec_rollback_locked d sid now id :
  exec Rollback sid now (locked d sid now id) = Some (inr tt, quiescent d).
Proof.
  unfold exec, quiescent, locked, release_locks, set_txs, set_locks. simpl.
  rewrite delete_singleton_eq, release_own. reflexivity.
Qed.

Lemma exec_rollback_updated d sid now id p' :
  exec Rollback sid now (updated d sid now id p') = Some (inr tt, quiescent d).
Proof.
  unfold exec, quiescent, updated, release_locks, set_txs, set_locks. simpl.
  rewrite delete_singleton_eq, release_own. reflexivity.
Qed.

Lemma exec_select d sid now idp :
  exec (SelectProductForUpdate idp) sid now (begun d sid now) =
  match to_int4 idp with
  | inl e => Some (inl e, begun d sid now)
  | inr id =>
      match products d !! id with
      | None => Some (inr [], begun d sid now)
      | Some p => Some (inr [(id, p_price p, p_stock p)], locked d sid now id)
      end
  end.
Proof.
  unfold exec. destruct (to_int4 idp) as [e|id]; [reflexivity|].
  unfold visible_product, locked_by_other, take_lock, begun, set_locks. simpl.
  rewrite lookup_singleton_eq. simpl. rewrite !lookup_empty.
  destruct (products d !! id); [|reflexivity].
  rewrite insert_empty. reflexivity.
Qed.

Lemma exec_update d sid now id p stockp idp :
  to_int4 idp = inr id -> products d !! id = Some p ->
  exec (UpdateStock stockp idp) sid now (locked d sid now id) =
  match to_int4 stockp with
  | inl e => Some (inl e, locked d sid now id)
  | inr s => Some (inr tt, updated d sid now id (set_stock p s now))
  end.
Proof.
  intros Hid Hp. unfold exec. rewrite Hid.
  destruct (to_int4 stockp) as [e|s]; [reflexivity|].
  unfold visible_product, locked_by_other, take_lock, write_product,
    current_timestamp, locked, updated, set_locks, set_txs. simpl.
  rewrite !lookup_singleton_eq. simpl. rewrite lookup_empty, Hp.
  rewrite Nat.eqb_refl. simpl. rewrite lookup_singleton_eq.
  rewrite !insert_singleton_eq. simpl. rewrite insert_empty. reflexivity.
Qed.

Lemma exec_insert d sid now id p' pidp email qtyp totalp em q total :
  to_int4 pidp = inr id -> to_varchar 255 email = inr em ->
  to_int4 qtyp = inr q -> to_numeric_12_2 totalp = inr total ->
  int4_ok (orders_seq d + 1) = true -> 0 < q ->
  let o := {| o_id := orders_seq d + 1; o_product_id := id;
              o_buyer_email := em; o_quantity := q; o_total_price := total;
              o_created_at := now |} in
  exec (InsertOrder pidp email qtyp totalp) sid now (updated d sid now id p') =
  Some (inr o, inserted d sid now id p' o).
Proof.
  intros Hid Hem Hq Htot Hseq Hpos o. unfold exec.
  rewrite Hid, Hem, Hq, Htot.
  unfold visible_product, locked_by_other, write_order, current_timestamp,
    updated, inserted, set_committed, set_txs. simpl.
  rewrite !lookup_singleton_eq. simpl. rewrite Nat.eqb_refl, Hseq. simpl.
  assert ((0 <? q) = true) as -> by (apply Z.ltb_lt; exact Hpos). simpl.
  repeat (rewrite lookup_singleton_eq; simpl).
  rewrite insert_singleton_eq. reflexivity.
Qed.

Lemma exec_insert_refused d sid now id p' pidp email qtyp totalp :
  to_int4 pidp = inr id ->
  (exists e, to_varchar 255 email = inl e) \/
  (exists e, to_int4 qtyp = inl e) \/
  (exists e, to_numeric_12_2 totalp = inl e) \/
  int4_ok (orders_seq d + 1) = false ->
  exists e,
  exec (InsertOrder pidp email qtyp totalp) sid now (updated d sid now id p') =
  Some (inl e, updated d sid now id p').
Proof.
  intros Hid H. unfold exec. rewrite Hid.
  destruct (to_varchar 255 email) as [e1|em]; [eexists; reflexivity|].
  destruct (to_int4 qtyp) as [e2|q]; [eexists; reflexivity|].
  destruct (to_numeric_12_2 totalp) as [e3|tot]; [eexists; reflexivity|].
  destruct H as [[e H]|[[e H]|[[e H]|H]]]; try discriminate.
  unfold locked_by_other, updated. simpl. rewrite lookup_singleton_eq.
  rewrite Nat.eqb_refl. simpl. rewrite H. simpl. eexists. reflexivity.
Qed.

Lemma exec_commit d sid now id p' o :
  exec Commit sid now (inserted d sid now id p' o) =
  Some (inr tt,
        quiescent {| users := users d; products := <[id := p']> (products d);
                     orders := orders d ++ [o];
                     products_seq := products_seq d;
                     orders_seq := orders_seq d + 1 |}).
Proof.
  unfold exec, inserted, quiescent, release_locks, set_txs, set_locks,
    set_committed, set_orders, set_products, set_orders_seq. simpl.
  rewrite lookup_singleton_eq. simpl.
  rewrite delete_singleton_eq, release_own, <- insert_union_singleton_l.
  reflexivity.
Qed.

(** ** Every run of the handler *)

Lemma run_step {A R : Type} (o : op R) (k : pgerror + R -> prog A)
    sid now st r st' a st'' t :
  exec o sid now st = Some (r, st') ->
  run (k r) sid now st' = Some (a, st'', t) ->
  run (Do o k) sid now st = Some (a, st'', ev o :: t).
Proof. intros He Hr. simpl. rewrite He, Hr. reflexivity. Qed.

Lemma run_Do {A R : Type} (o : op R) (k : pgerror + R -> prog A) sid now st :
  run (Do o k) sid now st =
  match exec o sid now st with
  | None => None
  | Some (r, st') =>
      match run (k r) sid now st' with
      | None => None
      | Some (a, st'', t) => Some (a, st'', ev o :: t)
      end
  end.
Proof. reflexivity. Qed.

Lemma run_finish r sid now st :
  run (finish r) sid now st = Some (r, st, [ev Release]).
Proof. reflexivity. Qed.

Lemma run_catch_begun e d sid now :
  run (purchase_catch e) sid now (begun d sid now) =
  Some (mkResponse 500 (ErrorBody "Purchase failed" (Some e)), quiescent d,
        [ev Rollback; ev Release]).
Proof.
  unfold purchase_catch. eapply run_step; [apply exec_rollback_begun|].
  apply run_finish.
Qed.

Lemma run_catch_locked e d sid now id :
  run (purchase_catch e) sid now (locked d sid now id) =
  Some (mkResponse 500 (ErrorBody "Purchase failed" (Some e)), quiescent d,
        [ev Rollback; ev Release]).
Proof.
  unfold purchase_catch. eapply run_step; [apply exec_rollback_locked|].
  apply run_finish.
Qed.

Lemma run_catch_updated e d sid now id p' :
  run (purchase_catch e) sid now (updated d sid now id p') =
  Some (mkResponse 500 (ErrorBody "Purchase failed" (Some e)), quiescent d,
        [ev Rollback; ev Release]).
Proof.
  unfold purchase_catch. eapply run_step; [apply exec_rollback_updated|].
  apply run_finish.
Qed.

(** The quantity of a request that has passed validation and the stock
    test and whose [INSERT] accepts it. *)
Lemma accepted_quantity qty stock q :
  falsy qty || le qty (of_Z 0) = false ->
  lt (of_Z stock) qty = false ->
  to_int4 qty = inr q ->
  exists x, qty = Fin x /\ (x == inject_Z q)%Q /\ 0 < q <= stock /\
            int4_ok q = true.
Proof.
  intros Hv Hs Hq. apply to_int4_inr in Hq as (x & -> & Hx & Hok).
  exists x. split; [reflexivity|]. split; [exact Hx|]. split; [|exact Hok].
  apply orb_false_iff in Hv as [_ Hle].
  rewrite (le_zero_int _ _ Hx) in Hle. rewrite (lt_int _ _ _ Hx) in Hs.
  apply Z.leb_gt in Hle. apply Z.ltb_ge in Hs. lia.
Qed.

(** A purchase served alone always ends, in one of the five ways of
    [purchase_outcome]. *)
Lemma purchase_run d req sid now :
  conforms d ->
  exists r st t,
    run (purchase req) sid now (quiescent d) = Some (r, st, t) /\
    purchase_outcome d req now r st t.
Proof.
  intros Hd. unfold purchase.
  fold (qty_of req). fold (email_of req).
  set (qty := qty_of req). set (email := email_of req).
  destruct (productId req) as [| |pidv] eqn:Hpid.
  { do 3 eexists. split.
    - eapply run_step; [reflexivity|]. apply run_finish.
    - apply ends_invalid. rewrite Hpid. reflexivity. }
  { do 3 eexists. split.
    - eapply run_step; [reflexivity|]. apply run_finish.
    - apply ends_invalid. rewrite Hpid. reflexivity. }
  destruct (falsy pidv || empty email || falsy qty || le qty (of_Z 0)) eqn:Hv.
  { do 3 eexists. split.
    - eapply run_step; [reflexivity|]. apply run_finish.
    - apply ends_invalid. rewrite Hpid. exact Hv. }
  unfold purchase_begin, purchase_select.
  pose proof (exec_select d sid now pidv) as Hsel.
  destruct (to_int4 pidv) as [e|pid] eqn:Hid.
  { do 3 eexists. split.
    - eapply run_step; [reflexivity|].
      eapply run_step; [apply exec_begin|]. cbv beta iota delta [try].
      eapply run_step; [exact Hsel|]. cbv beta iota delta [try].
      apply run_catch_begun.
    - eapply ends_error; [exact Hpid|]. left. exact Hid. }
  destruct (products d !! pid) as [p|] eqn:Hp.
  2:{ do 3 eexists. split.
      - eapply run_step; [reflexivity|].
        eapply run_step; [apply exec_begin|]. cbv beta iota delta [try].
        eapply run_step; [exact Hsel|]. cbv beta iota delta [try purchase_check not_found].
        eapply run_step; [apply exec_rollback_begun|]. apply run_finish.
      - eapply ends_not_found; eassumption. }
  destruct (lt (of_Z (p_stock p)) qty) eqn:Hlt.
  { do 3 eexists. split.
    - eapply run_step; [reflexivity|].
      eapply run_step; [apply exec_begin|]. cbv beta iota delta [try].
      eapply run_step; [exact Hsel|]. cbv beta iota delta [try purchase_check].
      rewrite Hlt. unfold insufficient.
      eapply run_step; [apply exec_rollback_locked|]. apply run_finish.
    - eapply ends_insufficient; eassumption. }
  assert (falsy qty || le qty (of_Z 0) = false) as Hv'.
  { apply orb_false_iff in Hv as [Hv Hle]. apply orb_false_iff in Hv as [Hv Hf].
    rewrite Hf, Hle. reflexivity. }
  destruct (Hd pid p Hp) as (Hpidb & Hstock & Hprice).
  pose proof (exec_update d sid now pid p (sub (of_Z (p_stock p)) qty) pidv Hid Hp)
    as Hupd.
  destruct (to_int4 (sub (of_Z (p_stock p)) qty)) as [e|s] eqn:Hs.
  { do 3 eexists. split.
    - eapply run_step; [reflexivity|].
      eapply run_step; [apply exec_begin|]. cbv beta iota delta [try].
      eapply run_step; [exact Hsel|]. cbv beta iota delta [try purchase_check].
      rewrite Hlt. unfold purchase_update.
      eapply run_step; [exact Hupd|]. cbv beta iota delta [try].
      apply run_catch_locked.
    - eapply ends_error; [exact Hpid|]. right. exists pid, p.
      repeat split; try assumption.
      intros q Hq _.
      destruct (accepted_quantity _ _ _ Hv' Hlt Hq) as (x & Hx & Hxq & Hqb & Hqok).
      apply int4_ok_bounds in Hstock, Hqok.
      rewrite Hx, (sub_int _ _ _ Hxq) in Hs by lia.
      rewrite to_int4_of_Z in Hs by (apply int4_ok_bounds; lia). discriminate. }
  set (total := mul (Number_of_numeric (p_price p)) qty).
  set (p' := set_stock p s now) in *.
  assert (forall e,
    (forall q, to_int4 qty = inr q -> ~ order_fits d email (p_price p) q) ->
    exec (InsertOrder pidv email qty total) sid now (updated d sid now pid p') =
      Some (inl e, updated d sid now pid p') ->
    exists r st t,
      run (Do Connect (fun _ => purchase_begin pidv email qty)) sid now (quiescent d)
        = Some (r, st, t) /\ purchase_outcome d req now r st t) as Hfail.
  { intros e Hno He. do 3 eexists. split.
    - eapply run_step; [reflexivity|].
      eapply run_step; [apply exec_begin|]. cbv beta iota delta [try].
      eapply run_step; [exact Hsel|]. cbv beta iota delta [try purchase_check].
      rewrite Hlt. unfold purchase_update.
      eapply run_step; [exact Hupd|]. cbv beta iota delta [try purchase_insert]. fold total.
      eapply run_step; [exact He|]. cbv beta iota delta [try].
      apply run_catch_updated.
    - eapply ends_error; [exact Hpid|]. right. exists pid, p.
      repeat split; assumption. }
  unfold purchase_begin, purchase_select in Hfail.
  destruct (to_varchar 255 email) as [e1|em] eqn:Hem.
  { destruct (exec_insert_refused d sid now pid p' pidv email qty total Hid)
      as [e He]; [left; eauto|]. apply (Hfail e); [|exact He].
    intros q _ (Hfit & _). congruence. }
  destruct (to_int4 qty) as [e2|q] eqn:Hq.
  { destruct (exec_insert_refused d sid now pid p' pidv email qty total Hid)
      as [e He]; [right; left; eauto|]. apply (Hfail e); [|exact He].
    intros q Hq' _. discriminate. }
  destruct (accepted_quantity _ _ _ Hv' Hlt Hq) as (x & Hx & Hxq & Hqb & Hqok).
  apply int4_ok_bounds in Hstock, Hqok.
  assert (to_numeric_12_2 total =
          if Z.abs (p_price p * q) <? 10 ^ 12 then inr (p_price p * q)
          else inl numeric_value_out_of_range) as Htotal.
  { subst total. rewrite Hx, (mul_comp_r _ _ _ Hxq) by lia.
    apply total_stored; lia. }
  destruct (to_numeric_12_2 total) as [e3|tot] eqn:Htot.
  { destruct (exec_insert_refused d sid now pid p' pidv email qty total Hid)
      as [e He]; [right; right; left; eauto|]. apply (Hfail e); [|exact He].
    intros q' Hq' (_ & Hfit & _). injection Hq' as <-.
    apply Z.ltb_lt in Hfit. rewrite Hfit in Htotal. discriminate. }
  destruct (int4_ok (orders_seq d + 1)) eqn:Hseq.
  2:{ destruct (exec_insert_refused d sid now pid p' pidv email qty total Hid)
        as [e He]; [right; right; right; exact Hseq|]. apply (Hfail e); [|exact He].
      intros q' _ (_ & _ & Hs'). congruence. }
  clear Hfail.
  (* the purchase goes through *)
  assert (em = email) as -> by (apply (to_varchar_norm_email 255 _ _ Hem)).
  assert (s = p_stock p - q) as ->.
  { rewrite Hx, (sub_int _ _ _ Hxq) in Hs by lia.
    rewrite to_int4_of_Z in Hs by (apply int4_ok_bounds; lia). congruence. }
  assert (sub (of_Z (p_stock p)) qty = of_Z (p_stock p - q)) as Hns
    by (rewrite Hx; apply sub_int; [exact Hxq|lia]).
  assert (Z.abs (p_price p * q) < 10 ^ 12 /\ tot = p_price p * q) as [Hfit ->].
  { destruct (Z.abs (p_price p * q) <? 10 ^ 12) eqn:Hf; [|discriminate].
    apply Z.ltb_lt in Hf. split; [exact Hf|congruence]. }
  exists (mkResponse 201
            (PurchaseBody (new_order d pid p email q now) (of_Z (p_stock p - q)))),
         (quiescent (after_purchase d pid p email q now)),
         (purchase_trace pidv email qty p).
  split.
  - rewrite <- Hns. unfold purchase_trace. fold total.
    eapply run_step; [reflexivity|].
    eapply run_step; [apply exec_begin|]. cbv beta iota delta [try].
    eapply run_step; [exact Hsel|]. cbv beta iota delta [try purchase_check].
    rewrite Hlt. unfold purchase_update.
    eapply run_step; [exact Hupd|]. cbv beta iota delta [try purchase_insert]. fold total.
    eapply run_step.
    { apply (exec_insert d sid now pid p' pidv email qty total email q
               (p_price p * q) Hid Hem Hq Htot Hseq). lia. }
    cbv beta iota delta [try purchase_commit].
    eapply run_step; [apply exec_commit|]. cbv beta iota delta [try].
    apply run_finish.
  - apply (ends_success d req now pidv pid p q Hpid Hid Hp Hq Hqb).
    split; [exact Hem|]. split; [exact Hfit|exact Hseq].
Qed.

End PurchaseFacts.

(** ** The sample tables *)

Module SampleFacts.
Import JS JSField PG Handler Spec Sample.

Lemma conforms_shop : conforms shop.
Proof.
  apply map_Forall_singleton. unfold product_conforms. simpl.
  repeat split; try lia; reflexivity.
Qed.

Lemma conforms_jeweller : conforms jeweller.
Proof.
  apply map_Forall_singleton. unfold product_conforms. simpl.
  repeat split; try lia; reflexivity.
Qed.

Lemma stock_nonneg_shop : stock_nonneg shop.
Proof. apply map_Forall_singleton. simpl. lia. Qed.

End SampleFacts.

(* ===================================================================== *)
(** * The purchase operation: claims                                      *)
(* ===================================================================== *)

Module PurchaseClaims.
Import JS JSField PG Handler Spec Sample JSFacts PGFacts PurchaseFacts SampleFacts.

Lemma falsy_of_Z z : falsy (of_Z z) = (z =? 0).
Proof.
  unfold falsy, of_Z. destruct (Qeq_bool (inject_Z z) 0) eqn:H; symmetry.
  - apply Qeq_bool_eq in H. apply (inject_Z_injective z 0) in H. apply Z.eqb_eq. exact H.
  - apply Z.eqb_neq. intros ->. discriminate.
Qed.

Lemma le_of_Z_zero z : le (of_Z z) (of_Z 0) = (z <=? 0).
Proof. apply le_zero_int. reflexivity. Qed.

Lemma lt_of_Z a b : lt (of_Z a) (of_Z b) = (a <? b).
Proof. apply lt_int. reflexivity. Qed.

Lemma qty_of_units req pid q :
  orders_units req pid q -> 0 < q -> qty_of req = of_Z q.
Proof.
  intros (_ & Hq & _) Hpos. unfold qty_of, num_or. rewrite Hq, falsy_of_Z.
  destruct (Z.eqb_spec q 0); [lia|reflexivity].
Qed.

(** A request for [q] units of an existing product is valid. *)
Lemma units_valid d req pid p q :
  conforms d -> orders_units req pid q -> products d !! pid = Some p -> 0 < q ->
  no_num (productId req) || empty (email_of req) || falsy (qty_of req)
    || le (qty_of req) (of_Z 0) = false /\
  to_int4 (of_Z pid) = inr pid /\ to_int4 (qty_of req) = inr q \/ ~ (q < 2 ^ 31).
Proof.
  intros Hd Hu Hp Hq.
  destruct (Z_lt_dec q (2 ^ 31)) as [Hlt|]; [left|right; assumption].
  pose proof (qty_of_units _ _ _ Hu Hq) as Hqty.
  destruct Hu as (Hpid & _ & Hem). destruct (Hd pid p Hp) as (Hb & _).
  rewrite Hqty, Hpid, Hem. unfold no_num. rewrite !falsy_of_Z, le_of_Z_zero.
  destruct (Z.eqb_spec pid 0); [lia|]. destruct (Z.eqb_spec q 0); [lia|].
  destruct (Z.leb_spec q 0); [lia|].
  split; [reflexivity|]. split; apply to_int4_of_Z, int4_ok_bounds; lia.
Qed.

(** C1, amended. For every purchase request whose productId references
    an existing product [p] and whose quantity [q] satisfies
    [0 < q <= stock], with a non-empty buyer e-mail, provided the new
    order row fits the columns of [orders] (the e-mail its VARCHAR(255),
    the total [price * q] its NUMERIC(12,2), a free identifier): the
    purchase succeeds with status 201, the returned remainingStock is
    [stock - q], exactly one order row is appended, its total is
    [price * q], and the stock of the product becomes [stock - q]. *)
Theorem purchase_reserves_stock d req pid p q sid now :
  conforms d ->
  orders_units req pid q ->
  products d !! pid = Some p ->
  0 < q <= p_stock p ->
  order_fits d (email_of req) (p_price p) q ->
  exists o st t,
    run (purchase req) sid now (quiescent d) =
      Some (mkResponse 201 (PurchaseBody o (of_Z (p_stock p - q))), st, t) /\
    orders (committed st) = orders d ++ [o] /\
    o_product_id o = pid /\ o_quantity o = q /\
    o_total_price o = p_price p * q /\
    products (committed st) =
      <[pid := set_stock p (p_stock p - q) now]> (products d) /\
    locks st = ∅ /\ txs st = ∅.
Proof.
  intros Hd Hu Hp Hq Hfit.
  destruct (Hd pid p Hp) as (_ & Hstock & _). apply int4_ok_bounds in Hstock.
  destruct (units_valid d req pid p q Hd Hu Hp) as [(Hv & Hid & Hqty)|]; [lia| |lia].
  pose proof (qty_of_units _ _ _ Hu (proj1 Hq)) as Hqv.
  destruct (purchase_run d req sid now Hd) as (r & st & t & Hrun & Hout).
  destruct Hu as (Hpid & _ & _).
  destruct Hout as [Hinv|e t pidv Hpv Herr|pidv pid' Hpv Hid' Hnone
                   |pidv pid' p' Hpv Hid' Hp' Hlt
                   |pidv pid' p' q' Hpv Hid' Hp' Hq' Hb' Hfit'].
  - congruence.
  - exfalso. rewrite Hpid in Hpv. injection Hpv as <-.
    destruct Herr as [He|(pid' & p' & Hid' & Hp' & _ & Hno)]; [congruence|].
    assert (pid' = pid) as -> by congruence.
    assert (p' = p) as -> by congruence.
    exact (Hno q Hqty Hfit).
  - exfalso. rewrite Hpid in Hpv. injection Hpv as <-.
    assert (pid' = pid) as -> by congruence. congruence.
  - exfalso. rewrite Hpid in Hpv. injection Hpv as <-.
    assert (pid' = pid) as -> by congruence.
    assert (p' = p) as -> by congruence.
    rewrite Hqv, lt_of_Z in Hlt. apply Z.ltb_lt in Hlt. lia.
  - rewrite Hpid in Hpv. injection Hpv as <-.
    assert (pid' = pid) as -> by congruence.
    assert (p' = p) as -> by congruence.
    assert (q' = q) as -> by congruence.
    do 3 eexists. split; [exact Hrun|]. simpl. repeat split; reflexivity.
Qed.

Lemma purchase_reserves_stock_witness :
  exists o st t,
    run (purchase two_mangos) 0 1000 (quiescent shop) =
      Some (mkResponse 201 (PurchaseBody o (of_Z 3)), st, t) /\
    orders (committed st) = [o] /\ o_total_price o = 20000.
Proof.
  destruct (purchase_reserves_stock shop two_mangos 1 mango 2 0%nat 1000)
    as (o & st & t & Hrun & Ho & _ & _ & Htot & _).
  - exact conforms_shop.
  - repeat split; reflexivity.
  - reflexivity.
  - simpl. lia.
  - repeat split; reflexivity.
  - exists o, st, t. repeat split; assumption.
Defined.

(** C1 as stated fails: two units of a product priced 9,999,999,999.99,
    with five in stock and a valid e-mail, are refused by the
    [total_price NUMERIC(12,2)] column; the response is 500 and nothing
    is recorded. *)
Lemma purchase_total_overflows :
  let req := two_mangos in
  products jeweller !! 1 = Some jewel /\
  0 < 2 <= p_stock jewel /\
  empty (email_of req) = false /\
  exists t,
    run (purchase req) 0 1000 (quiescent jeweller) =
      Some (mkResponse 500 (ErrorBody "Purchase failed"
                              (Some numeric_value_out_of_range)),
            quiescent jeweller, t).
Proof.
  repeat split; try reflexivity; try (simpl; lia).
  eexists. vm_compute. reflexivity.
Qed.

(** A purchase that does not answer 201 leaves the store as it was. *)
Lemma purchase_atomic d req sid now r st t :
  conforms d ->
  run (purchase req) sid now (quiescent d) = Some (r, st, t) ->
  status r <> 201 -> st = quiescent d.
Proof.
  intros Hd Hrun Hst.
  destruct (purchase_run d req sid now Hd) as (r' & st' & t' & Hrun' & Hout).
  rewrite Hrun in Hrun'. injection Hrun' as <- <- <-.
  destruct Hout; try reflexivity. exfalso. apply Hst. reflexivity.
Qed.

(** What a purchase that answers 201 has recorded. *)
Lemma purchase_recorded d req sid now o rs st t :
  conforms d ->
  run (purchase req) sid now (quiescent d) =
    Some (mkResponse 201 (PurchaseBody o rs), st, t) ->
  exists pidv pid p q,
    productId req = Val pidv /\ to_int4 pidv = inr pid /\
    products d !! pid = Some p /\ to_int4 (qty_of req) = inr q /\
    0 < q <= p_stock p /\
    o = new_order d pid p (email_of req) q now /\
    rs = of_Z (p_stock p - q) /\
    st = quiescent (after_purchase d pid p (email_of req) q now).
Proof.
  intros Hd Hrun.
  destruct (purchase_run d req sid now Hd) as (r' & st' & t' & Hrun' & Hout).
  rewrite Hrun in Hrun'. injection Hrun' as <- <- <-.
  inversion Hout as [| | | |pidv pid p q Hpv Hid Hp Hq Hb Hfit]; subst.
  exists pidv, pid, p, q. repeat split; try assumption; lia.
Qed.

Lemma positive_valid q :
  lt (of_Z 0) q = true -> falsy q = false /\ le q (of_Z 0) = false.
Proof.
  destruct q as [|[]|x]; simpl; try discriminate; [split; reflexivity|].
  intros H. apply negb_true_iff in H. apply not_true_iff_false in H.
  rewrite Qle_bool_iff in H. split; apply not_true_iff_false; intros H'.
  - apply Qeq_bool_eq in H'. apply H. rewrite H'. apply Qle_refl.
  - apply Qle_bool_iff in H'. exact (H H').
Qed.

(** C3. For every purchase request with an existing product and a
    (positive) quantity greater than its stock, with a non-empty e-mail,
    the operation answers 400 "Insufficient stock" after rolling the
    transaction back: the store is exactly as before the call. More
    generally no purchase that fails (any answer other than 201) leaves a
    change in the store. *)
Theorem purchase_insufficient_stock d req pid p q sid now :
  conforms d ->
  productId req = Val (of_Z pid) ->
  products d !! pid = Some p ->
  empty (email_of req) = false ->
  quantity req = Val q ->
  lt (of_Z 0) q = true ->
  lt (of_Z (p_stock p)) q = true ->
  run (purchase req) sid now (quiescent d) =
    Some (insufficient_stock, quiescent d, rejected_trace (of_Z pid)) /\
  (forall req' r st t,
     run (purchase req') sid now (quiescent d) = Some (r, st, t) ->
     status r <> 201 ->
     products (committed st) = products d /\ orders (committed st) = orders d /\
     st = quiescent d).
Proof.
  intros Hd Hpid Hp Hem Hq Hpos Hgt. split.
  2:{ intros req' r st t Hrun Hst.
      rewrite (purchase_atomic d req' sid now r st t Hd Hrun Hst).
      repeat split; reflexivity. }
  destruct (positive_valid q Hpos) as [Hf Hle].
  assert (qty_of req = q) as Hqty.
  { unfold qty_of, num_or. rewrite Hq, Hf. reflexivity. }
  destruct (Hd pid p Hp) as (Hb & _).
  assert (to_int4 (of_Z pid) = inr pid) as Hid
    by (apply to_int4_of_Z, int4_ok_bounds; lia).
  destruct (purchase_run d req sid now Hd) as (r & st & t & Hrun & Hout).
  rewrite Hrun. clear Hrun.
  destruct Hout as [Hinv|e t pidv Hpv Herr|pidv pid' Hpv Hid' Hnone
                   |pidv pid' p' Hpv Hid' Hp' Hlt
                   |pidv pid' p' q' Hpv Hid' Hp' Hq' Hb' Hfit'];
    try (rewrite Hpid in Hpv; injection Hpv as <-;
         try (assert (pid' = pid) as -> by congruence);
         try (assert (p' = p) as -> by congruence)).
  - exfalso. rewrite Hqty, Hpid, Hem, Hf, Hle in Hinv. unfold no_num in Hinv.
    rewrite falsy_of_Z in Hinv. destruct (Z.eqb_spec pid 0); [lia|discriminate].
  - exfalso. destruct Herr as [He|(pid' & p' & Hid' & Hp' & Hlt & _)]; [congruence|].
    assert (pid' = pid) as -> by congruence.
    assert (p' = p) as -> by congruence. congruence.
  - congruence.
  - reflexivity.
  - exfalso. rewrite Hqty in Hq'.
    apply to_int4_inr in Hq' as (x & -> & Hx & _).
    rewrite (lt_int _ _ _ Hx) in Hgt. apply Z.ltb_lt in Hgt. lia.
Qed.

Lemma purchase_insufficient_stock_witness :
  run (purchase seven_mangos) 0 1000 (quiescent shop) =
    Some (insufficient_stock, quiescent shop, rejected_trace (of_Z 1)).
Proof.
  apply (purchase_insufficient_stock shop seven_mangos 1 mango (of_Z 7) 0%nat 1000).
  - exact conforms_shop.
  - reflexivity.
  - reflexivity.
  - reflexivity.
  - reflexivity.
  - reflexivity.
  - reflexivity.
Defined.






(** C5. For every successful purchase the total stored in the order row
    and returned with it equals the exact product of the unit price (a
    decimal with two places, counted in hundredths) and the quantity, a
    positive integer: the binary64 product computed by the handler is
    rounded back to the exact value by the [NUMERIC(12,2)] column. *)
Theorem order_total_exact d req sid now o rs st t :
  conforms d ->
  run (purchase req) sid now (quiescent d) =
    Some (mkResponse 201 (PurchaseBody o rs), st, t) ->
  exists p,
    products d !! o_product_id o = Some p /\
    0 < o_quantity o /\
    o_total_price o = p_price p * o_quantity o /\
    In o (orders (committed st)).
Proof.
  intros Hd Hrun.
  destruct (purchase_recorded d req sid now o rs st t Hd Hrun)
    as (pidv & pid & p & q & _ & _ & Hp & _ & Hq & -> & _ & ->).
  exists p. simpl. repeat split; try assumption; try lia.
  apply in_or_app. right. left. reflexivity.
Qed.

Lemma two_mangos_run :
  run (purchase two_mangos) 0 1000 (quiescent shop) =
    Some (mkResponse 201 (PurchaseBody two_mangos_order (of_Z 3)),
          quiescent (after_purchase shop 1 mango "a@b.com" 2 1000),
          purchase_trace (of_Z 1) "a@b.com" (of_Z 2) mango).
Proof. vm_compute. reflexivity. Qed.

Lemma order_total_exact_witness :
  exists p, products shop !! 1 = Some p /\ 0 < 2 /\ 20000 = p_price p * 2 /\
            In two_mangos_order
               (orders (committed (quiescent (after_purchase shop 1 mango "a@b.com" 2 1000)))).
Proof.
  exact (order_total_exact shop two_mangos 0%nat 1000 two_mangos_order (of_Z 3)
           _ _ conforms_shop two_mangos_run).
Defined.



(** C8. The purchase operation trims the buyer e-mail and puts it in
    lower case before storing it: the order recorded by a successful
    purchase carries [toLowerCase (trim s)] for the e-mail [s] of the
    request. In particular two units of a product at 100.00 with five in
    stock, bought by " A@B.com ", give an order of total 200.00 for
    "a@b.com" and a remaining stock of 3. *)
Theorem purchase_normalises_email d req s sid now o rs st t :
  conforms d ->
  buyerEmail req = Val s ->
  run (purchase req) sid now (quiescent d) =
    Some (mkResponse 201 (PurchaseBody o rs), st, t) ->
  o_buyer_email o = toLowerCase (trim s) /\
  In o (orders (committed st)) /\
  run (purchase two_mangos) 0 1000 (quiescent shop) =
    Some (mkResponse 201
            (PurchaseBody {| o_id := 1; o_product_id := 1;
                             o_buyer_email := "a@b.com"; o_quantity := 2;
                             o_total_price := 20000; o_created_at := 1000 |}
                          (of_Z 3)),
          quiescent (after_purchase shop 1 mango "a@b.com" 2 1000),
          purchase_trace (of_Z 1) "a@b.com" (of_Z 2) mango).
Proof.
  intros Hd Hs Hrun.
  destruct (purchase_recorded d req sid now o rs st t Hd Hrun)
    as (pidv & pid & p & q & _ & _ & Hp & _ & Hq & -> & _ & ->).
  split; [|split].
  - simpl. unfold email_of, norm_email. rewrite Hs. reflexivity.
  - simpl. apply in_or_app. right. left. reflexivity.
  - exact two_mangos_run.
Qed.

Lemma purchase_normalises_email_witness :
  o_buyer_email two_mangos_order = "a@b.com"%string.
Proof.
  exact (proj1 (purchase_normalises_email shop two_mangos " A@B.com " 0%nat 1000
                  two_mangos_order (of_Z 3) _ _ conforms_shop eq_refl two_mangos_run)).
Defined.

End PurchaseClaims.

(* ===================================================================== *)
(** * The stock invariant                                                 *)
(* ===================================================================== *)

Module StockClaims.
Import JS JSField PG Handler Spec Sample JSFacts PGFacts PurchaseFacts SampleFacts.

Lemma to_int4_nonneg x z :
  to_int4 x = inr z -> le (of_Z 0) x = true -> 0 <= z.
Proof.
  intros Hx Hle. apply to_int4_inr in Hx as (q & -> & Hq & _).
  unfold le, of_Z in Hle. apply Qle_bool_iff in Hle.
  rewrite Hq, <- Zle_Qle in Hle. exact Hle.
Qed.

(** An [INSERT INTO products] on a store at rest adds at most one row,
    whose stock is the integer sent. *)
Lemma exec_insert_product_stock d sid now uid nm de pricep cat stockp img r st :
  exec (InsertProduct uid nm de pricep cat stockp img) sid now (quiescent d)
    = Some (r, st) ->
  products (committed st) = products d \/
  exists id p stock,
    to_int4 stockp = inr stock /\ p_stock p = stock /\
    products (committed st) = <[id := p]> (products d).
Proof.
  unfold exec.
  destruct (to_varchar 255 nm); [intros [= <- <-]; left; reflexivity|].
  destruct (to_text de); [intros [= <- <-]; left; reflexivity|].
  destruct (to_numeric_12_2 pricep); [intros [= <- <-]; left; reflexivity|].
  destruct (to_varchar 100 cat); [intros [= <- <-]; left; reflexivity|].
  destruct (to_int4 stockp) as [e|stock]; [intros [= <- <-]; left; reflexivity|].
  destruct (match img with
            | Some s0 => match to_text s0 with
                         | inl e => inl e
                         | inr s' => inr (Some s')
                         end
            | None => inr None
            end); [intros [= <- <-]; left; reflexivity|].
  destruct (negb (int4_ok _)); [intros [= <- <-]; left; reflexivity|].
  destruct (negb (existsb _ _)); [intros [= <- <-]; left; reflexivity|].
  intros [= <- <-]. right. eexists _, _, stock. split; [|split].
  3:{ unfold write_product, quiescent, set_committed, set_products. simpl.
      rewrite lookup_empty. reflexivity. }
  all: reflexivity.
Qed.

(** C6, amended. The stock of every product stays a non-negative integer
    under every purchase, and under the creation of a product whose stock
    field is absent or not negative. (The creation of a product stores
    the stock it is given without a test, a negative one included.) *)
Theorem stock_stays_nonneg d sid now :
  conforms d ->
  stock_nonneg d ->
  (forall req r st t,
     run (purchase req) sid now (quiescent d) = Some (r, st, t) ->
     stock_nonneg (committed st)) /\
  (forall req r st t,
     le (of_Z 0) (num_or (r_stock req) (of_Z 0)) = true ->
     run (create_product req) sid now (quiescent d) = Some (r, st, t) ->
     stock_nonneg (committed st)).
Proof.
  intros Hd Hnn. split.
  - intros req r st t Hrun.
    destruct (purchase_run d req sid now Hd) as (r' & st' & t' & Hrun' & Hout).
    rewrite Hrun in Hrun'. injection Hrun' as <- <- <-.
    destruct Hout as [| | | |pidv pid p q Hpv Hid Hp Hq Hb Hfit]; try exact Hnn.
    simpl. apply map_Forall_insert_2; [simpl; lia|exact Hnn].
  - intros req r st t Hge. unfold create_product.
    destruct (empty _ || _ || _ || _ || _); [intros [= <- <- <-]; exact Hnn|].
    rewrite run_Do. cbn [exec].
    destruct (map u_id _) as [|uid ids];
      cbv beta iota delta [try_product]; [intros [= <- <- <-]; exact Hnn|].
    rewrite run_Do.
    match goal with
    | |- context [exec ?o sid now (quiescent d)] =>
        destruct (exec o sid now (quiescent d)) as [[res st']|] eqn:Hex
    end; [|discriminate].
    apply exec_insert_product_stock in Hex.
    assert (stock_nonneg (committed st')) as Hst'.
    { destruct Hex as [Hsame|(id & p & stock & Hs & Hp & Hnew)].
      - unfold stock_nonneg. rewrite Hsame. exact Hnn.
      - unfold stock_nonneg. rewrite Hnew.
        apply map_Forall_insert_2; [|exact Hnn].
        rewrite Hp. apply (to_int4_nonneg _ _ Hs). exact Hge. }
    destruct res as [e|row]; cbv beta iota delta [try_product]; cbn [run];
      intros [= <- <- <-]; exact Hst'.
Qed.

Lemma stock_stays_nonneg_witness :
  stock_nonneg
    (committed (quiescent (after_purchase shop 1 mango "a@b.com" 2 1000))).
Proof.
  apply (proj1 (stock_stays_nonneg shop 0%nat 1000 conforms_shop stock_nonneg_shop)
           two_mangos
           (mkResponse 201 (PurchaseBody two_mangos_order (of_Z 3)))
           (quiescent (after_purchase shop 1 mango "a@b.com" 2 1000))
           (purchase_trace (of_Z 1) "a@b.com" (of_Z 2) mango)).
  vm_compute. reflexivity.
Defined.

(** C6 as stated fails: the creation of a product with stock -5 is
    accepted, and the table then holds a product with a negative
    stock. *)
Lemma product_created_with_negative_stock :
  stock_nonneg shop /\
  exists p st t,
    run (create_product owing) 0 1000 (quiescent shop) =
      Some (mkResponse 201 (ProductBody 2 p), st, t) /\
    products (committed st) !! 2 = Some p /\
    p_stock p = -5 /\
    ~ stock_nonneg (committed st).
Proof.
  split; [exact stock_nonneg_shop|].
  do 3 eexists. split; [vm_compute; reflexivity|].
  split; [vm_compute; reflexivity|]. split; [reflexivity|].
  intros H. specialize (H 2 _ eq_refl). simpl in H. lia.
Qed.

End StockClaims.

(* ===================================================================== *)
(** * The payment relay: claims                                           *)
(* ===================================================================== *)

Module PayPalClaims.
Import JS JSField PayPal Sample.

Section Provider.

Variable payload : Type.
Variable access_token : payload -> string.
Variable world : Type.
Variable fetch : call -> world -> outcome payload * world.
Variable cred : credentials.

(** C9. For every call of the handler that creates a payment order with
    an amount that is zero or negative, or that is not a number, the
    handler answers 400 "Invalid amount" and makes no call to the
    provider, neither for a token nor for the order. *)
Theorem create_order_rejects_amount (b : body) (w : world) :
  le (Number (amount b)) (of_Z 0) = true \/ Number (amount b) = NaN ->
  create_order payload access_token world fetch cred b w =
    (mkResponse payload 400 (ErrorBody payload "Invalid amount" None), w, []).
Proof.
  intros H. unfold create_order.
  assert (falsy (Number (amount b)) || le (Number (amount b)) (of_Z 0) = true)
    as ->; [|reflexivity].
  destruct H as [H| ->]; [rewrite H; apply orb_true_r|reflexivity].
Qed.

(** C10. A request to [POST /api/paypal/create-order] is answered as the
    same request to [POST /create-order], and a request to
    [POST /api/paypal/capture-order] as the same request to
    [POST /capture-order]: the same response, the same calls to the
    provider and the same provider afterwards, by the handler of the root
    route. *)
Theorem paypal_alias_equivalent (b : body) (w : world) (n m : nat) :
  handle payload access_token world fetch cred (S (S n))
    (mkRequest POST "/api/paypal/create-order" b) w =
  handle payload access_token world fetch cred (S m)
    (mkRequest POST "/create-order" b) w /\
  handle payload access_token world fetch cred (S m)
    (mkRequest POST "/create-order" b) w =
  Some (Responded payload world
          (create_order payload access_token world fetch cred b w)) /\
  handle payload access_token world fetch cred (S (S n))
    (mkRequest POST "/api/paypal/capture-order" b) w =
  handle payload access_token world fetch cred (S m)
    (mkRequest POST "/capture-order" b) w /\
  handle payload access_token world fetch cred (S m)
    (mkRequest POST "/capture-order" b) w =
  Some (Responded payload world
          (capture_order payload access_token world fetch cred b w)).
Proof. repeat split; reflexivity. Qed.

End Provider.

Lemma create_order_rejects_amount_witness :
  create_order unit (fun _ => EmptyString) unit offline merchant pay_nothing tt =
    (mkResponse unit 400 (ErrorBody unit "Invalid amount" None), tt, []).
Proof.
  apply (create_order_rejects_amount unit (fun _ => EmptyString) unit offline
           merchant pay_nothing tt).
  left. reflexivity.
Defined.

End PayPalClaims.

(* ===================================================================== *)
(** * Requests racing for one product: the invariant                      *)
(* ===================================================================== *)

Module RaceFacts.
Import JS JSField PG Handler Conc Spec Race JSFacts PGFacts PurchaseFacts.

(** ** Counting phases *)

Lemma cnt_insert f l i x y :
  l !! i = Some x -> cnt f (<[i := y]> l) = cnt f l - b2z (f x) + b2z (f y).
Proof.
  revert i. induction l as [|a l IH]; intros i H; [discriminate|].
  destruct i as [|i]; simpl in *.
  - injection H as ->. unfold b2z. lia.
  - rewrite (IH i H). lia.
Qed.

Lemma cnt_nonneg f l : 0 <= cnt f l.
Proof. induction l as [|a l IH]; simpl; [lia|]. destruct (f a); lia. Qed.

Lemma cnt_pos f l i x : l !! i = Some x -> f x = true -> 0 < cnt f l.
Proof.
  revert i. induction l as [|a l IH]; intros i H Hf; [discriminate|].
  pose proof (cnt_nonneg f l).
  destruct i as [|i]; simpl in *.
  - injection H as ->. rewrite Hf. lia.
  - specialize (IH i H Hf). destruct (f a); lia.
Qed.

Lemma cnt_zero f l i x : cnt f l = 0 -> l !! i = Some x -> f x = false.
Proof.
  intros H0 H. destruct (f x) eqn:Hf; [|reflexivity].
  pose proof (cnt_pos f l i x H Hf). lia.
Qed.

Lemma cnt_none f l : (forall i x, l !! i = Some x -> f x = false) -> cnt f l = 0.
Proof.
  induction l as [|a l IH]; intros H; simpl; [reflexivity|].
  rewrite (H 0%nat a eq_refl). rewrite IH; [reflexivity|].
  intros i x Hi. exact (H (S i) x Hi).
Qed.

Lemma cnt_some f l : 0 < cnt f l -> exists i x, l !! i = Some x /\ f x = true.
Proof.
  induction l as [|a l IH]; simpl; [lia|]. intros H.
  destruct (f a) eqn:Hf.
  - exists 0%nat, a. split; [reflexivity|exact Hf].
  - destruct IH as (i & x & Hi & Hx); [lia|]. exists (S i), x. split; assumption.
Qed.

(** With a single phase counted, two counted positions are the same. *)
Lemma cnt_one f l i j x y :
  cnt f l = 1 -> l !! i = Some x -> f x = true ->
  l !! j = Some y -> f y = true -> i = j.
Proof.
  revert i j. induction l as [|a l IH]; intros i j H Hi Hx Hj Hy; [discriminate|].
  simpl in H. pose proof (cnt_nonneg f l).
  destruct i as [|i], j as [|j]; simpl in *; try reflexivity.
  - injection Hi as ->. rewrite Hx in H.
    pose proof (cnt_pos f l j y Hj Hy). lia.
  - injection Hj as ->. rewrite Hy in H.
    pose proof (cnt_pos f l i x Hi Hx). lia.
  - f_equal. apply (IH i j); try assumption.
    destruct (f a); [|lia]. pose proof (cnt_pos f l i x Hi Hx). lia.
Qed.

Lemma cnt_le f g l :
  (forall ph, f ph = true -> g ph = true) -> cnt f l <= cnt g l.
Proof.
  intros H. induction l as [|a l IH]; simpl; [lia|].
  destruct (f a) eqn:Hf; [rewrite (H a Hf); lia|]. destruct (g a); lia.
Qed.

Lemma cnt_split f g h l :
  (forall ph, b2z (f ph) = b2z (g ph) + b2z (h ph)) ->
  cnt f l = cnt g l + cnt h l.
Proof.
  intros H. induction l as [|a l IH]; simpl; [lia|].
  specialize (H a). unfold b2z in H. destruct (f a), (g a), (h a); lia.
Qed.

Lemma cnt_length f l : cnt f l <= Z.of_nat (length l).
Proof. induction l as [|a l IH]; simpl; [lia|]. destruct (f a); lia. Qed.

Lemma work_insert l i x y :
  l !! i = Some x ->
  (work (<[i := y]> l) + steps_left x = work l + steps_left y)%nat.
Proof.
  revert i. induction l as [|a l IH]; intros i H; [discriminate|].
  destruct i as [|i]; simpl in *.
  - injection H as ->. lia.
  - specialize (IH i H). lia.
Qed.

Lemma work_zero l i x : work l = O -> l !! i = Some x -> done x = true.
Proof.
  revert i. induction l as [|a l IH]; intros i H0 H; [discriminate|].
  simpl in H0. destruct i as [|i]; simpl in *.
  - injection H as ->. destruct x; simpl in *; try reflexivity; lia.
  - apply (IH i); [lia|exact H].
Qed.

Lemma work_pos l : (0 < work l)%nat -> exists i x, l !! i = Some x /\ done x = false.
Proof.
  induction l as [|a l IH]; simpl; [lia|]. intros H.
  destruct (done a) eqn:Ha.
  - destruct IH as (i & x & Hi & Hx).
    { destruct a; simpl in *; try discriminate; lia. }
    exists (S i), x. split; assumption.
  - exists 0%nat, a. split; [reflexivity|exact Ha].
Qed.

(** ** The operations of a transaction on any store *)

Lemma exec_begin_at st sid now :
  txs st !! sid = None ->
  exec Begin sid now st =
    Some (inr tt, set_txs st (<[sid := tx0 now]> (txs st))).
Proof. intros H. unfold exec. rewrite H. reflexivity. Qed.

Lemma exec_select_free st sid now id p :
  txs st !! sid = Some (tx0 now) ->
  products (committed st) !! id = Some p ->
  int4_ok id = true ->
  locks st = ∅ ->
  exec (SelectProductForUpdate (of_Z id)) sid now st =
    Some (inr [(id, p_price p, p_stock p)], set_locks st {[id := sid]}).
Proof.
  intros Ht Hp Hid Hl. unfold exec. rewrite (to_int4_of_Z _ Hid).
  unfold visible_product, locked_by_other, take_lock.
  rewrite Ht. simpl. rewrite lookup_empty, Hp, Hl, lookup_empty, insert_empty.
  reflexivity.
Qed.

Lemma exec_select_wait st sid now id p h :
  txs st !! sid = Some (tx0 now) ->
  products (committed st) !! id = Some p ->
  int4_ok id = true ->
  locks st = {[id := h]} -> h <> sid ->
  exec (SelectProductForUpdate (of_Z id)) sid now st = None.
Proof.
  intros Ht Hp Hid Hl Hne. unfold exec. rewrite (to_int4_of_Z _ Hid).
  unfold visible_product, locked_by_other.
  rewrite Ht. simpl. rewrite lookup_empty, Hp, Hl, lookup_singleton_eq.
  destruct (Nat.eqb_spec h sid); [contradiction|reflexivity].
Qed.

Lemma exec_update_at st sid now id p stockp s :
  txs st !! sid = Some (tx0 now) ->
  products (committed st) !! id = Some p ->
  int4_ok id = true ->
  locks st = {[id := sid]} ->
  to_int4 stockp = inr s ->
  exec (UpdateStock stockp (of_Z id)) sid now st =
    Some (inr tt,
          set_txs st (<[sid := {| tx_start := now;
                                  tx_products := {[id := set_stock p s now]};
                                  tx_orders := [] |}]> (txs st))).
Proof.
  intros Ht Hp Hid Hl Hs. unfold exec. rewrite Hs, (to_int4_of_Z _ Hid).
  unfold visible_product, locked_by_other, take_lock, write_product,
    current_timestamp.
  rewrite Ht. simpl. rewrite lookup_empty, Hp, Hl, lookup_singleton_eq.
  rewrite Nat.eqb_refl. simpl. rewrite Ht. simpl.
  rewrite insert_singleton_eq, insert_empty.
  destruct st as [cm lk tx]. simpl in *. subst lk. reflexivity.
Qed.

Lemma exec_insert_at st sid now id p' email q total :
  txs st !! sid = Some {| tx_start := now; tx_products := {[id := p']};
                          tx_orders := [] |} ->
  int4_ok id = true ->
  locks st = {[id := sid]} ->
  to_varchar 255 email = inr email ->
  int4_ok q = true -> 0 < q ->
  to_numeric_12_2 total = inr (p_price p' * q) ->
  int4_ok (orders_seq (committed st) + 1) = true ->
  let o := {| o_id := orders_seq (committed st) + 1; o_product_id := id;
              o_buyer_email := email; o_quantity := q;
              o_total_price := p_price p' * q; o_created_at := now |} in
  exec (InsertOrder (of_Z id) email (of_Z q) total) sid now st =
    Some (inr o,
          set_txs (set_committed st
                     (set_orders_seq (committed st) (orders_seq (committed st) + 1)))
                  (<[sid := {| tx_start := now; tx_products := {[id := p']};
                               tx_orders := [o] |}]> (txs st))).
Proof.
  intros Ht Hid Hl Hem Hq Hpos Htot Hseq o. unfold exec.
  rewrite (to_int4_of_Z _ Hid), Hem, (to_int4_of_Z _ Hq), Htot.
  unfold locked_by_other. rewrite Hl, lookup_singleton_eq, Nat.eqb_refl.
  simpl. rewrite Hseq. simpl.
  assert ((0 <? q) = true) as -> by (apply Z.ltb_lt; exact Hpos). simpl.
  unfold visible_product, write_order, current_timestamp. simpl.
  rewrite Ht. simpl. rewrite lookup_singleton_eq. reflexivity.
Qed.

Lemma exec_commit_at st sid now t :
  txs st !! sid = Some t ->
  exec Commit sid now st =
    Some (inr tt,
          release_locks
            (set_txs (set_committed st
                        (set_orders (set_products (committed st)
                                       (tx_products t ∪ products (committed st)))
                                    (orders (committed st) ++ tx_orders t)))
                     (delete sid (txs st))) sid).
Proof. intros Ht. unfold exec. rewrite Ht. reflexivity. Qed.

(** ** One step of one thread *)

Section Invariant.

Variable d : db.
Variable pid q : Z.
Variable reqs : list (Z * purchase_req).
Variable p : product.

Hypothesis Hconf : conforms d.
Hypothesis Hp : products d !! pid = Some p.
Hypothesis Hq : 0 < q.
Hypothesis Hs0 : 0 <= p_stock p.
Hypothesis Hunits : same_units pid q reqs.
Hypothesis Hfit : rows_fit d q reqs p.

Local Abbreviation inv := (invariant d pid q reqs p).
Local Abbreviation thr := (thread_of pid q).

Lemma pid_ok : int4_ok pid = true /\ pid <> 0.
Proof.
  destruct (Hconf pid p Hp) as (Hb & _). split; [|lia].
  apply int4_ok_bounds. lia.
Qed.

Lemma stock_ok : - 2 ^ 31 <= p_stock p < 2 ^ 31.
Proof.
  destruct (Hconf pid p Hp) as (_ & Hs & _). apply int4_ok_bounds. exact Hs.
Qed.

Lemma units_at i rq : reqs !! i = Some rq -> orders_units (snd rq) pid q.
Proof. intros H. exact (proj1 (Forall_lookup _ _) Hunits i rq H). Qed.

Lemma fits_at i rq :
  reqs !! i = Some rq ->
  to_varchar 255 (email_of (snd rq)) = inr (email_of (snd rq)).
Proof.
  intros H. destruct Hfit as (Hem & _).
  exact (proj1 (Forall_lookup _ _) Hem i rq H).
Qed.

(** The thread [i] performs [o] and goes on as in phase [ph']. *)
Lemma step_to c phs i rq ph ph' (R : Type) (o : op R) k r st' :
  threads c = zip_with thr reqs phs ->
  reqs !! i = Some rq -> phs !! i = Some ph ->
  prog_of pid q rq ph = Do o k ->
  exec o i (fst rq) (cstore c) = Some (r, st') ->
  k r = prog_of pid q rq ph' ->
  step i c = {| cstore := st'; threads := zip_with thr reqs (<[i := ph']> phs) |}.
Proof.
  intros Hth Hrq Hph Hprog Hex Hk. unfold step.
  rewrite Hth, lookup_zip_with, Hrq, Hph. simpl. rewrite Hprog, Hex.
  f_equal. rewrite Hk.
  change {| th_now := fst rq; th_prog := prog_of pid q rq ph' |} with (thr rq ph').
  rewrite insert_zip_with, (list_insert_id reqs i rq Hrq). reflexivity.
Qed.

(** The thread [i] waits, or has responded. *)
Lemma step_stays c phs i rq ph :
  threads c = zip_with thr reqs phs ->
  reqs !! i = Some rq -> phs !! i = Some ph ->
  (exists r, prog_of pid q rq ph = Ret r) \/
  (exists (R : Type) (o : op R) k,
     prog_of pid q rq ph = Do o k /\ exec o i (fst rq) (cstore c) = None) ->
  step i c = c.
Proof.
  intros Hth Hrq Hph H. unfold step.
  rewrite Hth, lookup_zip_with, Hrq, Hph. simpl.
  destruct H as [(r & ->)|(R & o & k & -> & ->)]; reflexivity.
Qed.

Lemma step_outside c phs i :
  threads c = zip_with thr reqs phs -> length phs = length reqs ->
  phs !! i = None -> step i c = c.
Proof.
  intros Hth Hlen Hph. unfold step.
  rewrite Hth, lookup_zip_with, Hph.
  destruct (reqs !! i); reflexivity.
Qed.

Lemma after_connect (rq : Z * purchase_req) :
  orders_units (snd rq) pid q ->
  exists k, purchase (snd rq) = Do Connect k /\
            k (inr tt) = purchase_begin (of_Z pid) (email_of (snd rq)) (of_Z q).
Proof.
  intros (Hpid & Hqty & Hem). eexists. split; [reflexivity|].
  cbv beta zeta. fold (email_of (snd rq)). rewrite Hpid, Hqty, Hem.
  unfold num_or.
  assert (falsy (of_Z q) = false) as Hfq.
  { unfold falsy, of_Z. apply not_true_iff_false. intros H.
    apply Qeq_bool_eq in H. apply (inject_Z_injective q 0) in H. lia. }
  assert (falsy (of_Z pid) = false) as Hfp.
  { unfold falsy, of_Z. apply not_true_iff_false. intros H.
    apply Qeq_bool_eq in H. apply (inject_Z_injective pid 0) in H.
    destruct pid_ok. contradiction. }
  rewrite !Hfq, Hfp. change (of_Z q) with (Fin (inject_Z q)).
  rewrite (le_zero_int (inject_Z q) q) by reflexivity.
  destruct (Z.leb_spec q 0); [lia|]. reflexivity.
Qed.

(** A step that leaves the tables and the lock alone. *)
Lemma inv_quiet c phs cur i rq ph ph' st' :
  inv c phs cur ->
  reqs !! i = Some rq -> phs !! i = Some ph ->
  committed st' = committed (cstore c) ->
  locks st' = locks (cstore c) ->
  (forall j, j <> i -> txs st' !! j = txs (cstore c) !! j) ->
  txs st' !! i = tx_of pid q rq ph' ->
  holds ph' = holds ph -> committed201 ph' = committed201 ph ->
  inserted ph' = inserted ph -> short ph' = short ph ->
  row_read ph' = row_read ph ->
  inv {| cstore := st'; threads := zip_with thr reqs (<[i := ph']> phs) |}
      (<[i := ph']> phs) cur.
Proof.
  intros (Hlen & Hth & Htx & Hlk & Hcur & Hprice & Hstock & Hnn & Hseq & Hord
          & Hrow & Hshort)
         Hrq Hph Hcm Hlocks Hother Hmine Hh Hc Hi Hsh Hr.
  pose proof (lookup_lt_Some _ _ _ Hph) as Hlt.
  unfold invariant. simpl.
  rewrite !(cnt_insert _ _ _ _ ph' Hph), Hh, Hc, Hi, Hsh, Hcm, Hlocks.
  rewrite length_insert.
  split; [exact Hlen|]. split; [reflexivity|].
  split.
  { intros j rq' ph'' Hrq' Hph''.
    destruct (Nat.eq_dec j i) as [->|Hne].
    - rewrite list_lookup_insert_eq in Hph'' by exact Hlt.
      injection Hph'' as <-. rewrite Hrq in Hrq'. injection Hrq' as <-. exact Hmine.
    - rewrite list_lookup_insert_ne in Hph'' by congruence.
      rewrite (Hother j Hne). apply Htx; assumption. }
  split.
  { destruct Hlk as [(H0 & Hl)|(h & phh & Hphh & Hhh & H1 & Hl)].
    - left. split; [lia|exact Hl].
    - right. destruct (Nat.eq_dec h i) as [->|Hne].
      + exists i, ph'. rewrite list_lookup_insert_eq by exact Hlt.
        rewrite Hph in Hphh. injection Hphh as <-.
        repeat split; try assumption; try lia. congruence.
      + exists h, phh. rewrite list_lookup_insert_ne by congruence.
        repeat split; try assumption; lia. }
  split; [exact Hcur|]. split; [exact Hprice|]. split; [lia|].
  split; [exact Hnn|]. split; [lia|]. split; [lia|].
  split.
  { intros j phj pr Hj Hpr.
    destruct (Nat.eq_dec j i) as [->|Hne].
    - rewrite list_lookup_insert_eq in Hj by exact Hlt. injection Hj as <-.
      rewrite Hr in Hpr. exact (Hrow i ph pr Hph Hpr).
    - rewrite list_lookup_insert_ne in Hj by congruence.
      exact (Hrow j phj pr Hj Hpr). }
  intros Hpos. apply Hshort. lia.
Qed.

Lemma tx_clause (c : config) (phs : list phase) (i : nat) rq (ph ph' : phase)
    (st' : store) :
  (forall j rq' ph'', reqs !! j = Some rq' -> phs !! j = Some ph'' ->
                      txs (cstore c) !! j = tx_of pid q rq' ph'') ->
  reqs !! i = Some rq -> phs !! i = Some ph ->
  (forall j, j <> i -> txs st' !! j = txs (cstore c) !! j) ->
  txs st' !! i = tx_of pid q rq ph' ->
  forall j rq' ph'', reqs !! j = Some rq' -> <[i := ph']> phs !! j = Some ph'' ->
                     txs st' !! j = tx_of pid q rq' ph''.
Proof.
  intros Htx Hrq Hph Hother Hmine j rq' ph'' Hrq' Hph''.
  pose proof (lookup_lt_Some _ _ _ Hph) as Hlt.
  destruct (Nat.eq_dec j i) as [->|Hne].
  - rewrite list_lookup_insert_eq in Hph'' by exact Hlt.
    injection Hph'' as <-. rewrite Hrq in Hrq'. injection Hrq' as <-. exact Hmine.
  - rewrite list_lookup_insert_ne in Hph'' by congruence.
    rewrite (Hother j Hne). apply Htx; assumption.
Qed.

(** The holder of the lock is the one thread in a phase that holds it. *)
Lemma holder_is c phs cur i ph :
  inv c phs cur -> phs !! i = Some ph -> holds ph = true ->
  cnt holds phs = 1 /\ locks (cstore c) = {[pid := i]}.
Proof.
  intros (_ & _ & _ & Hlk & _) Hph Hh.
  destruct Hlk as [(H0 & _)|(h & phh & Hphh & Hhh & H1 & Hl)].
  - pose proof (cnt_pos _ _ _ _ Hph Hh). lia.
  - rewrite (cnt_one _ _ _ _ _ _ H1 Hph Hh Hphh Hhh). split; assumption.
Qed.

Lemma no_other_holder (phs : list phase) (i : nat) (ph : phase) f :
  cnt holds phs = 1 -> phs !! i = Some ph -> holds ph = true -> f ph = false ->
  (forall x, f x = true -> holds x = true) ->
  cnt f phs = 0.
Proof.
  intros H1 Hph Hh Hf Himp. apply cnt_none. intros j x Hj.
  destruct (f x) eqn:Hfx; [|reflexivity].
  assert (j = i) as -> by (apply (cnt_one _ _ _ _ _ _ H1 Hj (Himp x Hfx) Hph Hh)).
  congruence.
Qed.

(** The locking read finds the lock free. *)
Lemma inv_lock c phs cur i rq ph' :
  inv c phs cur ->
  reqs !! i = Some rq -> phs !! i = Some AtSelect ->
  cnt holds phs = 0 -> locks (cstore c) = ∅ ->
  (ph' = AtRollback /\ p_stock cur < q \/ ph' = AtUpdate cur /\ q <= p_stock cur) ->
  inv {| cstore := set_locks (cstore c) {[pid := i]};
         threads := zip_with thr reqs (<[i := ph']> phs) |}
      (<[i := ph']> phs) cur.
Proof.
  intros Hinv Hrq Hph H0 Hl Hph'.
  pose proof Hinv as (Hlen & Hth & Htx & Hlk & Hcur & Hprice & Hstock & Hnn
                      & Hseq & Hord & Hrow & Hshort).
  pose proof (lookup_lt_Some _ _ _ Hph) as Hlt.
  assert (holds ph' = true /\ committed201 ph' = false /\ inserted ph' = false)
    as (Hh & Hc & Hi) by (destruct Hph' as [(-> & _)|(-> & _)]; repeat split).
  unfold invariant. simpl.
  rewrite !(cnt_insert _ _ _ _ ph' Hph), Hh, Hc, Hi. simpl b2z.
  rewrite length_insert.
  split; [exact Hlen|]. split; [reflexivity|].
  split.
  { apply (tx_clause c phs i rq AtSelect ph'); try assumption.
    - intros j _. reflexivity.
    - rewrite (Htx i rq AtSelect Hrq Hph).
      destruct Hph' as [(-> & _)|(-> & _)]; reflexivity. }
  split.
  { right. exists i, ph'. rewrite list_lookup_insert_eq by exact Hlt.
    repeat split; try assumption; lia. }
  split; [exact Hcur|]. split; [exact Hprice|]. split; [lia|].
  split; [exact Hnn|]. split; [lia|]. split; [lia|].
  split.
  { intros j phj pr Hj Hpr.
    destruct (Nat.eq_dec j i) as [->|Hne].
    - rewrite list_lookup_insert_eq in Hj by exact Hlt. injection Hj as <-.
      destruct Hph' as [(-> & _)|(-> & Hle)]; [discriminate|].
      injection Hpr as <-. split; [reflexivity|exact Hle].
    - rewrite list_lookup_insert_ne in Hj by congruence.
      exact (Hrow j phj pr Hj Hpr). }
  intros Hpos. destruct Hph' as [(-> & Hlt')|(-> & Hle)]; [exact Hlt'|].
  apply Hshort. simpl in Hpos. lia.
Qed.

(** The [INSERT] draws the next identifier. *)
Lemma inv_insert c phs cur i rq pr st' :
  inv c phs cur ->
  reqs !! i = Some rq -> phs !! i = Some (AtInsert pr) ->
  committed st' = set_orders_seq (committed (cstore c))
                    (orders_seq (committed (cstore c)) + 1) ->
  locks st' = locks (cstore c) ->
  (forall j, j <> i -> txs st' !! j = txs (cstore c) !! j) ->
  txs st' !! i =
    tx_of pid q rq (AtCommit pr (orders_seq (committed (cstore c)) + 1)) ->
  inv {| cstore := st';
         threads := zip_with thr reqs
                      (<[i := AtCommit pr (orders_seq (committed (cstore c)) + 1)]> phs) |}
      (<[i := AtCommit pr (orders_seq (committed (cstore c)) + 1)]> phs) cur.
Proof.
  intros Hinv Hrq Hph Hcm Hlocks Hother Hmine.
  pose proof Hinv as (Hlen & Hth & Htx & Hlk & Hcur & Hprice & Hstock & Hnn
                      & Hseq & Hord & Hrow & Hshort).
  pose proof (lookup_lt_Some _ _ _ Hph) as Hlt.
  set (ph' := AtCommit pr (orders_seq (committed (cstore c)) + 1)) in *.
  unfold invariant. simpl.
  rewrite !(cnt_insert _ _ _ _ ph' Hph). simpl b2z. rewrite Hcm, Hlocks.
  rewrite length_insert. simpl.
  split; [exact Hlen|]. split; [reflexivity|].
  split; [apply (tx_clause c phs i rq (AtInsert pr) ph'); assumption|].
  split.
  { destruct (holder_is c phs cur i _ Hinv Hph eq_refl) as (H1 & Hl).
    right. exists i, ph'. rewrite list_lookup_insert_eq by exact Hlt.
    repeat split; try assumption; lia. }
  split; [exact Hcur|]. split; [exact Hprice|]. split; [lia|].
  split; [exact Hnn|]. split; [lia|]. split; [lia|].
  split.
  { intros j phj pr' Hj Hpr.
    destruct (Nat.eq_dec j i) as [->|Hne].
    - rewrite list_lookup_insert_eq in Hj by exact Hlt. injection Hj as <-.
      exact (Hrow i (AtInsert pr) pr' Hph Hpr).
    - rewrite list_lookup_insert_ne in Hj by congruence.
      exact (Hrow j phj pr' Hj Hpr). }
  intros Hpos. apply Hshort. lia.
Qed.

(** The transaction ends and the lock is released: by [COMMIT] with the
    new row [cur'], or by [ROLLBACK]. *)
Lemma inv_release c phs cur i rq ph ph' st' cur' :
  inv c phs cur ->
  reqs !! i = Some rq -> phs !! i = Some ph -> holds ph = true ->
  holds ph' = false -> row_read ph' = None -> tx_of pid q rq ph' = None ->
  inserted ph' = inserted ph -> short ph' = short ph ->
  locks st' = ∅ ->
  (forall j, j <> i -> txs st' !! j = txs (cstore c) !! j) ->
  txs st' !! i = None ->
  products (committed st') !! pid = Some cur' ->
  p_price cur' = p_price cur ->
  orders_seq (committed st') = orders_seq (committed (cstore c)) ->
  (committed201 ph' = committed201 ph /\ cur' = cur /\
   length (orders (committed st')) = length (orders (committed (cstore c))) \/
   committed201 ph = false /\ committed201 ph' = true /\
   (exists pr, row_read ph = Some pr) /\
   p_stock cur' = p_stock cur - q /\
   length (orders (committed st')) = S (length (orders (committed (cstore c))))) ->
  inv {| cstore := st'; threads := zip_with thr reqs (<[i := ph']> phs) |}
      (<[i := ph']> phs) cur'.
Proof.
  intros Hinv Hrq Hph Hh Hh' Hr' Htx' Hi Hsh Hlocks Hother Hmine Hcur' Hprice'
         Hseq' Hcase.
  pose proof Hinv as (Hlen & Hth & Htx & Hlk & Hcur & Hprice & Hstock & Hnn
                      & Hseq & Hord & Hrow & Hshort).
  pose proof (lookup_lt_Some _ _ _ Hph) as Hlt.
  destruct (holder_is c phs cur i _ Hinv Hph Hh) as (H1 & Hl).
  unfold invariant. simpl.
  rewrite !(cnt_insert _ _ _ _ ph' Hph), Hh, Hh', Hi, Hsh, Hlocks, Hseq'.
  simpl b2z. rewrite length_insert.
  split; [exact Hlen|]. split; [reflexivity|].
  split.
  { apply (tx_clause c phs i rq ph ph'); try assumption. congruence. }
  split; [left; split; [lia|reflexivity]|].
  split; [exact Hcur'|]. split; [congruence|].
  assert (forall j phj pr, <[i := ph']> phs !! j = Some phj ->
                           row_read phj = Some pr -> False) as Hnorow.
  { intros j phj pr Hj Hpr.
    destruct (Nat.eq_dec j i) as [->|Hne].
    - rewrite list_lookup_insert_eq in Hj by exact Hlt. injection Hj as <-.
      congruence.
    - rewrite list_lookup_insert_ne in Hj by congruence.
      assert (holds phj = true) as Hhj by (destruct phj; try discriminate; reflexivity).
      apply Hne. apply (cnt_one _ _ _ _ _ _ H1 Hj Hhj Hph Hh). }
  destruct Hcase as [(Hc & -> & Hlen')|(Hc & Hc' & (pr & Hpr) & Hst' & Hlen')].
  - rewrite Hc, Hlen'.
    split; [lia|]. split; [exact Hnn|]. split; [lia|]. split; [lia|].
    split; [intros j phj pr Hj Hpr; destruct (Hnorow j phj pr Hj Hpr)|].
    intros Hpos. apply Hshort. lia.
  - rewrite Hc, Hc', Hlen'. simpl b2z.
    destruct (Hrow i ph pr Hph Hpr) as (-> & Hle).
    split; [lia|]. split; [lia|]. split; [lia|]. split; [lia|].
    split; [intros j phj pr' Hj Hpr'; destruct (Hnorow j phj pr' Hj Hpr')|].
    intros Hpos. exfalso.
    assert (0 < cnt short phs) as Hpos' by lia.
    specialize (Hshort Hpos'). lia.
Qed.

Lemma lt_stock (s : Z) : lt (of_Z s) (of_Z q) = (s <? q).
Proof. apply lt_int. reflexivity. Qed.

Lemma stock_bound c phs cur : inv c phs cur -> 0 <= p_stock cur <= p_stock p.
Proof.
  intros (_ & _ & _ & _ & _ & _ & Hstock & Hnn & _).
  pose proof (cnt_nonneg committed201 phs). split; [exact Hnn|]. nia.
Qed.

Lemma remaining_int4 c phs cur :
  inv c phs cur -> q <= p_stock cur ->
  to_int4 (remaining q cur) = inr (p_stock cur - q).
Proof.
  intros Hinv Hle. pose proof (stock_bound c phs cur Hinv) as Hb.
  pose proof stock_ok as Hs. unfold remaining.
  rewrite (sub_int _ (inject_Z q) q) by (try reflexivity; lia).
  apply to_int4_of_Z, int4_ok_bounds. lia.
Qed.

(** The next identifier is an [INTEGER] as long as the stock allows
    another order. *)
Lemma next_id_ok c phs cur i pr :
  inv c phs cur -> phs !! i = Some (AtInsert pr) ->
  int4_ok (orders_seq (committed (cstore c)) + 1) = true.
Proof.
  intros Hinv Hph.
  pose proof Hinv as (_ & _ & _ & _ & _ & _ & Hstock & Hnn & Hseq & _ & Hrow & _).
  destruct (holder_is c phs cur i _ Hinv Hph eq_refl) as (H1 & _).
  destruct (Hrow i _ pr Hph eq_refl) as (-> & Hle).
  assert (cnt inserted phs = cnt committed201 phs + cnt at_commit phs) as Hsplit.
  { apply cnt_split. intros []; reflexivity. }
  assert (cnt at_commit phs = 0) as Hnc.
  { apply (no_other_holder phs i (AtInsert cur)); try assumption; try reflexivity.
    intros []; try discriminate; reflexivity. }
  destruct Hfit as (_ & _ & Hlo & Hhi).
  pose proof (cnt_nonneg committed201 phs) as Hc0.
  assert (cnt committed201 phs + 1 <= p_stock p / q) as Hdiv.
  { apply Z.div_le_lower_bound; [exact Hq|]. nia. }
  apply int4_ok_bounds. lia.
Qed.

(** Every step keeps the invariant; a step that is not idle takes one
    operation off the work left, and an idle step is that of a thread
    that cannot move. *)
Lemma step_cases c phs cur i :
  inv c phs cur ->
  (step i c = c /\ ~ enabled i phs) \/
  (exists phs' cur', inv (step i c) phs' cur' /\ (work phs' < work phs)%nat).
Proof.
  intros Hinv.
  pose proof Hinv as (Hlen & Hth & Htx & Hlk & Hcur & Hprice & Hstock & Hnn
                      & Hseq & Hord & Hrow & Hshort).
  destruct (phs !! i) as [ph|] eqn:Hph.
  2:{ left. split; [apply (step_outside c phs i Hth Hlen Hph)|].
      intros (ph & Hph' & _). congruence. }
  pose proof (lookup_lt_Some _ _ _ Hph) as Hlt.
  destruct (lookup_lt_is_Some_2 reqs i) as [rq Hrq]; [lia|].
  pose proof (Htx i rq ph Hrq Hph) as Hmine.
  pose proof (work_insert phs i ph) as Hwork.
  destruct ph as [| | |pr|pr|pr oid| |pr oid| |pr oid|].
  - (* pool.connect() *)
    right. destruct (after_connect rq (units_at i rq Hrq)) as (k & Hk & Hk').
    exists (<[i := AtBegin]> phs), cur. split.
    + rewrite (step_to c phs i rq AtConnect AtBegin unit Connect k (inr tt)
                 (cstore c) Hth Hrq Hph Hk eq_refl Hk').
      apply (inv_quiet c phs cur i rq AtConnect AtBegin); try assumption;
        reflexivity.
    + specialize (Hwork AtBegin Hph). simpl in Hwork. lia.
  - (* BEGIN *)
    right. exists (<[i := AtSelect]> phs), cur. split.
    + erewrite (step_to c phs i rq AtBegin AtSelect unit Begin _ (inr tt));
        try eassumption; try reflexivity.
      2:{ apply exec_begin_at. exact Hmine. }
      apply (inv_quiet c phs cur i rq AtBegin AtSelect); try assumption;
        try reflexivity.
      * intros j Hne. simpl. rewrite lookup_insert_ne by congruence. reflexivity.
      * simpl. rewrite lookup_insert_eq. reflexivity.
    + specialize (Hwork AtSelect Hph). simpl in Hwork. lia.
  - (* SELECT ... FOR UPDATE *)
    destruct pid_ok as (Hpid & _).
    destruct Hlk as [(H0 & Hl)|(h & phh & Hphh & Hhh & H1 & Hl)].
    + right.
      pose proof (exec_select_free (cstore c) i (fst rq) pid cur Hmine Hcur Hpid Hl)
        as Hex.
      destruct (Z.ltb_spec (p_stock cur) q) as [Hshortage|Henough].
      * exists (<[i := AtRollback]> phs), cur. split.
        -- erewrite (step_to c phs i rq AtSelect AtRollback _ _ _ _ _ Hth Hrq Hph
                       eq_refl Hex).
           2:{ cbv beta iota delta [try purchase_check]. rewrite lt_stock.
               destruct (Z.ltb_spec (p_stock cur) q); [reflexivity|lia]. }
           apply (inv_lock c phs cur i rq AtRollback); try assumption.
           left. split; [reflexivity|exact Hshortage].
        -- specialize (Hwork AtRollback Hph). simpl in Hwork. lia.
      * exists (<[i := AtUpdate cur]> phs), cur. split.
        -- erewrite (step_to c phs i rq AtSelect (AtUpdate cur) _ _ _ _ _ Hth Hrq Hph
                       eq_refl Hex).
           2:{ cbv beta iota delta [try purchase_check]. rewrite lt_stock.
               destruct (Z.ltb_spec (p_stock cur) q); [lia|reflexivity]. }
           apply (inv_lock c phs cur i rq (AtUpdate cur)); try assumption.
           right. split; [reflexivity|exact Henough].
        -- specialize (Hwork (AtUpdate cur) Hph). simpl in Hwork. lia.
    + left. assert (h <> i) as Hne by (intros ->; rewrite Hph in Hphh;
                                       injection Hphh as <-; discriminate).
      split.
      * apply (step_stays c phs i rq AtSelect Hth Hrq Hph). right.
        do 3 eexists. split; [reflexivity|].
        apply (exec_select_wait (cstore c) i (fst rq) pid cur h); assumption.
      * intros (ph & Hph' & _ & [Hh|Hh]).
        -- rewrite Hph in Hph'. injection Hph' as <-. discriminate.
        -- lia.
  - (* UPDATE *)
    right. destruct (Hrow i _ pr Hph eq_refl) as (-> & Hle).
    destruct (holder_is c phs cur i _ Hinv Hph eq_refl) as (H1 & Hl).
    destruct pid_ok as (Hpid & _).
    exists (<[i := AtInsert cur]> phs), cur. split.
    + erewrite (step_to c phs i rq (AtUpdate cur) (AtInsert cur) unit _ _ (inr tt));
        try eassumption; try reflexivity.
      2:{ apply (exec_update_at (cstore c) i (fst rq) pid cur _ (p_stock cur - q));
          try assumption.
          apply (remaining_int4 c phs cur Hinv Hle). }
      apply (inv_quiet c phs cur i rq (AtUpdate cur) (AtInsert cur)); try assumption;
        try reflexivity.
      * intros j Hne. simpl. rewrite lookup_insert_ne by congruence. reflexivity.
      * simpl. rewrite lookup_insert_eq. reflexivity.
    + specialize (Hwork (AtInsert cur) Hph). simpl in Hwork. lia.
  - (* INSERT *)
    right. destruct (Hrow i _ pr Hph eq_refl) as (-> & Hle).
    destruct (holder_is c phs cur i _ Hinv Hph eq_refl) as (H1 & Hl).
    destruct pid_ok as (Hpid & _).
    pose proof (stock_bound c phs cur Hinv) as Hb. pose proof stock_ok as Hs.
    pose proof (next_id_ok c phs cur i cur Hinv Hph) as Hid.
    set (oid := orders_seq (committed (cstore c)) + 1) in *.
    assert (to_numeric_12_2 (mul (Number_of_numeric (p_price cur)) (of_Z q)) =
            inr (p_price (set_stock cur (p_stock cur - q) (fst rq)) * q)) as Htot.
    { simpl. apply total_exact; [lia|]. rewrite Hprice.
      destruct Hfit as (_ & H & _). exact H. }
    pose proof (exec_insert_at (cstore c) i (fst rq) pid
                  (set_stock cur (p_stock cur - q) (fst rq))
                  (email_of (snd rq)) q
                  (mul (Number_of_numeric (p_price cur)) (of_Z q))
                  Hmine Hpid Hl (fits_at i rq Hrq)) as Hex.
    specialize (Hex (proj2 (int4_ok_bounds q) ltac:(lia)) Hq Htot Hid).
    cbv zeta in Hex.
    exists (<[i := AtCommit cur oid]> phs), cur. split.
    + erewrite (step_to c phs i rq (AtInsert cur) (AtCommit cur oid) _ _ _ _ _
                  Hth Hrq Hph eq_refl Hex); [|reflexivity].
      apply (inv_insert c phs cur i rq cur); try assumption; try reflexivity.
      * intros j Hne. simpl. rewrite lookup_insert_ne by congruence. reflexivity.
      * simpl. rewrite lookup_insert_eq. reflexivity.
    + specialize (Hwork (AtCommit cur oid) Hph). simpl in Hwork. lia.
  - (* COMMIT *)
    right. destruct (Hrow i _ pr Hph eq_refl) as (-> & Hle).
    destruct (holder_is c phs cur i _ Hinv Hph eq_refl) as (H1 & Hl).
    exists (<[i := AtRelease201 cur oid]> phs),
           (set_stock cur (p_stock cur - q) (fst rq)). split.
    + erewrite (step_to c phs i rq (AtCommit cur oid) (AtRelease201 cur oid)
                  unit Commit _ (inr tt)); try eassumption; try reflexivity.
      2:{ apply exec_commit_at. exact Hmine. }
      apply (inv_release c phs cur i rq (AtCommit cur oid) (AtRelease201 cur oid));
        try assumption; try reflexivity.
      * simpl. rewrite Hl. apply release_own.
      * intros j Hne. simpl. rewrite lookup_delete_ne by congruence. reflexivity.
      * simpl. apply lookup_delete_eq.
      * simpl. apply lookup_union_Some_l. apply lookup_singleton_eq.
      * right. repeat split; try reflexivity; [eexists; reflexivity|].
        simpl. rewrite length_app. simpl. lia.
    + specialize (Hwork (AtRelease201 cur oid) Hph). simpl in Hwork. lia.
  - (* ROLLBACK *)
    right. destruct (holder_is c phs cur i _ Hinv Hph eq_refl) as (H1 & Hl).
    exists (<[i := AtRelease400]> phs), cur. split.
    + erewrite (step_to c phs i rq AtRollback AtRelease400 unit Rollback _ (inr tt));
        try eassumption; try reflexivity.
      apply (inv_release c phs cur i rq AtRollback AtRelease400);
        try assumption; try reflexivity.
      * simpl. rewrite Hl. apply release_own.
      * intros j Hne. simpl. rewrite lookup_delete_ne by congruence. reflexivity.
      * simpl. apply lookup_delete_eq.
      * left. repeat split; reflexivity.
    + specialize (Hwork AtRelease400 Hph). simpl in Hwork. lia.
  - (* client.release() after the order *)
    right. exists (<[i := Done201 pr oid]> phs), cur. split.
    + erewrite (step_to c phs i rq (AtRelease201 pr oid) (Done201 pr oid)
                  unit Release _ (inr tt)); try eassumption; try reflexivity.
      apply (inv_quiet c phs cur i rq (AtRelease201 pr oid) (Done201 pr oid));
        try assumption; reflexivity.
    + specialize (Hwork (Done201 pr oid) Hph). simpl in Hwork. lia.
  - (* client.release() after the refusal *)
    right. exists (<[i := Done400]> phs), cur. split.
    + erewrite (step_to c phs i rq AtRelease400 Done400
                  unit Release _ (inr tt)); try eassumption; try reflexivity.
      apply (inv_quiet c phs cur i rq AtRelease400 Done400);
        try assumption; reflexivity.
    + specialize (Hwork Done400 Hph). simpl in Hwork. lia.
  - left. split.
    + apply (step_stays c phs i rq (Done201 pr oid) Hth Hrq Hph). left.
      eexists. reflexivity.
    + intros (ph & Hph' & Hd & _). rewrite Hph in Hph'. injection Hph' as <-.
      discriminate.
  - left. split.
    + apply (step_stays c phs i rq Done400 Hth Hrq Hph). left.
      eexists. reflexivity.
    + intros (ph & Hph' & Hd & _). rewrite Hph in Hph'. injection Hph' as <-.
      discriminate.
Qed.

(** ** Schedules *)

Lemma inv_launch : inv (launch d reqs) (replicate (length reqs) AtConnect) p.
Proof.
  unfold invariant, launch. simpl.
  assert (forall f, f AtConnect = false ->
                    cnt f (replicate (length reqs) AtConnect) = 0) as Hcnt.
  { intros f Hf. apply cnt_none. intros i x Hi.
    apply lookup_replicate in Hi as (-> & _). exact Hf. }
  rewrite !Hcnt by reflexivity.
  split; [apply length_replicate|].
  split.
  { clear. induction reqs as [|rq l IH]; simpl; [reflexivity|].
    rewrite IH. destruct rq. reflexivity. }
  split.
  { intros i rq ph _ Hph. apply lookup_replicate in Hph as (-> & _).
    simpl. apply lookup_empty. }
  split; [left; split; reflexivity|].
  split; [exact Hp|]. split; [reflexivity|]. split; [lia|].
  split; [exact Hs0|]. split; [lia|]. split; [lia|].
  split.
  { intros i ph pr Hph. apply lookup_replicate in Hph as (-> & _). discriminate. }
  lia.
Qed.

Lemma work_launch : work (replicate (length reqs) AtConnect) = (7 * length reqs)%nat.
Proof. induction (length reqs) as [|n IH]; simpl; [reflexivity|]. rewrite IH. lia. Qed.

Lemma inv_run sched c phs cur :
  inv c phs cur ->
  exists phs' cur', inv (run_schedule sched c) phs' cur' /\
                    (work phs' <= work phs)%nat.
Proof.
  revert c phs cur. induction sched as [|i sched IH]; intros c phs cur Hinv.
  - exists phs, cur. split; [exact Hinv|lia].
  - simpl. destruct (step_cases c phs cur i Hinv)
      as [(Hsame & _)|(phs1 & cur1 & Hinv1 & Hw)].
    + rewrite Hsame. apply (IH c phs cur Hinv).
    + destruct (IH _ _ _ Hinv1) as (phs' & cur' & Hinv' & Hw').
      exists phs', cur'. split; [exact Hinv'|lia].
Qed.

(** A schedule that gives the processor to a thread able to move takes
    work away. *)
Lemma run_progress sched c phs cur :
  inv c phs cur ->
  (exists i, In i sched /\ enabled i phs) ->
  exists phs' cur', inv (run_schedule sched c) phs' cur' /\
                    (work phs' < work phs)%nat.
Proof.
  revert c phs cur. induction sched as [|i sched IH];
    intros c phs cur Hinv (j & Hj & Hen); [destruct Hj|].
  simpl. destruct (step_cases c phs cur i Hinv)
    as [(Hsame & Hnot)|(phs1 & cur1 & Hinv1 & Hw)].
  - rewrite Hsame. apply (IH c phs cur Hinv).
    exists j. split; [|exact Hen].
    destruct Hj as [->|Hj]; [contradiction|exact Hj].
  - destruct (inv_run sched _ _ _ Hinv1) as (phs' & cur' & Hinv' & Hw').
    exists phs', cur'. split; [exact Hinv'|lia].
Qed.

Lemma some_enabled c phs cur :
  inv c phs cur -> (0 < work phs)%nat ->
  exists i, In i (seq 0 (length reqs)) /\ enabled i phs.
Proof.
  intros Hinv Hw.
  pose proof Hinv as (Hlen & _ & _ & Hlk & _).
  destruct Hlk as [(H0 & _)|(h & ph & Hph & Hh & _)].
  - destruct (work_pos phs Hw) as (i & ph & Hph & Hd).
    exists i. split.
    + apply in_seq. pose proof (lookup_lt_Some _ _ _ Hph). lia.
    + exists ph. repeat split; try assumption. right. exact H0.
  - exists h. split.
    + apply in_seq. pose proof (lookup_lt_Some _ _ _ Hph). lia.
    + exists ph. repeat split; try assumption.
      * destruct ph; try discriminate; reflexivity.
      * left. exact Hh.
Qed.

Lemma round_robin_ends k c phs cur :
  inv c phs cur -> (work phs <= k)%nat ->
  exists phs' cur',
    inv (run_schedule (round_robin (length reqs) k) c) phs' cur' /\ work phs' = O.
Proof.
  revert c phs cur. induction k as [|k IH]; intros c phs cur Hinv Hw.
  - exists phs, cur. split; [exact Hinv|lia].
  - simpl. unfold run_schedule. rewrite fold_left_app.
    fold (run_schedule (seq 0 (length reqs)) c).
    fold (run_schedule (round_robin (length reqs) k)
            (run_schedule (seq 0 (length reqs)) c)).
    destruct (Nat.eq_dec (work phs) 0%nat) as [Hz|Hnz].
    + destruct (inv_run (seq 0 (length reqs)) c phs cur Hinv)
        as (phs1 & cur1 & Hinv1 & Hw1).
      apply (IH _ _ _ Hinv1). lia.
    + destruct (run_progress (seq 0 (length reqs)) c phs cur Hinv)
        as (phs1 & cur1 & Hinv1 & Hw1).
      { apply (some_enabled c phs cur Hinv). lia. }
      apply (IH _ _ _ Hinv1). lia.
Qed.

(** ** The threads and their phases *)

Lemma responded_phase rq ph :
  responded (thr rq ph) =
  match ph with
  | Done201 pr oid => Some (answer201 pid q rq pr oid)
  | Done400 => Some insufficient_stock
  | _ => None
  end.
Proof. destruct ph; reflexivity. Qed.

Lemma count_threads (f : thread -> bool) (g : phase -> bool)
    (l : list (Z * purchase_req)) (phs : list phase) st :
  (forall rq ph, f (thr rq ph) = g ph) ->
  length phs = length l ->
  count f {| cstore := st; threads := zip_with thr l phs |} = cnt g phs.
Proof.
  intros Hfg. unfold count. simpl. revert phs.
  induction l as [|rq l IH]; intros [|ph phs] Hlen; try discriminate;
    [reflexivity|].
  simpl in Hlen. injection Hlen as Hlen. specialize (IH phs Hlen).
  simpl zip_with. rewrite filter_cons. simpl cnt. rewrite <- IH.
  rewrite Hfg. destruct (g ph).
  - rewrite decide_True by reflexivity. simpl length. lia.
  - rewrite decide_False by discriminate. lia.
Qed.

Lemma all_responded_done (l : list (Z * purchase_req)) (phs : list phase) st :
  length phs = length l ->
  all_responded {| cstore := st; threads := zip_with thr l phs |} = true ->
  forall i ph, phs !! i = Some ph -> done ph = true.
Proof.
  unfold all_responded. simpl. revert phs.
  induction l as [|rq l IH]; intros [|ph phs] Hlen; try discriminate.
  simpl in Hlen. injection Hlen as Hlen. simpl.
  rewrite responded_phase. intros H. apply andb_true_iff in H as [Hph Hrest].
  intros [|i] ph' Hi; simpl in Hi.
  - injection Hi as <-. destruct ph; try discriminate; reflexivity.
  - apply (IH phs Hlen Hrest i ph' Hi).
Qed.

Lemma done_all_responded (l : list (Z * purchase_req)) (phs : list phase) st :
  length phs = length l -> work phs = O ->
  all_responded {| cstore := st; threads := zip_with thr l phs |} = true.
Proof.
  unfold all_responded. simpl. revert phs.
  induction l as [|rq l IH]; intros [|ph phs] Hlen Hw; try discriminate;
    [reflexivity|].
  simpl in Hlen. injection Hlen as Hlen. simpl in *.
  rewrite responded_phase, (IH phs Hlen) by lia.
  destruct ph; simpl in Hw; try lia; reflexivity.
Qed.

Lemma cnt_ext_in f g (l : list phase) :
  (forall i ph, l !! i = Some ph -> f ph = g ph) -> cnt f l = cnt g l.
Proof.
  induction l as [|a l IH]; intros H; simpl; [reflexivity|].
  rewrite (H 0%nat a eq_refl), IH; [reflexivity|].
  intros i ph Hi. exact (H (S i) ph Hi).
Qed.

Lemma cnt_cover f g (l : list phase) :
  (forall i ph, l !! i = Some ph -> b2z (f ph) + b2z (g ph) = 1) ->
  cnt f l + cnt g l = Z.of_nat (length l).
Proof.
  induction l as [|a l IH]; intros H; simpl length; simpl cnt; [reflexivity|].
  pose proof (H 0%nat a eq_refl) as Ha.
  assert (cnt f l + cnt g l = Z.of_nat (length l)) as IH'
    by (apply IH; intros i ph Hi; exact (H (S i) ph Hi)).
  unfold b2z in Ha. destruct (f a), (g a); lia.
Qed.

(** Once every request has its response: as many orders as the stock
    allows, and a refusal for each other request. *)
Lemma race_outcome c phs cur :
  inv c phs cur ->
  Z.of_nat (length reqs) * q > p_stock p ->
  all_responded c = true ->
  count (has_status 201) c = p_stock p / q /\
  count is_insufficient c = Z.of_nat (length reqs) - p_stock p / q /\
  p_stock cur = p_stock p - p_stock p / q * q /\
  Z.of_nat (length (orders (committed (cstore c)))) =
    Z.of_nat (length (orders d)) + p_stock p / q.
Proof.
  intros Hinv Hmore Hall.
  pose proof Hinv as (Hlen & Hth & _ & _ & _ & _ & Hstock & Hnn & _ & Hord
                      & _ & Hshort).
  destruct c as [st ths]. simpl in *. subst ths.
  pose proof (all_responded_done reqs phs st Hlen Hall) as Hdone.
  rewrite (count_threads (has_status 201) answered201 reqs phs st); [| |exact Hlen].
  2:{ intros rq ph. unfold has_status. rewrite responded_phase.
      destruct ph; reflexivity. }
  rewrite (count_threads is_insufficient answered400 reqs phs st); [| |exact Hlen].
  2:{ intros rq ph. unfold is_insufficient. rewrite responded_phase.
      destruct ph; reflexivity. }
  rewrite (cnt_ext_in answered201 committed201 phs).
  2:{ intros i ph Hi. specialize (Hdone i ph Hi).
      destruct ph; try discriminate; reflexivity. }
  rewrite (cnt_ext_in answered400 short phs).
  2:{ intros i ph Hi. specialize (Hdone i ph Hi).
      destruct ph; try discriminate; reflexivity. }
  assert (cnt committed201 phs + cnt short phs = Z.of_nat (length reqs)) as Hsum.
  { rewrite <- Hlen. apply cnt_cover. intros i ph Hi.
    specialize (Hdone i ph Hi). destruct ph; try discriminate; reflexivity. }
  pose proof (cnt_nonneg committed201 phs) as Ha.
  pose proof (cnt_nonneg short phs) as Hb.
  assert (0 < cnt short phs) as Hpos by nia.
  specialize (Hshort Hpos).
  assert (cnt committed201 phs = p_stock p / q) as Hdiv.
  { apply (Z.div_unique_pos (p_stock p) q _ (p_stock cur)); lia. }
  rewrite <- Hdiv. repeat split; lia.
Qed.

End Invariant.

End RaceFacts.

(* ===================================================================== *)
(** * Concurrent purchases: claims                                        *)
(* ===================================================================== *)

Module RaceClaims.
Import JS JSField PG Handler Conc Spec Race Sample RaceFacts SampleFacts.

(** C2, amended. For every product with initial stock [S >= 0] and every
    number [N] of concurrent purchase requests for [q] units each with
    [N * q > S], valid and such that their order rows fit the columns of
    [orders], under every interleaving of their operations: the stock is
    never negative; once all requests have their response exactly
    [S / q] of them have succeeded and the others have been answered
    "Insufficient stock", the stock is [S - (S / q) * q] and [S / q]
    order rows have been added; and every request does get its response
    when the threads are then served in turn. *)
Theorem race_sells_what_stock_allows d pid p q reqs sched :
  conforms d ->
  products d !! pid = Some p ->
  0 < q ->
  0 <= p_stock p ->
  same_units pid q reqs ->
  rows_fit d q reqs p ->
  Z.of_nat (length reqs) * q > p_stock p ->
  let c := run_schedule sched (launch d reqs) in
  (exists cur,
     products (committed (cstore c)) !! pid = Some cur /\
     0 <= p_stock cur /\
     (all_responded c = true ->
      count (has_status 201) c = p_stock p / q /\
      count is_insufficient c = Z.of_nat (length reqs) - p_stock p / q /\
      p_stock cur = p_stock p - p_stock p / q * q /\
      Z.of_nat (length (orders (committed (cstore c)))) =
        Z.of_nat (length (orders d)) + p_stock p / q)) /\
  all_responded
    (run_schedule (sched ++ round_robin (length reqs) (7 * length reqs))
                  (launch d reqs)) = true.
Proof.
  intros Hd Hp Hq Hs Hu Hfit Hmore c.
  pose proof (inv_launch d pid q reqs p Hp Hs) as H0.
  destruct (inv_run d pid q reqs p Hd Hp Hq Hu Hfit sched _ _ _ H0)
    as (phs & cur & Hinv & Hw).
  fold c in Hinv. split.
  - exists cur.
    pose proof Hinv as (_ & _ & _ & _ & Hcur & _ & _ & Hnn & _).
    split; [exact Hcur|]. split; [exact Hnn|].
    intros Hall. eapply race_outcome; eassumption.
  - unfold run_schedule. rewrite fold_left_app.
    fold (run_schedule sched (launch d reqs)). fold c.
    fold (run_schedule (round_robin (length reqs) (7 * length reqs)) c).
    rewrite work_launch in Hw.
    destruct (round_robin_ends d pid q reqs p Hd Hp Hq Hu Hfit
                (7 * length reqs)%nat c phs cur Hinv Hw)
      as (phs' & cur' & Hinv' & Hw').
    pose proof Hinv' as (Hlen & Hth & _).
    destruct (run_schedule _ c) as [st ths]. simpl in Hth. subst ths.
    apply (done_all_responded pid q reqs phs' st Hlen Hw').
Qed.

Lemma race_sells_what_stock_allows_witness :
  count (has_status 201) (run_schedule (round_robin 3 21) (launch shop three_buyers)) = 2 /\
  count is_insufficient (run_schedule (round_robin 3 21) (launch shop three_buyers)) = 1.
Proof.
  destruct (race_sells_what_stock_allows shop 1 mango 2 three_buyers
              (round_robin 3 21))
    as ((cur & _ & _ & Hout) & _).
  - exact conforms_shop.
  - reflexivity.
  - lia.
  - simpl. lia.
  - repeat constructor.
  - split; [repeat constructor|].
    repeat split; try reflexivity; vm_compute; congruence.
  - vm_compute. reflexivity.
  - destruct Hout as (H201 & H400 & _); [vm_compute; reflexivity|].
    split; [exact H201|exact H400].
Defined.

(** C2 as stated fails: three concurrent requests for two units of a
    product priced 9,999,999,999.99, with five in stock, are all refused
    by the [total_price] column: none succeeds and none is answered
    "Insufficient stock", where the claim promises two successes and one
    refusal for lack of stock. *)
Lemma race_total_overflows :
  let c := run_schedule (round_robin 3 21) (launch jeweller three_buyers) in
  products jeweller !! 1 = Some jewel /\
  Z.of_nat (length three_buyers) * 2 > p_stock jewel /\
  all_responded c = true /\
  count (has_status 201) c = 0 /\ count is_insufficient c = 0 /\
  count (has_status 500) c = 3 /\
  p_stock jewel / 2 = 2.
Proof. vm_compute. repeat split; try reflexivity. Qed.

End RaceClaims.

(* ===================================================================== *)
(** * The purchase operation: further properties                          *)
(* ===================================================================== *)

Module PurchaseMore.
Import JS JSField PG Handler Spec Sample Ledger.
Import JSFacts PGFacts PurchaseFacts SampleFacts.



Lemma exec_rollback_ok sid now st :
  exists st', exec Rollback sid now st = Some (inr tt, st').
Proof. eexists. reflexivity. Qed.







(** A request for [q] units of a product that has them, with an order
    row that fits its columns, is served. *)
Lemma purchase_ok d req pidv pid p q sid now :
  conforms d ->
  productId req = Val pidv -> falsy pidv = false -> to_int4 pidv = inr pid ->
  products d !! pid = Some p ->
  empty (email_of req) = false ->
  qty_of req = of_Z q -> 0 < q <= p_stock p ->
  order_fits d (email_of req) (p_price p) q ->
  run (purchase req) sid now (quiescent d) =
    Some (mkResponse 201
            (PurchaseBody (new_order d pid p (email_of req) q now)
                          (of_Z (p_stock p - q))),
          quiescent (after_purchase d pid p (email_of req) q now),
          purchase_trace pidv (email_of req) (of_Z q) p).
Proof.
  intros Hd Hpid Hf Hid Hp Hem Hqty Hq Hfit.
  destruct (Hd pid p Hp) as (_ & Hstock & _). apply int4_ok_bounds in Hstock.
  assert (to_int4 (qty_of req) = inr q) as Hq4
    by (rewrite Hqty; apply to_int4_of_Z, int4_ok_bounds; lia).
  destruct (purchase_run d req sid now Hd) as (r & st & t & Hrun & Hout).
  rewrite Hrun. clear Hrun.
  destruct Hout as [Hinv|e t pidv' Hpv Herr|pidv' pid' Hpv Hid' Hnone
                   |pidv' pid' p' Hpv Hid' Hp' Hlt
                   |pidv' pid' p' q' Hpv Hid' Hp' Hq' Hb' Hfit'];
    try (rewrite Hpid in Hpv; injection Hpv as <-;
         try (assert (pid' = pid) as -> by congruence);
         try (assert (p' = p) as -> by congruence)).
  - exfalso. rewrite Hpid in Hinv. simpl in Hinv.
    rewrite Hf, Hem, Hqty in Hinv. simpl in Hinv.
    unfold falsy, le, of_Z in Hinv.
    apply orb_true_iff in Hinv as [Hinv|Hinv].
    + apply Qeq_bool_eq in Hinv. apply (inject_Z_injective q 0) in Hinv. lia.
    + apply Qle_bool_iff in Hinv. rewrite <- Zle_Qle in Hinv. lia.
  - exfalso. destruct Herr as [He|(pid' & p' & Hid' & Hp' & _ & Hno)]; [congruence|].
    assert (pid' = pid) as -> by congruence.
    assert (p' = p) as -> by congruence. exact (Hno q Hq4 Hfit).
  - congruence.
  - exfalso. rewrite Hqty in Hlt. unfold of_Z at 2 in Hlt.
    rewrite (lt_int _ _ q) in Hlt by reflexivity.
    apply Z.ltb_lt in Hlt. lia.
  - assert (q' = q) as -> by congruence. rewrite Hqty. reflexivity.
Qed.

(** X2. A purchase served on a store at rest always gets its response,
    with status 201, 400, 404 or 500, and leaves the store at rest: no
    row lock is held and no transaction is open. It leaves the users as
    they were, adds and removes no product, and keeps every order row
    there was, adding at most one. *)
Theorem purchase_ends_at_rest d req sid now :
  conforms d ->
  exists r st t,
    run (purchase req) sid now (quiescent d) = Some (r, st, t) /\
    In (status r) [201; 400; 404; 500] /\
    locks st = ∅ /\ txs st = ∅ /\
    users (committed st) = users d /\
    products_seq (committed st) = products_seq d /\
    dom (products (committed st)) = dom (products d) /\
    exists new, orders (committed st) = orders d ++ new /\
                (length new <= 1)%nat.
Proof.
  intros Hd.
  destruct (purchase_run d req sid now Hd) as (r & st & t & Hrun & Hout).
  exists r, st, t. split; [exact Hrun|].
  destruct Hout as [Hinv|e t pidv Hpv Herr|pidv pid Hpv Hid Hnone
                   |pidv pid p Hpv Hid Hp Hlt
                   |pidv pid p q Hpv Hid Hp Hq Hb Hfit];
    (split; [simpl; auto 6|]); repeat (split; [reflexivity|]).
  1-4: exists []; rewrite app_nil_r; split; [reflexivity|simpl; lia].
  split.
  - simpl. apply dom_insert_lookup_L. rewrite Hp. eexists. reflexivity.
  - eexists. split; [reflexivity|]. simpl. lia.
Qed.

Lemma purchase_ends_at_rest_witness :
  exists r st t,
    run (purchase two_mangos) 0 1000 (quiescent shop) = Some (r, st, t) /\
    locks st = ∅ /\ txs st = ∅.
Proof.
  destruct (purchase_ends_at_rest shop two_mangos 0%nat 1000 conforms_shop)
    as (r & st & t & Hrun & _ & Hl & Ht & _).
  exists r, st, t. repeat split; assumption.
Defined.

(** X3. A purchase answers 201 only when the stock covered the
    quantity: the order it returns is for [0 < q <= stock] units of an
    existing product, the stock of that product goes down by exactly [q]
    at an unchanged price, the remaining stock returned is the stock
    stored, the order gets the next identifier of the sequence, and no
    other product row changes. *)
Theorem purchase_success_sound d req sid now r st t :
  conforms d ->
  run (purchase req) sid now (quiescent d) = Some (r, st, t) ->
  status r = 201 ->
  exists pid p p' o,
    products d !! pid = Some p /\
    products (committed st) !! pid = Some p' /\
    body r = PurchaseBody o (of_Z (p_stock p')) /\
    o_product_id o = pid /\
    0 < o_quantity o <= p_stock p /\
    p_stock p' = p_stock p - o_quantity o /\
    p_price p' = p_price p /\ p_updated_at p' = now /\
    orders (committed st) = orders d ++ [o] /\
    o_id o = orders_seq d + 1 /\ o_created_at o = now /\
    orders_seq (committed st) = orders_seq d + 1 /\
    forall id, id <> pid ->
      products (committed st) !! id = products d !! id.
Proof.
  intros Hd Hrun Hst.
  destruct (purchase_run d req sid now Hd) as (r' & st' & t' & Hrun' & Hout).
  rewrite Hrun in Hrun'. injection Hrun' as <- <- <-.
  destruct Hout as [Hinv|e t pidv Hpv Herr|pidv pid Hpv Hid Hnone
                   |pidv pid p Hpv Hid Hp Hlt
                   |pidv pid p q Hpv Hid Hp Hq Hb Hfit];
    try discriminate.
  exists pid, p, (set_stock p (p_stock p - q) now),
         (new_order d pid p (email_of req) q now).
  simpl. rewrite lookup_insert_eq.
  repeat split; try assumption; try reflexivity; try lia.
  intros id Hne. apply lookup_insert_ne. congruence.
Qed.

Lemma purchase_success_sound_witness :
  exists p', products (after_purchase shop 1 mango "a@b.com" 2 1000) !! 1
               = Some p' /\ p_stock p' = 3.
Proof.
  assert (run (purchase two_mangos) 0 1000 (quiescent shop) =
          Some (mkResponse 201 (PurchaseBody two_mangos_order (of_Z 3)),
                quiescent (after_purchase shop 1 mango "a@b.com" 2 1000),
                purchase_trace (of_Z 1) "a@b.com" (of_Z 2) mango)) as Hrun
    by (vm_compute; reflexivity).
  destruct (purchase_success_sound shop two_mangos 0%nat 1000 _ _ _
              conforms_shop Hrun eq_refl)
    as (pid & p & p' & o & Hp & Hp' & Hbody & Hpid & Hq & Hs & _).
  simpl in Hbody. injection Hbody as <- _. simpl in Hpid. subst pid.
  exists p'. split; [exact Hp'|].
  assert (p = mango) as -> by (change (Some mango = Some p) in Hp; congruence).
  simpl in Hs. exact Hs.
Defined.



Lemma positive_passes q :
  lt (of_Z 0) q = true -> falsy q = false /\ le q (of_Z 0) = false.
Proof.
  destruct q as [|[]|x]; simpl; try discriminate; [split; reflexivity|].
  intros H. apply negb_true_iff in H. apply not_true_iff_false in H.
  rewrite Qle_bool_iff in H. split; apply not_true_iff_false; intros H'.
  - apply Qeq_bool_eq in H'. apply H. rewrite H'. apply Qle_refl.
  - apply Qle_bool_iff in H'. exact (H H').
Qed.

(** X5. A quantity that is positive and within the stock but is not an
    integer is not refused by the validation of the handler; the store
    refuses it, so the answer is 500 "Purchase failed" and nothing is
    changed. *)
Theorem purchase_refuses_fraction d req pid p q sid now :
  conforms d ->
  productId req = Val (of_Z pid) ->
  products d !! pid = Some p ->
  empty (email_of req) = false ->
  quantity req = Val q ->
  lt (of_Z 0) q = true ->
  lt (of_Z (p_stock p)) q = false ->
  (forall z, to_int4 q <> inr z) ->
  exists e t,
    run (purchase req) sid now (quiescent d) =
      Some (mkResponse 500 (ErrorBody "Purchase failed" (Some e)),
            quiescent d, t).
Proof.
  intros Hd Hpid Hp Hem Hq Hpos Hle Hfrac.
  destruct (positive_passes q Hpos) as [Hf Hle0].
  assert (qty_of req = q) as Hqty.
  { unfold qty_of, num_or. rewrite Hq, Hf. reflexivity. }
  destruct (Hd pid p Hp) as (Hb & _).
  assert (to_int4 (of_Z pid) = inr pid) as Hid
    by (apply to_int4_of_Z, int4_ok_bounds; lia).
  destruct (purchase_run d req sid now Hd) as (r & st & t & Hrun & Hout).
  rewrite Hrun. clear Hrun.
  destruct Hout as [Hinv|e t pidv Hpv Herr|pidv pid' Hpv Hid' Hnone
                   |pidv pid' p' Hpv Hid' Hp' Hlt
                   |pidv pid' p' q' Hpv Hid' Hp' Hq' Hb' Hfit'];
    try (rewrite Hpid in Hpv; injection Hpv as <-;
         try (assert (pid' = pid) as -> by congruence);
         try (assert (p' = p) as -> by congruence)).
  - exfalso. rewrite Hqty, Hpid, Hem, Hf, Hle0 in Hinv. simpl in Hinv.
    unfold falsy, of_Z in Hinv. rewrite !orb_false_r in Hinv.
    apply Qeq_bool_eq in Hinv. apply (inject_Z_injective pid 0) in Hinv. lia.
  - exists e, t. reflexivity.
  - congruence.
  - congruence.
  - exfalso. rewrite Hqty in Hq'. exact (Hfrac q' Hq').
Qed.

Lemma purchase_refuses_fraction_witness :
  exists e t,
    run (purchase {| productId := Val (of_Z 1); buyerEmail := Val "a@b.com";
                     quantity := Val (Fin (3 # 2)) |}) 0 1000 (quiescent shop) =
      Some (mkResponse 500 (ErrorBody "Purchase failed" (Some e)),
            quiescent shop, t).
Proof.
  apply (purchase_refuses_fraction shop _ 1 mango (Fin (3 # 2)) 0%nat 1000);
    try reflexivity.
  - exact conforms_shop.
  - intros z. vm_compute. discriminate.
Defined.

(** X6. A quantity that is missing, [null] or zero is not refused: the
    request is served as a request for one unit. With a product that has
    a unit left the answer is 201, the order is for one unit at the unit
    price, and the stock goes down by one. *)
Theorem purchase_defaults_to_one_unit d req pid p sid now :
  conforms d ->
  productId req = Val (of_Z pid) ->
  products d !! pid = Some p ->
  empty (email_of req) = false ->
  no_num (quantity req) = true ->
  1 <= p_stock p ->
  order_fits d (email_of req) (p_price p) 1 ->
  run (purchase req) sid now (quiescent d) =
    Some (mkResponse 201
            (PurchaseBody (new_order d pid p (email_of req) 1 now)
                          (of_Z (p_stock p - 1))),
          quiescent (after_purchase d pid p (email_of req) 1 now),
          purchase_trace (of_Z pid) (email_of req) (of_Z 1) p).
Proof.
  intros Hd Hpid Hp Hem Hno Hs Hfit.
  destruct (Hd pid p Hp) as (Hb & _).
  apply (purchase_ok d req (of_Z pid) pid p 1 sid now); try assumption.
  - unfold falsy, of_Z. apply not_true_iff_false. intros H.
    apply Qeq_bool_eq in H. apply (inject_Z_injective pid 0) in H. lia.
  - apply to_int4_of_Z, int4_ok_bounds. lia.
  - unfold qty_of, num_or. destruct (quantity req) as [| |v]; try reflexivity.
    simpl in Hno. rewrite Hno. reflexivity.
  - lia.
Qed.

Lemma purchase_defaults_to_one_unit_witness :
  run (purchase {| productId := Val (of_Z 1); buyerEmail := Val "a@b.com";
                   quantity := Val (of_Z 0) |}) 0 1000 (quiescent shop) =
    Some (mkResponse 201
            (PurchaseBody (new_order shop 1 mango "a@b.com" 1 1000) (of_Z 4)),
          quiescent (after_purchase shop 1 mango "a@b.com" 1 1000),
          purchase_trace (of_Z 1) "a@b.com" (of_Z 1) mango).
Proof.
  apply (purchase_defaults_to_one_unit shop
           {| productId := Val (of_Z 1); buyerEmail := Val "a@b.com";
              quantity := Val (of_Z 0) |} 1 mango 0%nat 1000);
    try reflexivity.
  - exact conforms_shop.
  - simpl. lia.
  - repeat split; reflexivity.
Defined.

End PurchaseMore.

(* ===================================================================== *)
(** * Amounts between JavaScript and the store                            *)
(* ===================================================================== *)

Module NumericMore.
Import JS JSFacts PG PGFacts Sample.

Local Open Scope Q_scope.

(** The binary64 value nearest to an amount of [c] hundredths, for [c]
    below [10^12] in absolute value, with its distance to the amount. *)
Lemma amount_near (c : Z) :
  (Z.abs c < 10 ^ 12)%Z ->
  exists y, rnd (c # 100) = Fin y /\
            - (1 # 1000) <= y * 100 - inject_Z c <= 1 # 1000.
Proof.
  intros Hc.
  pose proof u53_value as Hu. pose proof eta_small as He.
  assert (0 < eta) as He0 by apply pow2_pos.
  set (P := c # 100).
  assert (P * 100 == inject_Z c) as HP.
  { subst P. unfold Qeq, Qmult, inject_Z. simpl. lia. }
  assert (- (10 ^ 12) < P * 100 < 10 ^ 12) as HPb.
  { rewrite HP. change (10 ^ 12) with (inject_Z (10 ^ 12)).
    rewrite <- inject_Z_opp, <- !Zlt_Qlt. lia. }
  assert (exists sP, 0 <= sP /\ Qabs P == sP /\ sP < 10 ^ 10)
    as (sP & HsP0 & HaP & HsPb).
  { destruct (Qlt_le_dec P 0).
    - exists (- P). split; [lra|]. split; [apply Qabs_neg; lra|lra].
    - exists P. split; [lra|]. split; [apply Qabs_pos; lra|lra]. }
  pose proof product_below_overflow as Hbig.
  destruct (rnd_finite P) as [y Hy].
  { rewrite HaP. lra. }
  exists y. split; [exact Hy|].
  pose proof (rnd_Fin_near _ _ Hy) as Hn. rewrite HaP, Hu in Hn.
  rewrite <- HP. clearbody P. lra.
Qed.

Lemma amount_stored (c : Z) :
  (Z.abs c < 10 ^ 12)%Z -> to_numeric_12_2 (rnd (c # 100)) = inr c.
Proof.
  intros Hc. destruct (amount_near c Hc) as (y & Hy & Hn). rewrite Hy.
  pose proof u53_value as Hu. pose proof eta_small as He.
  assert (0 < eta) as He0 by apply pow2_pos.
  assert (- (10 ^ 12) < inject_Z c < 10 ^ 12) as Hcb.
  { change (10 ^ 12) with (inject_Z (10 ^ 12)).
    rewrite <- inject_Z_opp, <- !Zlt_Qlt. lia. }
  unfold to_numeric_12_2.
  pose proof (to_decimal_near y) as Hdn. cbv zeta in Hdn. rewrite Hu in Hdn.
  set (d := to_decimal y) in *. clearbody d.
  assert (round_half_away (d * 100) = c) as ->.
  { apply round_half_away_near.
    destruct (Qlt_le_dec d 0).
    - rewrite Qabs_neg in Hdn by lra. lra.
    - rewrite Qabs_pos in Hdn by lra. lra. }
  assert ((Z.abs c <? 10 ^ 12)%Z = true) as -> by (apply Z.ltb_lt; exact Hc).
  reflexivity.
Qed.

Lemma amount_fixed (c : Z) :
  (Z.abs c < 10 ^ 12)%Z -> toFixed2 (rnd (c # 100)) = Hundredths c.
Proof.
  intros Hc. destruct (amount_near c Hc) as (y & Hy & Hn). rewrite Hy.
  assert (- (10 ^ 12) < inject_Z c < 10 ^ 12) as Hcb.
  { change (10 ^ 12) with (inject_Z (10 ^ 12)).
    rewrite <- inject_Z_opp, <- !Zlt_Qlt. lia. }
  unfold toFixed2.
  assert (Qle_bool (pow10 21) (Qabs y) = false) as ->.
  { apply not_true_iff_false. intros H. apply Qle_bool_iff in H.
    unfold pow10 in H.
    destruct (Qlt_le_dec y 0).
    - rewrite Qabs_neg in H by lra. lra.
    - rewrite Qabs_pos in H by lra. lra. }
  rewrite (round_half_away_near (y * 100) c) by lra. reflexivity.
Qed.

(** X7. Amounts of money survive the passage through JavaScript
    numbers. A [NUMERIC(12,2)] value read from the store by [Number(...)],
    or sent by a client as the number nearest to an amount with two
    decimals, is stored in a [NUMERIC(12,2)] column as exactly that
    amount, and [toFixed(2)] renders exactly that amount. *)
Theorem amounts_round_trip (c : Z) :
  (Z.abs c < 10 ^ 12)%Z ->
  to_numeric_12_2 (Number_of_numeric c) = inr c /\
  toFixed2 (Number_of_numeric c) = Hundredths c.
Proof.
  intros Hc. unfold Number_of_numeric. split.
  - apply amount_stored. exact Hc.
  - apply amount_fixed. exact Hc.
Qed.

Lemma amounts_round_trip_witness :
  to_numeric_12_2 (Number_of_numeric 1999) = inr 1999%Z /\
  toFixed2 (Number_of_numeric 1999) = Hundredths 1999.
Proof. apply (amounts_round_trip 1999). vm_compute. reflexivity. Defined.

End NumericMore.

(* ===================================================================== *)
(** * The creation of a product: further properties                       *)
(* ===================================================================== *)

Module ProductMore.
Import JS JSField PG Handler Spec Sample Ledger.
Import JSFacts PGFacts PurchaseFacts SampleFacts PurchaseMore.

(** The tables after product [p] has been inserted. *)
Lemma write_new_product d sid id p :
  write_product (set_committed (quiescent d) (set_products_seq d id)) sid id p =
  quiescent {| users := users d; products := <[id := p]> (products d);
               orders := orders d; products_seq := id;
               orders_seq := orders_seq d |}.
Proof.
  unfold write_product, set_committed, quiescent. simpl.
  rewrite lookup_empty. reflexivity.
Qed.

Lemma filter_In_head {A : Type} (f : A -> bool) (l : list A) x rest :
  filter (fun a => f a = true) l = x :: rest -> In x l /\ f x = true.
Proof.
  intros H.
  assert (x ∈ filter (fun a => f a = true) l) as Hin by (rewrite H; left).
  apply list_elem_of_filter in Hin as [Hf Hin].
  split; [apply list_elem_of_In; exact Hin|exact Hf].
Qed.

(** Every way the creation of a product served on a store at rest can
    end: with another answer than 201 and the tables as they were, or
    with the new row, made of the values of the request as their columns
    take them. *)
Lemma create_product_cases d req sid now :
  exists r d' t,
    run (create_product req) sid now (quiescent d) = Some (r, quiescent d', t) /\
    ((In (status r) [400; 404; 500] /\ d' = d) \/
     (exists u p,
        r = mkResponse 201 (ProductBody (products_seq d + 1) p) /\
        d' = after_creation d p /\
        int4_ok (products_seq d + 1) = true /\
        In u (users d) /\ user_matches (norm_email (r_email req)) u = true /\
        p_user_id p = u_id u /\
        to_varchar 255 (str_or_empty (r_name req)) = inr (p_name p) /\
        to_text (str_or_empty (r_description req)) = inr (p_description p) /\
        to_numeric_12_2 (Number (r_price req)) = inr (p_price p) /\
        to_varchar 100 (str_or_empty (r_category req)) = inr (p_category p) /\
        to_int4 (num_or (r_stock req) (of_Z 0)) = inr (p_stock p) /\
        image_text (image_or_null (r_imageUrl req)) = inr (p_image_url p) /\
        p_created_at p = now /\ p_updated_at p = now /\
        required_missing req = false)).
Proof.
  unfold create_product, required_missing.
  destruct (empty _ || _ || _ || _ || _).
  { do 3 eexists. split; [reflexivity|]. left. split; [simpl; auto|reflexivity]. }
  rewrite run_Do. cbn [exec]. simpl committed.
  destruct (filter _ (users d)) as [|u rest] eqn:Hf;
    cbv beta iota delta [try_product map].
  { do 3 eexists. split; [reflexivity|]. left. split; [simpl; auto|reflexivity]. }
  apply filter_In_head in Hf as [Hin Hu].
  rewrite run_Do. unfold exec. fold (image_text (image_or_null (r_imageUrl req))).
  change (Number (Val (num_or (r_stock req) (of_Z 0))))
    with (num_or (r_stock req) (of_Z 0)).
  change (committed (quiescent d)) with d.
  assert (existsb (fun u0 => u_id u0 =? u_id u) (users d) = true) as ->.
  { apply existsb_exists. exists u. split; [exact Hin|apply Z.eqb_refl]. }
  destruct (to_varchar 255 _) as [e|nm] eqn:Hnm;
    [do 3 eexists; split; [reflexivity|left; split; [simpl; auto|reflexivity]]|].
  destruct (to_text _) as [e|de] eqn:Hde;
    [do 3 eexists; split; [reflexivity|left; split; [simpl; auto|reflexivity]]|].
  destruct (to_numeric_12_2 _) as [e|price] eqn:Hprice;
    [do 3 eexists; split; [reflexivity|left; split; [simpl; auto|reflexivity]]|].
  destruct (to_varchar 100 _) as [e|cat] eqn:Hcat;
    [do 3 eexists; split; [reflexivity|left; split; [simpl; auto|reflexivity]]|].
  destruct (to_int4 _) as [e|stock] eqn:Hstock;
    [do 3 eexists; split; [reflexivity|left; split; [simpl; auto|reflexivity]]|].
  destruct (image_text _) as [e|img] eqn:Himg;
    [do 3 eexists; split; [reflexivity|left; split; [simpl; auto|reflexivity]]|].
  destruct (int4_ok (products_seq d + 1)) eqn:Hseq; cbn [negb];
    [|do 3 eexists; split; [reflexivity|left; split; [simpl; auto|reflexivity]]].
  rewrite write_new_product. cbv beta iota delta [try_product run fst snd].
  do 3 eexists. split; [reflexivity|]. right.
  eexists u, _. split; [reflexivity|]. split; [reflexivity|].
  simpl. unfold current_timestamp. simpl. rewrite lookup_empty.
  repeat split; try assumption; reflexivity.
Qed.


Lemma filter_none {A : Type} (f : A -> bool) (l : list A) :
  (forall y, In y l -> f y = false) ->
  filter (fun a => f a = true) l = [].
Proof.
  induction l as [|x l IH]; intros H; [reflexivity|].
  rewrite filter_cons, decide_False.
  - apply IH. intros y Hy. apply H. right. exact Hy.
  - rewrite (H x) by (left; reflexivity). discriminate.
Qed.

Lemma unique_match (l : list user) u email :
  NoDup (map u_email l) -> In u l -> user_matches email u = true ->
  filter (fun x => user_matches email x = true) l = [u].
Proof.
  intros Hnd Hin Hu.
  assert (u_email u = email) as He.
  { unfold user_matches in Hu. apply andb_true_iff in Hu as [Hu _].
    apply String.eqb_eq in Hu. exact Hu. }
  induction l as [|x l IH]; [destruct Hin|].
  simpl in Hnd. apply NoDup_cons in Hnd as [Hx Hnd].
  rewrite filter_cons. destruct Hin as [->|Hin].
  - rewrite decide_True by exact Hu. f_equal.
    apply filter_none. intros y Hy. apply not_true_iff_false. intros Hm.
    unfold user_matches in Hm. apply andb_true_iff in Hm as [Hm _].
    apply String.eqb_eq in Hm. apply Hx. rewrite He, <- Hm.
    apply list_elem_of_In, in_map. exact Hy.
  - rewrite decide_False; [apply IH; assumption|].
    intros Hm. unfold user_matches in Hm. apply andb_true_iff in Hm as [Hm _].
    apply String.eqb_eq in Hm. apply Hx. rewrite Hm, <- He.
    apply list_elem_of_In, in_map. exact Hin.
Qed.


(** X9. The creation of a product for an e-mail that belongs to no user
    with the role of a seller or a customer is answered 404 "User not
    found" after the one lookup, and nothing is stored. The e-mail is
    compared after trimming and lower-casing. *)
Theorem create_product_unknown_seller d req sid now :
  required_missing req = false ->
  has_nul (norm_email (r_email req)) = false ->
  (forall u, In u (users d) -> u_email u = norm_email (r_email req) ->
             u_role u <> "seller"%string /\ u_role u <> "customer"%string) ->
  run (create_product req) sid now (quiescent d) =
    Some (mkResponse 404 (ErrorBody "User not found" None), quiescent d,
          [ev (SelectUserId (norm_email (r_email req)))]).
Proof.
  intros Hf _ Hnone. unfold create_product. unfold required_missing in Hf.
  rewrite Hf.
  rewrite run_Do. cbn [exec]. simpl committed.
  rewrite filter_none; [reflexivity|].
  intros u Hin. unfold user_matches.
  destruct (String.eqb_spec (u_email u) (norm_email (r_email req))) as [He|];
    [|reflexivity].
  destruct (Hnone u Hin He) as [H1 H2].
  apply String.eqb_neq in H1, H2. rewrite H1, H2. reflexivity.
Qed.

Lemma create_product_unknown_seller_witness :
  run (create_product
         {| r_email := Val "Nobody@shop.ph"; r_name := Val "Lanzones";
            r_description := Val "Fresh"; r_price := Val (of_Z 50);
            r_category := Val "fruit"; r_stock := Absent;
            r_imageUrl := Absent |}) 0 1000 (quiescent shop) =
    Some (mkResponse 404 (ErrorBody "User not found" None), quiescent shop,
          [ev (SelectUserId "nobody@shop.ph")]).
Proof.
  apply (create_product_unknown_seller shop
           {| r_email := Val "Nobody@shop.ph"; r_name := Val "Lanzones";
              r_description := Val "Fresh"; r_price := Val (of_Z 50);
              r_category := Val "fruit"; r_stock := Absent;
              r_imageUrl := Absent |} 0%nat 1000); try reflexivity.
  intros u [<-|[]]. discriminate.
Defined.

(** X10. The creation of a product with its required fields, for the
    user of that e-mail (a seller or a customer), with values that fit
    their columns, is answered 201 with the new row: its identifier is
    the next of the sequence, its owner is that user, its price is the
    number sent rounded to hundredths, its stock is the number sent or 0
    without one, its image is [NULL] without one, and both its
    timestamps are the time of the request. No other row changes. *)
Theorem create_product_stores d req u nm de price cat stock img sid now :
  required_missing req = false ->
  NoDup (map u_email (users d)) ->
  In u (users d) ->
  user_matches (norm_email (r_email req)) u = true ->
  to_varchar 255 (str_or_empty (r_name req)) = inr nm ->
  to_text (str_or_empty (r_description req)) = inr de ->
  to_numeric_12_2 (Number (r_price req)) = inr price ->
  to_varchar 100 (str_or_empty (r_category req)) = inr cat ->
  to_int4 (num_or (r_stock req) (of_Z 0)) = inr stock ->
  image_text (image_or_null (r_imageUrl req)) = inr img ->
  int4_ok (products_seq d + 1) = true ->
  let p := {| p_user_id := u_id u; p_name := nm; p_description := de;
              p_price := price; p_category := cat; p_stock := stock;
              p_image_url := img; p_created_at := now;
              p_updated_at := now |} in
  run (create_product req) sid now (quiescent d) =
    Some (mkResponse 201 (ProductBody (products_seq d + 1) p),
          quiescent (after_creation d p),
          [ev (SelectUserId (norm_email (r_email req)));
           ev (InsertProduct (u_id u) (str_or_empty (r_name req))
                 (str_or_empty (r_description req)) (Number (r_price req))
                 (str_or_empty (r_category req))
                 (Number (Val (num_or (r_stock req) (of_Z 0))))
                 (image_or_null (r_imageUrl req)))]).
Proof.
  intros Hf Hnd Hin Hu Hnm Hde Hprice Hcat Hstock Himg Hseq p.
  unfold create_product. unfold required_missing in Hf. rewrite Hf.
  rewrite run_Do. cbn [exec]. simpl committed.
  rewrite (unique_match _ u _ Hnd Hin Hu). cbv beta iota delta [try_product map].
  rewrite run_Do. unfold exec.
  fold (image_text (image_or_null (r_imageUrl req))).
  change (Number (Val (num_or (r_stock req) (of_Z 0))))
    with (num_or (r_stock req) (of_Z 0)).
  change (committed (quiescent d)) with d.
  rewrite Hnm, Hde, Hprice, Hcat, Hstock, Himg, Hseq. cbn [negb].
  assert (existsb (fun u0 => u_id u0 =? u_id u) (users d) = true) as ->.
  { apply existsb_exists. exists u. split; [exact Hin|apply Z.eqb_refl]. }
  cbn [negb]. rewrite write_new_product.
  unfold current_timestamp. simpl. rewrite lookup_empty. reflexivity.
Qed.

Lemma create_product_stores_witness :
  exists st t,
    run (create_product
           {| r_email := Val " Ana@Shop.ph"; r_name := Val "Lanzones";
              r_description := Val "Fresh"; r_price := Val (Fin (1999 # 100));
              r_category := Val "fruit"; r_stock := Absent;
              r_imageUrl := Absent |}) 0 1000 (quiescent shop) =
      Some (mkResponse 201
              (ProductBody 2
                 {| p_user_id := 7; p_name := "Lanzones";
                    p_description := "Fresh"; p_price := 1999;
                    p_category := "fruit"; p_stock := 0;
                    p_image_url := None; p_created_at := 1000;
                    p_updated_at := 1000 |}), st, t).
Proof.
  do 2 eexists.
  apply (create_product_stores shop
           {| r_email := Val " Ana@Shop.ph"; r_name := Val "Lanzones";
              r_description := Val "Fresh"; r_price := Val (Fin (1999 # 100));
              r_category := Val "fruit"; r_stock := Absent;
              r_imageUrl := Absent |} ana "Lanzones" "Fresh" 1999 "fruit" 0 None
           0%nat 1000); try reflexivity.
  - simpl. apply NoDup_singleton.
  - left. reflexivity.
Defined.

End ProductMore.

(* ===================================================================== *)
(** * The tables over a sequence of requests: invariants                  *)
(* ===================================================================== *)

Module LedgerFacts.
Import JS JSField PG Handler Spec Sample Ledger.
Import JSFacts PGFacts PurchaseFacts SampleFacts PurchaseMore ProductMore.



Lemma to_numeric_bound x c : to_numeric_12_2 x = inr c -> Z.abs c < 10 ^ 12.
Proof.
  unfold to_numeric_12_2. destruct x as [| |q]; try discriminate.
  destruct (Z.abs _ <? 10 ^ 12) eqn:H; [|discriminate].
  intros [= <-]. apply Z.ltb_lt. exact H.
Qed.

Lemma to_int4_ok x z : to_int4 x = inr z -> int4_ok z = true.
Proof. intros H. apply to_int4_inr in H as (q & _ & _ & H). exact H. Qed.












Lemma constraints_shop : constraints shop.
Proof.
  constructor; simpl.
  - apply NoDup_singleton.
  - apply NoDup_singleton.
  - exact conforms_shop.
  - apply map_Forall_singleton. split; [simpl; lia|].
    split; [exists ana; split; [left; reflexivity|reflexivity]|].
    split; simpl; lia.
  - lia.
  - constructor.
  - constructor.
  - lia.
Qed.








(** X15. A product that has been created can be bought. After a
    creation answered 201 with product [p] under identifier [id], a
    valid request for [0 < q <= stock] units of [id] whose order row fits
    its columns is answered 201: the order is for [q] units of [id], its
    total is the price stored for [p] times [q], and the stock becomes
    the stock stored minus [q]. *)
Theorem created_product_can_be_bought d req sid now id p st t buy q sid' now' :
  conforms d -> 0 <= products_seq d ->
  run (create_product req) sid now (quiescent d) =
    Some (mkResponse 201 (ProductBody id p), st, t) ->
  productId buy = Val (of_Z id) ->
  empty (email_of buy) = false ->
  quantity buy = Val (of_Z q) ->
  0 < q <= p_stock p ->
  order_fits (committed st) (email_of buy) (p_price p) q ->
  exists o st' t',
    run (purchase buy) sid' now' st =
      Some (mkResponse 201 (PurchaseBody o (of_Z (p_stock p - q))), st', t') /\
    o_product_id o = id /\ o_quantity o = q /\
    o_total_price o = p_price p * q /\
    products (committed st') !! id = Some (set_stock p (p_stock p - q) now').
Proof.
  intros Hd Hseq0 Hrun Hpid Hem Hqv Hq Hfit.
  destruct (create_product_cases d req sid now) as (r & d' & t1 & Hrun' & Hc).
  rewrite Hrun in Hrun'. injection Hrun' as <- -> <-.
  destruct Hc as [[Hs _]|(u & p1 & Hr & -> & Hseq & _ & _ & _ & _ & _ & Hprice
                          & _ & Hstock & _)].
  { simpl in Hs. destruct Hs as [|[|[|[]]]]; discriminate. }
  injection Hr as -> <-.
  assert (conforms (after_creation d p)) as Hd'.
  { unfold conforms. simpl. apply map_Forall_insert_2; [|exact Hd].
    apply int4_ok_bounds in Hseq. split; [lia|].
    split; [apply (to_int4_ok _ _ Hstock)|apply (to_numeric_bound _ _ Hprice)]. }
  apply int4_ok_bounds in Hseq.
  assert (qty_of buy = of_Z q) as Hqty.
  { unfold qty_of, num_or. rewrite Hqv. unfold falsy, of_Z.
    destruct (Qeq_bool (inject_Z q) 0) eqn:Hz; [|reflexivity].
    apply Qeq_bool_eq in Hz. apply (inject_Z_injective q 0) in Hz. lia. }
  do 3 eexists. split.
  - apply (purchase_ok (after_creation d p) buy (of_Z (products_seq d + 1))
             (products_seq d + 1) p q sid' now'); try assumption.
    + unfold falsy, of_Z. apply not_true_iff_false. intros H.
      apply Qeq_bool_eq in H.
      apply (inject_Z_injective (products_seq d + 1) 0) in H. lia.
    + apply to_int4_of_Z, int4_ok_bounds. lia.
    + simpl. apply lookup_insert_eq.
  - simpl. rewrite lookup_insert_eq. repeat split; reflexivity.
Qed.

Lemma created_product_can_be_bought_witness :
  exists o st' t',
    run (purchase {| productId := Val (of_Z 2); buyerEmail := Val "a@b.com";
                     quantity := Val (of_Z 3) |}) 1 1001
        (quiescent
           (after_creation shop
              {| p_user_id := 7; p_name := "Lanzones"; p_description := "Fresh";
                 p_price := 1999; p_category := "fruit"; p_stock := 4;
                 p_image_url := None; p_created_at := 1000;
                 p_updated_at := 1000 |})) =
      Some (mkResponse 201 (PurchaseBody o (of_Z 1)), st', t') /\
    o_total_price o = 5997.
Proof.
  destruct (created_product_can_be_bought shop
              {| r_email := Val "ana@shop.ph"; r_name := Val "Lanzones";
                 r_description := Val "Fresh"; r_price := Val (Fin (1999 # 100));
                 r_category := Val "fruit"; r_stock := Val (of_Z 4);
                 r_imageUrl := Absent |} 0%nat 1000 2
              {| p_user_id := 7; p_name := "Lanzones"; p_description := "Fresh";
                 p_price := 1999; p_category := "fruit"; p_stock := 4;
                 p_image_url := None; p_created_at := 1000;
                 p_updated_at := 1000 |}
              (quiescent
                 (after_creation shop
                    {| p_user_id := 7; p_name := "Lanzones";
                       p_description := "Fresh"; p_price := 1999;
                       p_category := "fruit"; p_stock := 4;
                       p_image_url := None; p_created_at := 1000;
                       p_updated_at := 1000 |}))
              [ev (SelectUserId "ana@shop.ph");
               ev (InsertProduct 7 "Lanzones" "Fresh" (Fin (1999 # 100)) "fruit"
                     (of_Z 4) None)]
              {| productId := Val (of_Z 2); buyerEmail := Val "a@b.com";
                 quantity := Val (of_Z 3) |} 3 1%nat 1001)
    as (o & st' & t' & Hrun & _ & _ & Htot & _).
  - exact conforms_shop.
  - simpl. lia.
  - vm_compute. reflexivity.
  - reflexivity.
  - reflexivity.
  - reflexivity.
  - simpl. lia.
  - repeat split; reflexivity.
  - exists o, st', t'. split; [exact Hrun|exact Htot].
Defined.

End LedgerFacts.

(* ===================================================================== *)
(** * The payment relay: further properties                               *)
(* ===================================================================== *)

Module PayPalMore.
Import JS JSField PG PayPal Sample SampleMore JSFacts PGFacts NumericMore.

Lemma positive_amount c :
  0 < c < 10 ^ 12 ->
  falsy (Number_of_numeric c) || le (Number_of_numeric c) (of_Z 0) = false.
Proof.
  intros Hc. unfold Number_of_numeric.
  destruct (amount_near c) as (y & -> & Hy); [lia|].
  assert (1 <= inject_Z c)%Q as H1.
  { change 1%Q with (inject_Z 1). rewrite <- Zle_Qle. lia. }
  unfold falsy, le, of_Z. apply orb_false_iff.
  split; apply not_true_iff_false; intros H.
  - apply Qeq_bool_eq in H. rewrite H in Hy. lra.
  - apply Qle_bool_iff in H. change (inject_Z 0) with 0%Q in H. lra.
Qed.

Section Provider.

Variable payload : Type.
Variable access_token : payload -> string.
Variable world : Type.
Variable fetch : call -> world -> outcome payload * world.
Variable cred : credentials.

Local Abbreviation token_call := (TokenCall (client_id cred) (client_secret cred)).
Local Abbreviation create := (create_order payload access_token world fetch cred).
Local Abbreviation capture := (capture_order payload access_token world fetch cred).

(** What a payment handler does once its request is valid and the
    credentials are set: the token exchange, then the order call. *)
Lemma relay_protocol (error : string) (c : string -> call) (w : world)
    (res : result payload world) :
  res =
    match getPayPalAccessToken payload access_token world fetch cred w with
    | (inl f, w1, t1) =>
        (mkResponse payload 500 (ErrorBody payload error (Some f)), w1, t1)
    | (inr token, w1, t1) =>
        let (o, w2) := fetch (c token) w1 in
        (relay payload error o, w2, t1 ++ [c token])
    end ->
  (snd res = [token_call] /\ status payload (fst (fst res)) = 500 /\
   snd (fst res) = snd (fetch token_call w)) \/
  (exists st text data w1,
     fetch token_call w = (Responds payload st text (inr data), w1) /\
     ok st = true /\
     snd res = [token_call; c (access_token data)] /\
     snd (fst res) = snd (fetch (c (access_token data)) w1) /\
     fst (fst res) = relay payload error (fst (fetch (c (access_token data)) w1))).
Proof.
  intros ->. unfold getPayPalAccessToken.
  destruct (fetch token_call w) as [[e|st text json] w1] eqn:Hf.
  - left. repeat split; reflexivity.
  - destruct (ok st) eqn:Hok; cbn [negb].
    + destruct json as [e|data].
      * left. repeat split; reflexivity.
      * right. exists st, text, data, w1.
        destruct (fetch (c (access_token data)) w1) as [o w2].
        repeat split; assumption || reflexivity.
    + left. repeat split; reflexivity.
Qed.

(** X16. The handler that creates a payment order makes no call, one
    call or two calls to the provider, and never more. Without a call
    the answer is 400 or 500 and the provider is as it was. The first
    call is always the token exchange with the configured credentials
    (no token is kept from one request to the next); if it fails in any
    way the answer is 500 and no order is created. The second call
    creates the order with the token just received, for the amount
    rendered by [toFixed(2)], and its outcome is what is relayed. *)
Theorem create_order_protocol (b : body) (w : world) :
  let res := create b w in
  (snd res = [] /\ snd (fst res) = w /\
   In (status payload (fst (fst res))) [400; 500]) \/
  (snd res = [token_call] /\ status payload (fst (fst res)) = 500 /\
   snd (fst res) = snd (fetch token_call w)) \/
  (exists st text data w1,
     fetch token_call w = (Responds payload st text (inr data), w1) /\
     ok st = true /\
     let c := CreateCall (access_token data) (toFixed2 (Number (amount b))) in
     snd res = [token_call; c] /\
     snd (fst res) = snd (fetch c w1) /\
     fst (fst res) = relay payload "Create order failed" (fst (fetch c w1))).
Proof.
  intros res. subst res. unfold create_order.
  destruct (falsy _ || le _ _); [left; simpl; auto|].
  destruct (empty _ || empty _); [left; simpl; auto|].
  right.
  apply (relay_protocol "Create order failed"
           (fun token => CreateCall token (toFixed2 (Number (amount b)))) w).
  reflexivity.
Qed.

(** X17. The handler that captures a payment order answers 400
    "orderID is required" without a call when the identifier is missing
    or empty, and otherwise follows the same protocol: no call without
    credentials, the token exchange first, then one capture call for the
    identifier given, with the token just received. *)
Theorem capture_order_protocol (b : body) (w : world) :
  let res := capture b w in
  (no_str (orderID b) = true ->
   res = (mkResponse payload 400 (ErrorBody payload "orderID is required" None),
          w, [])) /\
  ((snd res = [] /\ snd (fst res) = w /\
    In (status payload (fst (fst res))) [400; 500]) \/
   (snd res = [token_call] /\ status payload (fst (fst res)) = 500 /\
    snd (fst res) = snd (fetch token_call w)) \/
   (exists st text data w1,
      fetch token_call w = (Responds payload st text (inr data), w1) /\
      ok st = true /\
      let c := CaptureCall (access_token data) (str_or_empty (orderID b)) in
      snd res = [token_call; c] /\
      snd (fst res) = snd (fetch c w1) /\
      fst (fst res) = relay payload "Capture order failed" (fst (fetch c w1)))).
Proof.
  intros res. subst res. unfold capture_order. split.
  - intros ->. reflexivity.
  - destruct (no_str _); [left; simpl; auto|].
    destruct (empty _ || empty _); [left; simpl; auto|].
    right.
    apply (relay_protocol "Capture order failed"
             (fun token => CaptureCall token (str_or_empty (orderID b))) w).
    reflexivity.
Qed.

(** X18. What the provider answers is what the client gets. When the
    token exchange succeeds and the provider answers the order call
    with a JSON document, that document is the body of the response,
    unchanged; the status is the status of the provider when it is not a
    success, and 200 for every success, 201 included. *)
Theorem provider_answer_is_relayed (b : body) (w w1 w2 : world)
    st0 text0 tok st text data :
  falsy (Number (amount b)) || le (Number (amount b)) (of_Z 0) = false ->
  empty (client_id cred) || empty (client_secret cred) = false ->
  fetch token_call w = (Responds payload st0 text0 (inr tok), w1) ->
  ok st0 = true ->
  fetch (CreateCall (access_token tok) (toFixed2 (Number (amount b)))) w1 =
    (Responds payload st text (inr data), w2) ->
  create b w =
    (mkResponse payload (if ok st then 200 else st) (Relay payload data), w2,
     [token_call; CreateCall (access_token tok) (toFixed2 (Number (amount b)))]).
Proof.
  intros Hv Hc Ht Hok Hf. unfold create_order, getPayPalAccessToken.
  rewrite Hv, Hc, Ht, Hok. cbn [negb]. rewrite Hf. unfold relay.
  destruct (ok st); reflexivity.
Qed.

(** X19. The provider is asked for the amount the client sent. For a
    positive amount with two decimals, sent as the number nearest to it,
    the order created is for exactly that amount in hundredths. *)
Theorem create_order_sends_amount (b : body) (w w1 : world) c st0 text0 tok :
  0 < c < 10 ^ 12 ->
  amount b = Val (Number_of_numeric c) ->
  empty (client_id cred) || empty (client_secret cred) = false ->
  fetch token_call w = (Responds payload st0 text0 (inr tok), w1) ->
  ok st0 = true ->
  snd (create b w) =
    [token_call; CreateCall (access_token tok) (Hundredths c)].
Proof.
  intros Hc Ha Hcr Ht Hok. unfold create_order, getPayPalAccessToken.
  rewrite Ha. cbn [Number]. rewrite (positive_amount c Hc), Hcr, Ht, Hok.
  cbn [negb]. unfold Number_of_numeric. rewrite amount_fixed by lia.
  destruct (fetch _ w1). reflexivity.
Qed.

End Provider.

Lemma provider_answer_is_relayed_witness :
  fst (fst (create_order string (fun s => s) nat approving merchant pay_1999
              0%nat)) =
    mkResponse string 200 (Relay string "order-1").
Proof.
  rewrite (provider_answer_is_relayed string (fun s => s) nat approving merchant
             pay_1999 0%nat 1%nat 2%nat 200 "" "token-1" 201 "" "order-1");
    reflexivity.
Defined.

Lemma create_order_sends_amount_witness :
  snd (create_order string (fun s => s) nat approving merchant pay_1999 0%nat) =
    [TokenCall "id" "secret"; CreateCall "token-1" (Hundredths 1999)].
Proof.
  apply (create_order_sends_amount string (fun s => s) nat approving merchant
           pay_1999 0%nat 1%nat 1999 200 "" "token-1"); try reflexivity.
  lia.
Defined.

End PayPalMore.

(* ===================================================================== *)
(** * The listings: properties                                            *)
(* ===================================================================== *)

Module ListingFacts.
Import JS JSField PG Spec Sample Ledger SampleMore Listing.
Import PurchaseFacts SampleFacts PurchaseMore ProductMore LedgerFacts.

Lemma In_insert_desc {A : Type} (key : A -> Z) x (l : list A) y :
  In y (insert_desc key x l) <-> y = x \/ In y l.
Proof.
  induction l as [|z l IH]; simpl.
  - intuition.
  - destruct (key x <? key z); simpl; rewrite ?IH; intuition.
Qed.

Lemma In_order_desc {A : Type} (key : A -> Z) (l : list A) y :
  In y (order_desc key l) <-> In y l.
Proof.
  induction l as [|z l IH]; simpl; [reflexivity|].
  rewrite In_insert_desc, IH. intuition.
Qed.

Lemma sorted_insert_desc {A : Type} (key : A -> Z) x (l : list A) :
  sorted_desc key l -> sorted_desc key (insert_desc key x l).
Proof.
  induction l as [|z l IH]; simpl.
  - intros _. split; [constructor|exact I].
  - intros [Hz Hl]. destruct (key x <? key z) eqn:Hlt; simpl.
    + apply Z.ltb_lt in Hlt. split; [|apply IH; exact Hl].
      apply Forall_forall. intros y Hy.
      apply list_elem_of_In, In_insert_desc in Hy as [->|Hy]; [lia|].
      rewrite Forall_forall in Hz. apply Hz, list_elem_of_In. exact Hy.
    + apply Z.ltb_ge in Hlt. split; [|split; assumption].
      constructor; [exact Hlt|].
      eapply Forall_impl; [exact Hz|]. simpl. intros y Hy. lia.
Qed.

Lemma sorted_order_desc {A : Type} (key : A -> Z) (l : list A) :
  sorted_desc key (order_desc key l).
Proof.
  induction l as [|z l IH]; simpl; [exact I|].
  apply sorted_insert_desc. exact IH.
Qed.

Lemma In_products (d : db) id p :
  In (id, p) (map_to_list (products d)) <-> products d !! id = Some p.
Proof. rewrite <- list_elem_of_In. apply elem_of_map_to_list. Qed.

(** The rows of the public listing. *)
Lemma In_public_rows d row :
  In row (public_rows d) <->
  exists id p u,
    products d !! id = Some p /\ 0 < p_stock p /\
    In u (users d) /\ u_id u = p_user_id p /\ row = public_row_of id p u.
Proof.
  unfold public_rows. rewrite In_order_desc, in_flat_map. split.
  - intros ([id p] & Hin & Hrow). simpl in Hrow.
    destruct (0 <? p_stock p) eqn:Hs; [|destruct Hrow].
    apply in_map_iff in Hrow as (u & <- & Hu).
    apply list_elem_of_In, list_elem_of_filter in Hu as [Hid Hu].
    exists id, p, u. apply In_products in Hin. apply Z.ltb_lt in Hs.
    apply Z.eqb_eq in Hid. apply list_elem_of_In in Hu.
    repeat split; assumption.
  - intros (id & p & u & Hp & Hs & Hu & Hid & ->).
    exists (id, p). split; [apply In_products; exact Hp|]. simpl.
    apply Z.ltb_lt in Hs. rewrite Hs. apply in_map.
    apply list_elem_of_In, list_elem_of_filter. split.
    + apply Z.eqb_eq. exact Hid.
    + apply list_elem_of_In. exact Hu.
Qed.

Lemma In_product_rows d uid row :
  In row (product_rows d uid) <->
  exists id p,
    products d !! id = Some p /\ p_user_id p = uid /\ row = product_row_of id p.
Proof.
  unfold product_rows. rewrite In_order_desc, in_map_iff. split.
  - intros ([id p] & <- & Hin).
    apply list_elem_of_In, list_elem_of_filter in Hin as [Hu Hin].
    simpl in Hu. apply Z.eqb_eq in Hu.
    exists id, p. split; [apply In_products, list_elem_of_In; exact Hin|].
    split; [exact Hu|reflexivity].
  - intros (id & p & Hp & Hu & ->). exists (id, p). split; [reflexivity|].
    apply list_elem_of_In, list_elem_of_filter. split.
    + simpl. apply Z.eqb_eq. exact Hu.
    + apply list_elem_of_In, In_products. exact Hp.
Qed.

Lemma In_order_rows d uid row :
  In row (order_rows d uid) <->
  exists o p,
    In o (orders d) /\ products d !! o_product_id o = Some p /\
    p_user_id p = uid /\ row = order_row_of o p.
Proof.
  unfold order_rows. rewrite In_order_desc, in_flat_map. split.
  - intros (o & Hin & Hrow).
    destruct (products d !! o_product_id o) as [p|] eqn:Hp; [|destruct Hrow].
    destruct (p_user_id p =? uid) eqn:Hu; [|destruct Hrow].
    destruct Hrow as [<-|[]]. apply Z.eqb_eq in Hu.
    exists o, p. repeat split; assumption.
  - intros (o & p & Hin & Hp & Hu & ->). exists o. split; [exact Hin|].
    rewrite Hp. apply Z.eqb_eq in Hu. rewrite Hu. left. reflexivity.
Qed.

Lemma unique_email (l : list user) u email :
  NoDup (map u_email l) -> In u l -> u_email u = email ->
  filter (fun x => String.eqb (u_email x) email = true) l = [u].
Proof.
  intros Hnd Hin He.
  induction l as [|x l IH]; [destruct Hin|].
  simpl in Hnd. apply NoDup_cons in Hnd as [Hx Hnd].
  rewrite filter_cons. destruct Hin as [->|Hin].
  - rewrite decide_True by (apply String.eqb_eq; exact He). f_equal.
    apply filter_none. intros y Hy. apply String.eqb_neq. intros Hm.
    apply Hx. rewrite He, <- Hm. apply list_elem_of_In, in_map. exact Hy.
  - rewrite decide_False; [apply IH; assumption|].
    intros Hm. apply String.eqb_eq in Hm. apply Hx. rewrite Hm, <- He.
    apply list_elem_of_In, in_map. exact Hin.
Qed.


Lemma order_desc_perm {A : Type} (key : A -> Z) (l : list A) :
  order_desc key l ≡ₚ l.
Proof.
  induction l as [|x l IH]; simpl; [reflexivity|].
  rewrite <- IH at 2. generalize (order_desc key l). clear. intros l.
  induction l as [|y l IH]; simpl; [reflexivity|].
  destruct (key x <? key y); [|reflexivity].
  rewrite IH. apply Permutation_swap.
Qed.

Lemma owners_of (l : list user) k :
  NoDup (map u_id l) ->
  (length (filter (fun u => Z.eqb (u_id u) k = true) l) <= 1)%nat.
Proof.
  induction l as [|x l IH]; simpl; intros Hnd; [lia|].
  apply NoDup_cons in Hnd as [Hx Hnd]. rewrite filter_cons.
  destruct (decide ((u_id x =? k) = true)) as [Hk|Hk]; [|apply IH; exact Hnd].
  rewrite filter_none; [simpl; lia|].
  intros y Hy. apply Z.eqb_neq. intros Hm. apply Hx.
  apply Z.eqb_eq in Hk. rewrite Hk, <- Hm. apply list_elem_of_In, in_map.
  exact Hy.
Qed.

Lemma public_ids_sublist (us : list user) (l : list (Z * product)) :
  NoDup (map u_id us) ->
  map l_id
    (flat_map
       (fun ip : Z * product =>
          if 0 <? p_stock (snd ip) then
            map (public_row_of (fst ip) (snd ip))
                (filter (fun u => Z.eqb (u_id u) (p_user_id (snd ip)) = true) us)
          else []) l)
  `sublist_of` map fst l.
Proof.
  intros Hnd. induction l as [|[id p] l IH]; simpl; [constructor|].
  destruct (0 <? p_stock p); simpl; [|apply sublist_cons; exact IH].
  pose proof (owners_of us (p_user_id p) Hnd) as Hlen.
  destruct (filter _ us) as [|u [|u' rest]]; simpl in *.
  - apply sublist_cons. exact IH.
  - apply sublist_skip. exact IH.
  - lia.
Qed.

(** X20. The public listing is answered 200 with one row for each
    product that has units in stock and whose owner exists, carrying the
    name of that owner, and no other row; a product out of stock is not
    listed. No row comes before a more recent one, and with unique user
    identifiers no product is listed twice. *)
Theorem public_products_lists d :
  run public_products d =
    (mkResponse 200 (PublicProducts (public_rows d)), [ev SelectPublicProducts]) /\
  (forall row,
     In row (public_rows d) <->
     exists id p u,
       products d !! id = Some p /\ 0 < p_stock p /\
       In u (users d) /\ u_id u = p_user_id p /\ row = public_row_of id p u) /\
  sorted_desc l_created_at (public_rows d) /\
  (NoDup (map u_id (users d)) -> NoDup (map l_id (public_rows d))).
Proof.
  split; [reflexivity|]. split; [apply In_public_rows|].
  split; [apply sorted_order_desc|].
  intros Hnd. unfold public_rows. rewrite order_desc_perm.
  eapply sublist_NoDup; [|apply public_ids_sublist; exact Hnd].
  apply NoDup_fst_map_to_list.
Qed.

(** X21. A purchase shows in the public listing at once. After a
    purchase answered 201 the product bought is listed with the stock
    that remains, or is not listed any more when the purchase took the
    last units; the rows of the other products are as before. *)
Theorem purchase_updates_listing d req sid now r st t :
  conforms d ->
  Handler.run (Handler.purchase req) sid now (quiescent d) = Some (r, st, t) ->
  Handler.status r = 201 ->
  exists pid p o,
    products d !! pid = Some p /\
    Handler.body r = Handler.PurchaseBody o (of_Z (p_stock p - o_quantity o)) /\
    o_product_id o = pid /\ 0 < o_quantity o <= p_stock p /\
    (forall row, l_id row <> pid ->
       (In row (public_rows (committed st)) <-> In row (public_rows d))) /\
    (o_quantity o = p_stock p ->
     forall row, In row (public_rows (committed st)) -> l_id row <> pid) /\
    (o_quantity o < p_stock p ->
     forall u, In u (users d) -> u_id u = p_user_id p ->
       In (public_row_of pid (set_stock p (p_stock p - o_quantity o) now) u)
          (public_rows (committed st))).
Proof.
  intros Hd Hrun Hst.
  destruct (purchase_run d req sid now Hd) as (r' & st' & t' & Hrun' & Hout).
  rewrite Hrun in Hrun'. injection Hrun' as <- <- <-.
  destruct Hout as [Hinv|e t pidv Hpv Herr|pidv pid Hpv Hid Hnone
                   |pidv pid p Hpv Hid Hp Hlt
                   |pidv pid p q Hpv Hid Hp Hq Hb Hfit];
    try discriminate.
  exists pid, p, (new_order d pid p (email_of req) q now). simpl.
  split; [exact Hp|]. split; [reflexivity|]. split; [reflexivity|].
  split; [exact Hb|]. split; [|split].
  - intros row Hrow. rewrite !In_public_rows. simpl.
    split; intros (id & p0 & u & Hp0 & Hs & Hu & Huid & ->);
      simpl in Hrow; exists id, p0, u.
    + rewrite lookup_insert_ne in Hp0 by congruence. repeat split; assumption.
    + rewrite lookup_insert_ne by congruence. repeat split; assumption.
  - intros Hall row Hin Hrow. apply In_public_rows in Hin
      as (id & p0 & u & Hp0 & Hs & _ & _ & ->). simpl in *. subst id.
    rewrite lookup_insert_eq in Hp0. injection Hp0 as <-. simpl in Hs. lia.
  - intros Hless u Hu Huid. apply In_public_rows. simpl.
    exists pid, (set_stock p (p_stock p - q) now), u.
    rewrite lookup_insert_eq. simpl. repeat split; try assumption. lia.
Qed.

Lemma purchase_updates_listing_witness :
  In (public_row_of 1 (set_stock mango 3 1000) ana)
     (public_rows (after_purchase shop 1 mango "a@b.com" 2 1000)).
Proof.
  destruct (purchase_updates_listing shop two_mangos 0%nat 1000
              (Handler.mkResponse 201 (Handler.PurchaseBody two_mangos_order (of_Z 3)))
              (quiescent (after_purchase shop 1 mango "a@b.com" 2 1000))
              (purchase_trace (of_Z 1) "a@b.com" (of_Z 2) mango)
              conforms_shop)
    as (pid & p & o & Hp & Hbody & Hpid & Hq & _ & _ & Hlisted).
  - vm_compute. reflexivity.
  - reflexivity.
  - simpl in Hbody. injection Hbody as <- _. simpl in Hpid. subst pid.
    change (Some mango = Some p) in Hp. injection Hp as <-.
    apply (Hlisted ltac:(simpl; lia) ana); [left; reflexivity|reflexivity].
Defined.

Lemma not_empty s : s <> EmptyString -> empty s = false.
Proof. destruct s; [congruence|reflexivity]. Qed.

Lemma seller_products_found d v u :
  query_email v <> EmptyString -> has_nul (query_email v) = false ->
  NoDup (map u_email (users d)) -> In u (users d) ->
  u_email u = query_email v ->
  run (seller_products v) d =
    (mkResponse 200 (SellerProducts (product_rows d (u_id u))),
     [ev (SelectUserByEmail (query_email v));
      ev (SelectProductsOfUser (u_id u))]).
Proof.
  intros Hne Hnul Hnd Hin Hu. unfold seller_products.
  rewrite (not_empty _ Hne). simpl. rewrite Hnul.
  rewrite (unique_email _ u _ Hnd Hin Hu). reflexivity.
Qed.

Lemma seller_orders_found d v u :
  query_email v <> EmptyString -> has_nul (query_email v) = false ->
  NoDup (map u_email (users d)) -> In u (users d) ->
  u_email u = query_email v ->
  run (seller_orders v) d =
    (mkResponse 200 (SellerOrders (order_rows d (u_id u))),
     [ev (SelectUserByEmail (query_email v));
      ev (SelectOrdersOfSeller (u_id u))]).
Proof.
  intros Hne Hnul Hnd Hin Hu. unfold seller_orders.
  rewrite (not_empty _ Hne). simpl. rewrite Hnul.
  rewrite (unique_email _ u _ Hnd Hin Hu). reflexivity.
Qed.



(** X24. A product that has been created is in the listing of its
    seller. After a creation answered 201 with product [p] under
    identifier [id], the listing asked with the e-mail of the request,
    in any case and with any blanks around it, is answered 200 and
    holds the row of [id] with the values returned by the creation; and
    the product is in the public listing when it has units in stock. *)
Theorem created_product_is_listed d req sid now id p st t v :
  constraints d ->
  Handler.run (Handler.create_product req) sid now (quiescent d) =
    Some (Handler.mkResponse 201 (Handler.ProductBody id p), st, t) ->
  query_email v = norm_email (Handler.r_email req) ->
  has_nul (norm_email (Handler.r_email req)) = false ->
  exists rows t',
    run (seller_products v) (committed st) =
      (mkResponse 200 (SellerProducts rows), t') /\
    In (product_row_of id p) rows /\
    (0 < p_stock p ->
     exists row, In row (public_rows (committed st)) /\
                 l_id row = id /\ l_stock row = p_stock p).
Proof.
  intros Hc Hrun Hv Hnul.
  destruct (create_product_cases d req sid now) as (r & d' & t1 & Hrun' & Hcase).
  rewrite Hrun in Hrun'. injection Hrun' as <- -> <-.
  destruct Hcase as [[Hs _]|(u & p1 & Hr & -> & _ & Hin & Hu & Huid & Hrest)].
  { simpl in Hs. destruct Hs as [|[|[|[]]]]; discriminate. }
  injection Hr as -> <-.
  assert (required_missing req = false) as Hreq by (apply Hrest).
  unfold user_matches in Hu. apply andb_true_iff in Hu as [Hu _].
  apply String.eqb_eq in Hu.
  assert (norm_email (Handler.r_email req) <> EmptyString) as Hne.
  { unfold required_missing in Hreq. intros He. rewrite He in Hreq.
    discriminate. }
  rewrite <- Hv in Hne, Hnul, Hu.
  do 2 eexists. split.
  { apply (seller_products_found (after_creation d p) v u Hne Hnul
             (users_email_unique d Hc) Hin Hu). }
  split.
  - apply In_product_rows. exists (products_seq d + 1), p. simpl.
    rewrite lookup_insert_eq. repeat split. exact Huid.
  - intros Hs. exists (public_row_of (products_seq d + 1) p u).
    split; [|split; reflexivity].
    apply In_public_rows. exists (products_seq d + 1), p, u. simpl.
    rewrite lookup_insert_eq. repeat split; try assumption.
    symmetry. exact Huid.
Qed.

Lemma created_product_is_listed_witness :
  exists rows t',
    run (seller_products (Some (QStr "ANA@shop.ph  ")))
        (after_creation shop lanzones) =
      (mkResponse 200 (SellerProducts rows), t') /\
    In (product_row_of 2 lanzones) rows.
Proof.
  destruct (created_product_is_listed shop lanzones_req 0%nat 1000 2 lanzones
              (quiescent (after_creation shop lanzones))
              [Handler.ev (SelectUserId "ana@shop.ph");
               Handler.ev (InsertProduct 7 "Lanzones" "Fresh"
                             (Number_of_numeric 1999) "fruit" (of_Z 4) None)]
              (Some (QStr "ANA@shop.ph  ")) constraints_shop)
    as (rows & t' & Hrun & Hin & _).
  - vm_compute. reflexivity.
  - reflexivity.
  - reflexivity.
  - exists rows, t'. split; assumption.
Defined.

(** X25. An order that has been recorded is in the listing of the
    seller of its product. After a purchase answered 201, the listing of
    orders asked with the e-mail of the owner of the product is answered
    200 and holds the row of the order returned by the purchase, with the
    name of the product. *)
Theorem order_is_listed_for_seller d req sid now r st t :
  constraints d ->
  Handler.run (Handler.purchase req) sid now (quiescent d) = Some (r, st, t) ->
  Handler.status r = 201 ->
  exists p o rs,
    Handler.body r = Handler.PurchaseBody o rs /\
    products d !! o_product_id o = Some p /\
    forall u v,
      In u (users d) -> u_id u = p_user_id p ->
      query_email v = u_email u -> u_email u <> EmptyString ->
      has_nul (u_email u) = false ->
      exists rows t',
        run (seller_orders v) (committed st) =
          (mkResponse 200 (SellerOrders rows), t') /\
        In (order_row_of o p) rows.
Proof.
  intros Hc Hrun Hst.
  destruct (purchase_run d req sid now (products_typed d Hc))
    as (r' & st' & t' & Hrun' & Hout).
  rewrite Hrun in Hrun'. injection Hrun' as <- <- <-.
  destruct Hout as [Hinv|e t pidv Hpv Herr|pidv pid Hpv Hid Hnone
                   |pidv pid p Hpv Hid Hp Hlt
                   |pidv pid p q Hpv Hid Hp Hq Hb Hfit];
    try discriminate.
  exists p, (new_order d pid p (email_of req) q now), (of_Z (p_stock p - q)).
  split; [reflexivity|]. split; [exact Hp|].
  intros u v Hin Huid Hv Hne Hnul. rewrite <- Hv in Hne, Hnul.
  do 2 eexists. split.
  { apply (seller_orders_found (after_purchase d pid p (email_of req) q now) v u
             Hne Hnul (users_email_unique d Hc) Hin). symmetry. exact Hv. }
  apply In_order_rows.
  exists (new_order d pid p (email_of req) q now),
         (set_stock p (p_stock p - q) now).
  simpl. rewrite lookup_insert_eq.
  split; [apply in_or_app; right; left; reflexivity|].
  split; [reflexivity|]. split; [symmetry; exact Huid|reflexivity].
Qed.

Lemma order_is_listed_for_seller_witness :
  exists rows t',
    run (seller_orders (Some (QStr "ana@shop.ph")))
        (after_purchase shop 1 mango "a@b.com" 2 1000) =
      (mkResponse 200 (SellerOrders rows), t') /\
    In (order_row_of two_mangos_order mango) rows.
Proof.
  destruct (order_is_listed_for_seller shop two_mangos 0%nat 1000
              (Handler.mkResponse 201
                 (Handler.PurchaseBody two_mangos_order (of_Z 3)))
              (quiescent (after_purchase shop 1 mango "a@b.com" 2 1000))
              (purchase_trace (of_Z 1) "a@b.com" (of_Z 2) mango)
              constraints_shop)
    as (p & o & rs & Hbody & Hp & Hl).
  - vm_compute. reflexivity.
  - reflexivity.
  - simpl in Hbody. injection Hbody as <- <-.
    change (Some mango = Some p) in Hp. injection Hp as <-.
    apply (Hl ana (Some (QStr "ana@shop.ph"))); try reflexivity.
    + left. reflexivity.
    + discriminate.
Defined.

End ListingFacts.

(* ===================================================================== *)
(** * Registration and login: properties                                  *)
(* ===================================================================== *)

Module AccountsFacts.
Import JS JSField PG Accounts AccountSample.
Import PurchaseFacts ProductMore LedgerFacts.

Lemma with_email_snoc d d' a email :
  accounts d' = accounts d ++ [a] ->
  with_email email d' =
  with_email email d ++ (if String.eqb (a_email a) email then [a] else []).
Proof.
  intros H. unfold with_email. rewrite H, filter_app, filter_cons, filter_nil.
  destruct (String.eqb (a_email a) email) eqn:He.
  - rewrite decide_True by reflexivity. reflexivity.
  - rewrite decide_False by discriminate. reflexivity.
Qed.

Lemma with_email_In d email a :
  In a (accounts d) -> a_email a = email -> with_email email d <> [].
Proof.
  intros Hin He Hnil.
  assert (a ∈ with_email email d) as H.
  { apply list_elem_of_filter. split; [apply String.eqb_eq; exact He|].
    apply list_elem_of_In. exact Hin. }
  rewrite Hnil in H. inversion H.
Qed.

Lemma with_email_none d email :
  with_email email d = [] -> forall a, In a (accounts d) -> a_email a <> email.
Proof.
  intros Hnil a Hin He. exact (with_email_In d email a Hin He Hnil).
Qed.

Section Bcrypt.

Variable hash : nat -> string -> string.
Variable compare : string -> string -> bool.

Local Abbreviation run := (Accounts.run hash compare).

(** Every way a registration served on a store at rest can end. *)
Lemma register_cases d req now salt :
  exists r st salt' t,
    run (register req) now salt (at_rest d) = (r, st, salt', t) /\
    ((In (status r) [400; 500] /\ opened st = None /\
      accounts (current st) = accounts d /\ sellers (current st) = sellers d /\
      sellers_seq (current st) = sellers_seq d /\
      users_seq d <= users_seq (current st)) \/
     (exists a,
        r = mkResponse 201 (Registered (view a)) /\
        st = at_rest {| accounts := accounts d ++ [a]; sellers := sellers d;
                        users_seq := users_seq d + 1;
                        sellers_seq := sellers_seq d |} /\
        salt' = S salt /\
        a_id a = users_seq d + 1 /\
        a_email a = norm_email (g_email req) /\
        has_nul (a_email a) = false /\
        with_email (a_email a) d = [] /\
        to_varchar 255 (hash salt (str_or_empty (g_password req)))
          = inr (a_password a) /\
        no_str (g_password req) = false /\
        empty (a_email a) = false /\
        a_name a = a_full_name a /\
        to_varchar 255 (str_or_empty (g_name req)) = inr (a_name a) /\
        to_varchar 20 (str_or (g_role req) "customer") = inr (a_role a) /\
        a_created_at a = now)).
Proof.
  unfold register.
  destruct (no_str (g_name req) || empty _ || no_str (g_password req)) eqn:Hv.
  { do 4 eexists. split; [reflexivity|]. left. simpl. intuition lia. }
  apply orb_false_iff in Hv as [Hv Hpw]. apply orb_false_iff in Hv as [Hnm Hem].
  cbn [Accounts.run]. unfold exec at 1.
  destruct (has_nul (norm_email (g_email req))) eqn:Hnul.
  { do 4 eexists. split; [reflexivity|]. left. simpl. intuition lia. }
  change (current (at_rest d)) with d.
  destruct (with_email (norm_email (g_email req)) d) as [|a0 rest] eqn:Hw;
    cbv beta iota delta [try map].
  2:{ do 4 eexists. split; [reflexivity|]. left. simpl. intuition lia. }
  cbn [Accounts.run]. unfold exec at 1. cbv beta iota delta [try].
  cbn [Accounts.run]. unfold exec.
  destruct (to_varchar 255 (str_or_empty (g_name req))) as [e|nm] eqn:Hname;
    [do 4 eexists; split; [reflexivity|]; left; simpl; intuition lia|].
  pose proof (to_varchar_norm_email 255 (g_email req)) as Hnorm.
  destruct (to_varchar 255 (norm_email (g_email req))) as [e|em] eqn:Hemail;
    [do 4 eexists; split; [reflexivity|]; left; simpl; intuition lia|].
  specialize (Hnorm em eq_refl). subst em.
  destruct (to_varchar 255 (hash salt _)) as [e|pw] eqn:Hpass;
    [do 4 eexists; split; [reflexivity|]; left; simpl; intuition lia|].
  destruct (to_varchar_opt 50 _) as [e|ge] eqn:Hge;
    [do 4 eexists; split; [reflexivity|]; left; simpl; intuition lia|].
  destruct (to_varchar 20 _) as [e|ro] eqn:Hro;
    [do 4 eexists; split; [reflexivity|]; left; simpl; intuition lia|].
  change (current (at_rest d)) with d.
  destruct (int4_ok (users_seq d + 1)) eqn:Hseq; cbn [negb];
    [|do 4 eexists; split; [reflexivity|]; left; simpl; intuition lia].
  rewrite Hw. cbv beta iota delta [try]. cbn [Accounts.run].
  do 4 eexists. split; [reflexivity|]. right.
  eexists {| a_id := _ |}. split; [reflexivity|]. split; [reflexivity|].
  simpl. repeat split; assumption || reflexivity.
Qed.

Lemma In_insert_account x l y :
  In y (insert_desc x l) <-> y = x \/ In y l.
Proof.
  induction l as [|z l IH]; simpl.
  - intuition.
  - destruct (a_created_at x <? a_created_at z); simpl; rewrite ?IH; intuition.
Qed.

Lemma In_listed l y : In y (fold_right insert_desc [] l) <-> In y l.
Proof.
  induction l as [|z l IH]; simpl; [reflexivity|].
  rewrite In_insert_account, IH. intuition.
Qed.

(** X26. A user who has registered can log in and is found. After a
    registration answered 201 with user [u], a login with the same
    e-mail, in any case and with any blanks around it, and the same
    password is answered 200 with [u]; the lookup of the e-mail as
    stored (trimmed, in lower case) is answered 200 with [u]; and the
    list of users holds [u]. None of these changes the store. This holds
    for any [bcrypt] whose hashes fit the column of the password and
    compare as equal to the password they were made of. *)
Theorem register_then_login d req now salt u st salt' t lreq now' :
  (forall n s, to_varchar 255 (hash n s) = inr (hash n s)) ->
  (forall n s, compare s (hash n s) = true) ->
  run (register req) now salt (at_rest d) =
    (mkResponse 201 (Registered u), st, salt', t) ->
  norm_email (n_email lreq) = norm_email (g_email req) ->
  n_password lreq = g_password req ->
  v_email u = norm_email (g_email req) /\
  run (login lreq) now' salt' st =
    (mkResponse 200 (LoggedIn u), st, salt',
     [ev (SelectAllByEmail (v_email u));
      ev (Compare (str_or_empty (g_password req))
                  (hash salt (str_or_empty (g_password req))))]) /\
  run (get_user (v_email u)) now' salt' st =
    (mkResponse 200 (Found u), st, salt', [ev (SelectViewByEmail (v_email u))]) /\
  exists rows,
    run admin_users now' salt' st =
      (mkResponse 200 (UserList rows), st, salt', [ev SelectViews]) /\
    In u rows.
Proof.
  intros Hfits Hcmp Hrun Hem Hpw.
  destruct (register_cases d req now salt) as (r & st1 & s1 & t1 & Hrun' & Hc).
  rewrite Hrun in Hrun'. injection Hrun' as <- <- <- <-.
  destruct Hc as [[Hs _]|(a & Hr & -> & -> & Hid & Hmail & Hnul & Hnone & Hhash
                          & Hpass & Hne & _)].
  { simpl in Hs. destruct Hs as [|[|[]]]; discriminate. }
  injection Hr as ->. rewrite Hfits in Hhash. injection Hhash as Hhash.
  set (d' := {| accounts := accounts d ++ [a]; sellers := sellers d;
                users_seq := users_seq d + 1; sellers_seq := sellers_seq d |}).
  assert (with_email (a_email a) d' = [a]) as Hw.
  { rewrite (with_email_snoc d d' a) by reflexivity.
    rewrite Hnone, String.eqb_refl. reflexivity. }
  split; [exact Hmail|]. split; [|split].
  - unfold login. rewrite Hem, Hpw, <- Hmail, Hne, Hpass. simpl orb. cbv iota.
    cbn [Accounts.run]. unfold exec at 1. rewrite Hnul.
    change (current (at_rest d')) with d'. rewrite Hw.
    cbv beta iota delta [try]. cbn [Accounts.run]. unfold exec.
    rewrite <- Hhash, Hcmp. reflexivity.
  - unfold get_user. cbn [Accounts.run]. unfold exec. simpl v_email.
    rewrite Hnul. change (current (at_rest d')) with d'. rewrite Hw.
    reflexivity.
  - eexists. split; [reflexivity|]. simpl. apply in_map. apply In_listed.
    apply in_or_app. right. left. reflexivity.
Qed.

(** X27. The e-mails of the users stay unique, as do their
    identifiers. A registration for an e-mail that a user has already,
    after trimming and lower-casing, is refused: no password is hashed
    and no row is written. Whatever its answer, a registration leaves
    the keys of the table unique and the store at rest, and with an
    answer other than 201 it leaves the rows as they were. *)
Theorem register_keeps_emails_unique d req now salt r st salt' t :
  well_keyed d ->
  run (register req) now salt (at_rest d) = (r, st, salt', t) ->
  well_keyed (current st) /\ opened st = None /\
  (status r <> 201 -> accounts (current st) = accounts d) /\
  (forall a, In a (accounts d) -> a_email a = norm_email (g_email req) ->
     In (status r) [400; 500] /\ st = at_rest d /\ salt' = salt /\
     (length t <= 1)%nat).
Proof.
  intros (Hem & Hid & Hseq) Hrun. split; [|split; [|split]].
  - destruct (register_cases d req now salt) as (r' & st1 & s1 & t1 & Hrun' & Hc).
    rewrite Hrun in Hrun'. injection Hrun' as <- <- <- <-.
    destruct Hc as [(_ & _ & Ha & _ & _ & Hs)|(a & _ & -> & _ & Ha & _ & _ & Hnone & _)].
    + unfold well_keyed. rewrite Ha. split; [exact Hem|]. split; [exact Hid|].
      eapply Forall_impl; [exact Hseq|]. simpl. intros x Hx. lia.
    + unfold well_keyed. simpl. rewrite !map_app. simpl.
      split; [|split].
      * apply NoDup_app. split; [exact Hem|]. split; [|apply NoDup_singleton].
        intros e He [<-|Hn]%list_elem_of_In; [|destruct Hn].
        apply list_elem_of_In, in_map_iff in He as (x & Hx & Hin).
        exact (with_email_none d _ Hnone x Hin Hx).
      * apply NoDup_app. split; [exact Hid|]. split; [|apply NoDup_singleton].
        intros i Hi [<-|Hn]%list_elem_of_In; [|destruct Hn].
        apply list_elem_of_In, in_map_iff in Hi as (x & Hx & Hin).
        rewrite Forall_forall in Hseq.
        specialize (Hseq x (proj2 (list_elem_of_In _ _) Hin)). lia.
      * apply Forall_app. split.
        -- eapply Forall_impl; [exact Hseq|]. simpl. intros x Hx. lia.
        -- constructor; [lia|constructor].
  - destruct (register_cases d req now salt) as (r' & st1 & s1 & t1 & Hrun' & Hc).
    rewrite Hrun in Hrun'. injection Hrun' as <- <- <- <-.
    destruct Hc as [(_ & Ho & _)|(a & _ & -> & _)]; [exact Ho|reflexivity].
  - intros Hst.
    destruct (register_cases d req now salt) as (r' & st1 & s1 & t1 & Hrun' & Hc).
    rewrite Hrun in Hrun'. injection Hrun' as <- <- <- <-.
    destruct Hc as [(_ & _ & Ha & _)|(a & -> & _)]; [exact Ha|].
    exfalso. apply Hst. reflexivity.
  - intros a Hin Ha. revert Hrun. unfold register.
    destruct (no_str (g_name req) || empty _ || no_str (g_password req)).
    { intros [= <- <- <- <-]. simpl. intuition lia. }
    cbn [Accounts.run]. unfold exec at 1.
    destruct (has_nul (norm_email (g_email req))).
    { intros [= <- <- <- <-]. simpl. intuition lia. }
    change (current (at_rest d)) with d.
    pose proof (with_email_In d _ a Hin Ha) as Hw.
    destruct (with_email (norm_email (g_email req)) d) as [|a0 rest];
      [congruence|].
    intros [= <- <- <- <-]. simpl. intuition lia.
Qed.


Lemma to_varchar_seller : to_varchar 20 "seller" = inr "seller"%string.
Proof. reflexivity. Qed.

(** X29. The registration of a seller writes the user and the shop, or
    nothing. Served on a store at rest it leaves the store at rest.
    Answered 201, it has added one user, with the role of a seller and
    the e-mail of the request trimmed and in lower case, and one shop of
    that user, and these are the user and the shop returned. With any
    other answer (400, or 500 when the store refuses a value, even
    after the user row was written) the rows of both tables are as they
    were. *)
Theorem register_seller_atomic d req now salt r st salt' t :
  run (register_seller req) now salt (at_rest d) = (r, st, salt', t) ->
  opened st = None /\
  ((In (status r) [400; 500] /\
    accounts (current st) = accounts d /\ sellers (current st) = sellers d) \/
   (exists a s,
      r = mkResponse 201 (SellerRegistered (view a) (shop_view_of s)) /\
      accounts (current st) = accounts d ++ [a] /\
      sellers (current st) = sellers d ++ [s] /\
      sh_user_id s = a_id a /\ a_id a = users_seq d + 1 /\
      a_role a = "seller"%string /\
      a_email a = norm_email (e_email req) /\
      sh_shop_email s = norm_email (e_shopEmail req) /\
      (forall x, In x (accounts d) -> a_email x <> a_email a))).
Proof.
  unfold register_seller. cbn [Accounts.run]. unfold exec at 1.
  destruct (no_str _ || _ || _ || _ || _ || _ || _ || _).
  { intros [= <- <- <- <-]. simpl. split; [reflexivity|]. left. auto. }
  cbn [Accounts.run]. unfold exec at 1. simpl opened.
  cbv beta iota delta [try_seller]. cbn [Accounts.run]. unfold exec at 1.
  destruct (has_nul (norm_email (e_email req))) eqn:Hnul.
  { intros [= <- <- <- <-]. simpl. split; [reflexivity|]. left. auto. }
  simpl current.
  destruct (with_email (norm_email (e_email req)) d) as [|a0 rest] eqn:Hw;
    cbv beta iota delta [try_seller map].
  2:{ intros [= <- <- <- <-]. simpl. split; [reflexivity|]. left. auto. }
  cbn [Accounts.run]. unfold exec at 1. cbv beta iota delta [try_seller].
  cbn [Accounts.run]. unfold exec at 1.
  destruct (to_varchar 255 (str_or_empty (e_name req))) as [e|nm];
    [intros [= <- <- <- <-]; simpl; split; [reflexivity|]; left; auto|].
  pose proof (to_varchar_norm_email 255 (e_email req)) as Hnorm.
  destruct (to_varchar 255 (norm_email (e_email req))) as [e|em];
    [intros [= <- <- <- <-]; simpl; split; [reflexivity|]; left; auto|].
  specialize (Hnorm em eq_refl). subst em.
  destruct (to_varchar 255 (hash salt _)) as [e|pw];
    [intros [= <- <- <- <-]; simpl; split; [reflexivity|]; left; auto|].
  destruct (to_varchar_opt 50 _) as [e|ge];
    [intros [= <- <- <- <-]; simpl; split; [reflexivity|]; left; auto|].
  rewrite to_varchar_seller. simpl current.
  destruct (int4_ok (users_seq d + 1)) eqn:Hseq; cbn [negb];
    [|intros [= <- <- <- <-]; simpl; split; [reflexivity|]; left; auto].
  rewrite Hw. cbv beta iota delta [try_seller]. simpl v_id.
  cbn [Accounts.run]. unfold exec at 1.
  destruct (to_varchar 255 (str_or_empty (e_shopName req))) as [e|sn];
    [intros [= <- <- <- <-]; simpl; split; [reflexivity|]; left; auto|].
  destruct (to_text (str_or_empty (e_shopDescription req))) as [e|sd];
    [intros [= <- <- <- <-]; simpl; split; [reflexivity|]; left; auto|].
  destruct (to_text (str_or_empty (e_shopAddress req))) as [e|sa];
    [intros [= <- <- <- <-]; simpl; split; [reflexivity|]; left; auto|].
  destruct (to_varchar 50 (str_or_empty (e_shopPhone req))) as [e|sp];
    [intros [= <- <- <- <-]; simpl; split; [reflexivity|]; left; auto|].
  pose proof (to_varchar_norm_email 255 (e_shopEmail req)) as Hnorm.
  destruct (to_varchar 255 (norm_email (e_shopEmail req))) as [e|se];
    [intros [= <- <- <- <-]; simpl; split; [reflexivity|]; left; auto|].
  specialize (Hnorm se eq_refl). subst se.
  destruct (to_varchar 50 (str_or_empty (e_businessType req))) as [e|bt];
    [intros [= <- <- <- <-]; simpl; split; [reflexivity|]; left; auto|].
  destruct (to_varchar_opt 255 _) as [e|bp];
    [intros [= <- <- <- <-]; simpl; split; [reflexivity|]; left; auto|].
  simpl current. simpl sellers_seq.
  destruct (int4_ok (sellers_seq d + 1)) eqn:Hseq2; cbn [negb];
    [|intros [= <- <- <- <-]; simpl; split; [reflexivity|]; left; auto].
  simpl accounts. rewrite existsb_app. simpl existsb. rewrite Z.eqb_refl.
  rewrite orb_true_r. cbn [negb]. cbv beta iota delta [try_seller].
  cbn [Accounts.run]. unfold exec. cbv beta iota delta [try_seller].
  intros [= <- <- <- <-]. simpl. split; [reflexivity|]. right.
  eexists {| a_id := _ |}, {| sh_id := _ |}.
  split; [reflexivity|]. simpl. repeat split.
  exact (with_email_none d _ Hw).
Qed.

End Bcrypt.

Lemma register_then_login_witness :
  Accounts.run one_hash accept (login bea_login) 2000 1 (at_rest bea_only) =
    (mkResponse 200 (LoggedIn (view bea)), at_rest bea_only, 1%nat,
     [ev (SelectAllByEmail "bea@mail.ph"); ev (Compare "pw" "$2a$10$hash")]).
Proof.
  apply (register_then_login one_hash accept nobody bea_req 1000 0 (view bea)
           (at_rest bea_only) 1
           [ev (SelectIdByEmail "bea@mail.ph"); ev (Hash "pw");
            ev (InsertUser "Bea" "bea@mail.ph" "$2a$10$hash" None "customer")]
           bea_login 2000); reflexivity.
Defined.

Lemma register_keeps_emails_unique_witness :
  well_keyed bea_only.
Proof.
  apply (register_keeps_emails_unique one_hash accept nobody bea_req 1000 0
           (mkResponse 201 (Registered (view bea))) (at_rest bea_only) 1
           [ev (SelectIdByEmail "bea@mail.ph"); ev (Hash "pw");
            ev (InsertUser "Bea" "bea@mail.ph" "$2a$10$hash" None "customer")]).
  - repeat split; constructor.
  - reflexivity.
Defined.


Lemma register_seller_atomic_witness :
  exists r st t a s,
    Accounts.run one_hash accept (register_seller cora_req) 1000 0
      (at_rest bea_only) = (r, st, 1%nat, t) /\
    accounts (current st) = [bea; a] /\ sellers (current st) = [s] /\
    sh_user_id s = a_id a /\ a_role a = "seller"%string.
Proof.
  destruct (Accounts.run one_hash accept (register_seller cora_req) 1000 0
              (at_rest bea_only)) as [[[r st] salt'] t] eqn:Hrun.
  destruct (register_seller_atomic one_hash accept bea_only cora_req 1000 0
              r st salt' t Hrun)
    as [_ [[Hs _]|(a & s & _ & Ha & Hsh & Hu & _ & Hr & _)]].
  - exfalso. vm_compute in Hrun. injection Hrun as <- _ _ _.
    simpl in Hs. destruct Hs as [|[|[]]]; discriminate.
  - exists r, st, t, a, s.
    assert (salt' = 1%nat) as -> by (vm_compute in Hrun; congruence).
    repeat split; assumption.
Defined.

End AccountsFacts.

(* ===================================================================== *)
(** * Concurrent purchases: what other sessions see                       *)
(* ===================================================================== *)

Module RaceMore.
Import JS JSField PG Handler Conc Spec Race Sample RaceFacts SampleFacts.

(** X30. Concurrent purchases show whole sales only. With any number of
    valid requests for [q] units of one product in flight, at every
    moment of every interleaving of their operations the committed
    tables hold, for some [k >= 0], a stock of [S - q * k] for the
    product, at its price, and [k] more order rows than at the start: a
    decrement is never visible without its order, nor an order without
    its decrement. At most one request holds the lock of the product
    row. *)
Theorem race_shows_whole_sales d pid p q reqs sched :
  conforms d ->
  products d !! pid = Some p ->
  0 < q ->
  0 <= p_stock p ->
  same_units pid q reqs ->
  rows_fit d q reqs p ->
  let c := run_schedule sched (launch d reqs) in
  exists cur k,
    products (committed (cstore c)) !! pid = Some cur /\
    0 <= k <= Z.of_nat (length reqs) /\
    p_stock cur = p_stock p - q * k /\ 0 <= p_stock cur /\
    p_price cur = p_price p /\
    Z.of_nat (length (orders (committed (cstore c)))) =
      Z.of_nat (length (orders d)) + k /\
    (locks (cstore c) = ∅ \/ exists h, locks (cstore c) = {[pid := h]}).
Proof.
  intros Hd Hp Hq Hs Hu Hfit c.
  pose proof (inv_launch d pid q reqs p Hp Hs) as H0.
  destruct (inv_run d pid q reqs p Hd Hp Hq Hu Hfit sched _ _ _ H0)
    as (phs & cur & Hinv & _).
  fold c in Hinv.
  destruct Hinv as (Hlen & _ & _ & Hlock & Hcur & Hprice & Hstock & Hnn & _
                    & Hord & _).
  exists cur, (cnt committed201 phs).
  split; [exact Hcur|]. split.
  { split; [apply cnt_nonneg|]. rewrite <- Hlen. apply cnt_length. }
  split; [exact Hstock|]. split; [exact Hnn|]. split; [exact Hprice|].
  split; [exact Hord|].
  destruct Hlock as [[_ Hl]|(h & ph & _ & _ & _ & Hl)];
    [left; exact Hl|right; exists h; exact Hl].
Qed.

Lemma race_shows_whole_sales_witness :
  let c := run_schedule [0; 1; 0; 0; 1; 0; 2; 0; 0]%nat (launch shop three_buyers) in
  exists cur k,
    products (committed (cstore c)) !! 1 = Some cur /\
    p_stock cur = 5 - 2 * k /\
    Z.of_nat (length (orders (committed (cstore c)))) = k.
Proof.
  destruct (race_shows_whole_sales shop 1 mango 2 three_buyers
              [0; 1; 0; 0; 1; 0; 2; 0; 0]%nat)
    as (cur & k & Hcur & _ & Hs & _ & _ & Ho & _).
  - exact conforms_shop.
  - reflexivity.
  - lia.
  - simpl. lia.
  - repeat constructor.
  - split; [repeat constructor|].
    repeat split; try reflexivity; vm_compute; congruence.
  - exists cur, k. repeat split; assumption.
Defined.

End RaceMore.
